(** * The BigchainDB transaction model

    A shallow embedding of [bigchaindb/common/transaction.py]: the classes
    [Input], [TransactionLink], [Output] and [Transaction], their dictionary
    forms, the transaction id, the signing ceremony and the validator.

    Python values are embedded as a tree type, exceptions as an error
    monad, and the collaborators that live outside the file
    ([cryptoconditions], [bigchaindb.common.crypto],
    [bigchaindb.common.utils]) as an interface class. *)

From Stdlib Require Import ZArith Lia Ascii String DecimalString DecimalZ.
From stdpp Require Import base tactics option list strings countable gmap.

Set Warnings "-register-all".
Local Open Scope string_scope.
Local Open Scope list_scope.
Local Open Scope Z_scope.

(** ** Exceptions and the error monad *)

Inductive exn : Type :=
| TypeError
| ValueError
| KeyError
| IndexError
| AttributeError
| ParsingError
| AmountError
| KeypairMismatchException
| InvalidHash
| InvalidSignature
| AssetIdMismatch.

Inductive result (A : Type) : Type :=
| Ok (a : A)
| Raise (e : exn).

Arguments Ok {A} a.
Arguments Raise {A} e.

Definition bind {A B : Type} (r : result A) (k : A -> result B) : result B :=
  match r with
  | Ok a => k a
  | Raise e => Raise e
  end.

Declare Scope py_scope.
Delimit Scope py_scope with py.
Notation "'let*' x ':=' r 'in' k" := (bind r (fun x => k))
  (at level 10, x name, r at level 100, k at level 200) : py_scope.
Notation "'let*' ' p ':=' r 'in' k" := (bind r (fun p => k))
  (at level 10, p strict pattern, r at level 100, k at level 200) : py_scope.
Local Open Scope py_scope.

(** [[f(x) for x in xs]] where [f] may raise: the first exception wins. *)
Fixpoint map_result {A B : Type} (f : A -> result B) (xs : list A)
  : result (list B) :=
  match xs with
  | [] => Ok []
  | x :: xs' =>
      let* y := f x in
      let* ys := map_result f xs' in
      Ok (y :: ys)
  end.

Definition is_ok {A : Type} (r : result A) : bool :=
  match r with Ok _ => true | Raise _ => false end.

(** ** Crypto-condition trees

    The two node kinds the file dispatches on ([isinstance] tests in
    [_sign_input]).  A leaf carries its public key and, once signed, a
    signature; a threshold node carries its threshold and its ordered
    subfulfillments. *)

Inductive Fulfillment : Type :=
| Ed25519Fulfillment (public_key : string) (signature : option string)
| ThresholdSha256Fulfillment (threshold : nat)
    (subconditions : list Fulfillment).

(** ** Python values

    What a dictionary, a list or an attribute may hold.  [PFulfillment] is
    a [cryptoconditions] object stored as a value (an unsigned fulfillment
    in a dictionary, a pre-built condition in an owner list).  A [PDict]
    lists its items in insertion order; its keys are distinct. *)

Inductive pyvalue : Type :=
| PNone
| PStr (s : string)
| PInt (z : Z)
| PList (items : list pyvalue)
| PDict (items : list (string * pyvalue))
| PFulfillment (f : Fulfillment).

Fixpoint Fulfillment_eq_dec (x y : Fulfillment) : {x = y} + {x <> y}.
Proof.
  decide equality;
    try apply String.string_dec; try apply Nat.eq_dec;
    try apply (List.list_eq_dec Fulfillment_eq_dec).
  decide equality. apply String.string_dec.
Defined.

Fixpoint pyvalue_eq_dec (x y : pyvalue) : {x = y} + {x <> y}.
Proof.
  decide equality;
    try apply String.string_dec; try apply Z.eq_dec;
    try apply Fulfillment_eq_dec;
    try apply (List.list_eq_dec pyvalue_eq_dec).
  apply List.list_eq_dec. intros [k1 v1] [k2 v2].
  destruct (String.string_dec k1 k2) as [->|Hk];
    [destruct (pyvalue_eq_dec v1 v2) as [->|Hv]|].
  - left; reflexivity.
  - right; congruence.
  - right; congruence.
Defined.

#[global] Instance Fulfillment_eqdec : EqDecision Fulfillment :=
  Fulfillment_eq_dec.
#[global] Instance pyvalue_eqdec : EqDecision pyvalue := pyvalue_eq_dec.

(** *** Dictionaries *)

(** [d[k]], [None] standing for [KeyError]. *)
Fixpoint dict_get {V : Type} (k : string) (items : list (string * V))
  : option V :=
  match items with
  | [] => None
  | (k', v) :: rest => if String.eqb k k' then Some v else dict_get k rest
  end.

(** [d[k] = v]: an existing key keeps its place, a new one goes last. *)
Fixpoint dict_set {V : Type} (k : string) (v : V)
    (items : list (string * V)) : list (string * V) :=
  match items with
  | [] => [(k, v)]
  | (k', v') :: rest =>
      if String.eqb k k' then (k, v) :: rest
      else (k', v') :: dict_set k v rest
  end.

(** The items left by [d.pop(k)]. *)
Fixpoint dict_remove {V : Type} (k : string) (items : list (string * V))
  : list (string * V) :=
  match items with
  | [] => []
  | (k', v') :: rest =>
      if String.eqb k k' then rest else (k', v') :: dict_remove k rest
  end.

(** [v[k]] for an arbitrary value [v] and a string key: a dictionary looks
    the key up, [None], numbers, strings and lists raise [TypeError]. *)
Definition subscript (v : pyvalue) (k : string) : result pyvalue :=
  match v with
  | PDict items =>
      match dict_get k items with
      | Some x => Ok x
      | None => Raise KeyError
      end
  | PFulfillment _ => Raise TypeError
  | _ => Raise TypeError
  end.

(** *** [str(n)] and [int(s)] *)

Definition py_str (z : Z) : string := NilZero.string_of_int (Z.to_int z).

(** The white space that [int] skips around an ASCII literal: tab, line
    feed, vertical tab, form feed, carriage return and space. *)
Definition is_space (c : ascii) : bool :=
  let n := nat_of_ascii c in
  ((9 <=? n) && (n <=? 13) || (n =? 32))%nat.

Definition is_digit (c : ascii) : bool :=
  let n := nat_of_ascii c in ((48 <=? n) && (n <=? 57))%nat.

Fixpoint lstrip (s : string) : string :=
  match s with
  | String c r => if is_space c then lstrip r else s
  | EmptyString => EmptyString
  end.

Fixpoint rstrip (s : string) : string :=
  match s with
  | String c r =>
      match rstrip r with
      | EmptyString => if is_space c then EmptyString else String c EmptyString
      | r' => String c r'
      end
  | EmptyString => EmptyString
  end.

(** The digits of a literal, its single underscores dropped; an underscore
    has a digit on both sides. *)
Fixpoint digits_of (after_digit : bool) (s : string) : option string :=
  match s with
  | EmptyString => if after_digit then Some EmptyString else None
  | String c r =>
      if is_digit c then
        match digits_of true r with
        | Some ds => Some (String c ds)
        | None => None
        end
      else if (Ascii.eqb c "_" && after_digit)%bool then digits_of false r
      else None
  end.

Definition nat_literal (s : string) : option Z :=
  match digits_of false s with
  | Some ds =>
      match NilEmpty.uint_of_string ds with
      | Some u => Some (Z.of_uint u)
      | None => None
      end
  | None => None
  end.

(** Every character of the string is an ASCII character. *)
Definition is_ascii_text (s : string) : bool :=
  forallb (fun c => (nat_of_ascii c <? 128)%nat) (list_ascii_of_string s).

(** The number of digits [int] reads from a string before it refuses
    the conversion with [ValueError]
    ([sys.int_info.default_max_str_digits]). *)
Definition MAX_STR_DIGITS : nat := 4300.

(** [int(s)] on a string of ASCII characters of at most [MAX_STR_DIGITS]
    characters: surrounding white space, an optional sign, decimal
    digits with single underscores between them.  [None] stands for
    [ValueError]. *)
Definition py_int (s : string) : option Z :=
  match rstrip (lstrip s) with
  | String "+" r => nat_literal r
  | String "-" r => option_map Z.opp (nat_literal r)
  | t => nat_literal t
  end.

(** ** Collaborators outside the file

    [serialize] and [gen_timestamp] come from [bigchaindb.common.utils],
    [hash_data] and [PrivateKey] from [bigchaindb.common.crypto], [VERSION]
    from [bigchaindb.version], the encodings of a fulfillment from
    [cryptoconditions].  They are taken as an interface. *)

Class Externals : Type := {
(** [serialize(value)]: the canonical JSON text of a dictionary. *)
serialize : pyvalue -> string;
(** [hash_data(text)]: the SHA3-256 hex digest of a text. *)
hash_data : string -> string;
(** [Transaction.VERSION]. *)
VERSION : string;
(** [PrivateKey(k).get_verifying_key().encode().decode()]. *)
gen_public_key : string -> string;
(** The signature of a message under a private key. *)
ed25519_sign : string -> string -> string;
(** [ed25519_verify pk message sig]. *)
ed25519_verify : string -> string -> string -> bool;
(** [f.serialize_uri()]; [None] when it raises [TypeError] (a missing
    signature). *)
serialize_uri : Fulfillment -> option string;
(** [Fulfillment.from_uri(s)] on a string. *)
from_uri : string -> result Fulfillment;
(** [f.condition_uri]. *)
condition_uri : Fulfillment -> string;
(** [f.to_dict()], the detail map. *)
Fulfillment_to_dict : Fulfillment -> pyvalue;
(** [Fulfillment.from_dict(d)]. *)
Fulfillment_from_dict : pyvalue -> result Fulfillment;
}.

(** *** Operations on a condition tree *)

(** [Ed25519Fulfillment(public_key=v)]: a string makes a leaf, any other
    value is refused with [TypeError]. *)
Definition Ed25519Fulfillment_init (v : pyvalue) : result Fulfillment :=
  match v with
  | PStr pk => Ok (Ed25519Fulfillment pk None)
  | _ => Raise TypeError
  end.

(** [initial.add_subfulfillment(ffill)]: appended last, with weight one. *)
Definition add_subfulfillment (initial : Fulfillment) (ffill : pyvalue)
  : result Fulfillment :=
  match initial, ffill with
  | ThresholdSha256Fulfillment k subs, PFulfillment f =>
      Ok (ThresholdSha256Fulfillment k (subs ++ [f]))
  | ThresholdSha256Fulfillment _ _, _ => Raise TypeError
  | Ed25519Fulfillment _ _, _ => Raise AttributeError
  end.

(** [f.get_subcondition_from_vk(vk)]: the Ed25519 leaves under [f] that
    carry the key [vk], nested thresholds included. *)
Fixpoint get_subcondition_from_vk (f : Fulfillment) (vk : string)
  : list Fulfillment :=
  match f with
  | Ed25519Fulfillment pk _ => if String.eqb pk vk then [f] else []
  | ThresholdSha256Fulfillment _ subs =>
      List.flat_map (fun s => get_subcondition_from_vk s vk) subs
  end.

Section tree_operations.
Context {X : Externals}.

(** Modelled from the spec: [sign_leaf] of section 4.1, which sets the
    signature of an Ed25519 leaf ([cryptoconditions] is not part of the
    repository). *)
Definition Ed25519Fulfillment_sign (f : Fulfillment)
    (message private_key : string) : Fulfillment :=
  match f with
  | Ed25519Fulfillment pk _ =>
      Ed25519Fulfillment pk (Some (ed25519_sign private_key message))
  | ThresholdSha256Fulfillment _ _ => f
  end.

(** [for subffill in f.get_subcondition_from_vk(vk): subffill.sign(...)]:
    the leaves found are signed where they stand in the tree. *)
Fixpoint sign_subfulfillments (f : Fulfillment)
    (vk message private_key : string) : Fulfillment :=
  match f with
  | Ed25519Fulfillment pk _ =>
      if String.eqb pk vk
      then Ed25519Fulfillment_sign f message private_key
      else f
  | ThresholdSha256Fulfillment k subs =>
      ThresholdSha256Fulfillment k
        (List.map (fun s => sign_subfulfillments s vk message private_key)
           subs)
  end.

(** Modelled from the spec: [verify] of sections 3 and 4.1.  A leaf is
    fulfilled by a signature of the message under its key, a threshold
    node by at least [threshold] fulfilled subnodes. *)
Fixpoint validate (f : Fulfillment) (message : string) : bool :=
  match f with
  | Ed25519Fulfillment pk (Some sig) => ed25519_verify pk message sig
  | Ed25519Fulfillment _ None => false
  | ThresholdSha256Fulfillment k subs =>
      (k <=? length (List.filter (fun s => validate s message) subs))%nat
  end.

(** Every leaf carries a signature of the message that verifies, and
    every threshold is within the number of its subnodes. *)
Fixpoint fully_signed (f : Fulfillment) (message : string) : bool :=
  match f with
  | Ed25519Fulfillment pk (Some sig) => ed25519_verify pk message sig
  | Ed25519Fulfillment _ None => false
  | ThresholdSha256Fulfillment k subs =>
      (k <=? length subs)%nat
      && forallb (fun s => fully_signed s message) subs
  end.
End tree_operations.

(** The tree without its signatures. *)
Fixpoint unsigned (f : Fulfillment) : Fulfillment :=
  match f with
  | Ed25519Fulfillment pk _ => Ed25519Fulfillment pk None
  | ThresholdSha256Fulfillment k subs =>
      ThresholdSha256Fulfillment k (List.map unsigned subs)
  end.

(** The public keys of the leaves of a tree. *)
Fixpoint leaf_keys (f : Fulfillment) : list string :=
  match f with
  | Ed25519Fulfillment pk _ => [pk]
  | ThresholdSha256Fulfillment _ subs => List.flat_map leaf_keys subs
  end.

(** Every threshold is within the number of its subnodes. *)
Fixpoint satisfiable (f : Fulfillment) : bool :=
  match f with
  | Ed25519Fulfillment _ _ => true
  | ThresholdSha256Fulfillment k subs =>
      (k <=? length subs)%nat && forallb satisfiable subs
  end.

(** What the signing ceremony and the validator rely on from Ed25519 and
    from the URI encoding (sections 3 and 6 of the specification). *)
Class SignatureLaws {X : Externals} : Prop := {
(** A signature made with a private key verifies under its public key. *)
verify_sign : forall private_key message,
  ed25519_verify (gen_public_key private_key) message
    (ed25519_sign private_key message) = true;
(** A fully signed fulfillment has a URI, and the URI parses to a
    fulfillment that validates. *)
from_uri_fully_signed : forall f message,
  fully_signed f message = true ->
  exists uri parsed,
    serialize_uri f = Some uri /\ from_uri uri = Ok parsed /\
    validate parsed message = true;
(** The condition URI does not depend on the signatures. *)
condition_uri_unsigned : forall f,
  condition_uri (unsigned f) = condition_uri f;
}.

(** What a serialize and deserialize cycle relies on from the encodings of
    [cryptoconditions]. *)
Class RoundTripLaws {X : Externals} : Prop := {
(** A URI that was serialized parses, and serializes to itself again. *)
from_uri_serialize_uri : forall f uri,
  serialize_uri f = Some uri ->
  exists parsed, from_uri uri = Ok parsed /\ serialize_uri parsed = Some uri;
(** A detail map is not a string. *)
to_dict_not_str : forall f s, Fulfillment_to_dict f <> PStr s;
(** A detail map parses to a fulfillment with the same detail map, the
    same condition URI, and a URI only if the original had one. *)
from_dict_to_dict : forall f,
  exists parsed,
    Fulfillment_from_dict (Fulfillment_to_dict f) = Ok parsed /\
    Fulfillment_to_dict parsed = Fulfillment_to_dict f /\
    condition_uri parsed = condition_uri f /\
    (serialize_uri f = None -> serialize_uri parsed = None);
}.

(** ** [TransactionLink] *)

Module TransactionLink.
Record t : Type := mk { txid : pyvalue; output : pyvalue }.

(** [TransactionLink()]. *)
Definition empty : t := mk PNone PNone.

Definition is_None (v : pyvalue) : bool :=
  match v with PNone => true | _ => false end.

Definition __bool__ (self : t) : bool :=
  negb (is_None (txid self)) && negb (is_None (output self)).

Definition from_dict (link : pyvalue) : result t :=
  match link with
  | PDict _ =>
      let* txid := subscript link "txid" in
      let* output := subscript link "output" in
      Ok (mk txid output)
  | _ => Ok empty
  end.

Definition to_dict (self : t) : pyvalue :=
  if is_None (txid self) && is_None (output self) then PNone
  else PDict [("txid", txid self); ("output", output self)].
End TransactionLink.

(** ** [Output] *)

Module Output.
Record t : Type := mk {
  fulfillment : pyvalue;
  public_keys : option (list pyvalue);
  amount : Z;
}.

Definition MAX_AMOUNT : Z := (9 * 10 ^ 18)%Z.

(** The value of the attribute [public_keys]. *)
Definition public_keys_value (pks : option (list pyvalue)) : pyvalue :=
  match pks with
  | Some l => PList l
  | None => PNone
  end.

(** [Output(fulfillment, public_keys, amount)], [amount] an [int]. *)
Definition __init__ (fulfillment public_keys : pyvalue) (amount : Z)
  : result t :=
  let* pks :=
    match public_keys with
    | PList l => Ok (Some l)
    | PNone => Ok None
    | _ => Raise TypeError
    end in
  if (amount <? 1)%Z then Raise AmountError
  else if (MAX_AMOUNT <? amount)%Z then Raise AmountError
  else Ok (mk fulfillment pks amount).

(** [functools.reduce(f, xs, initial)] for an [f] that may raise. *)
Fixpoint reduce {A B : Type} (f : A -> B -> result A) (xs : list B)
    (initial : A) : result A :=
  match xs with
  | [] => Ok initial
  | x :: xs' => let* acc := f initial x in reduce f xs' acc
  end.

Fixpoint _gen_condition (initial : Fulfillment) (new_public_keys : pyvalue)
    {struct new_public_keys} : result Fulfillment :=
  match new_public_keys with
  | PList l =>
      if (1 <? length l)%nat then
        let* ffill :=
          reduce _gen_condition l
            (ThresholdSha256Fulfillment (length l) []) in
        add_subfulfillment initial (PFulfillment ffill)
      else Raise ValueError
  | PDict _ =>
      (* [new_public_keys.pop()] without a key *)
      Raise TypeError
  | _ =>
      let ffill :=
        match Ed25519Fulfillment_init new_public_keys with
        | Ok f => PFulfillment f
        | Raise _ => new_public_keys
        end in
      add_subfulfillment initial ffill
  end.

Definition generate (public_keys : pyvalue) (amount : Z) : result t :=
  match public_keys with
  | PNone | PInt _ | PFulfillment _ =>
      (* [len(public_keys)] *)
      Raise TypeError
  | PStr _ | PDict _ =>
      if (amount <? 1)%Z then Raise AmountError else Raise TypeError
  | PList l =>
      let threshold := length l in
      if (amount <? 1)%Z then Raise AmountError
      else
        match l with
        | [] => Raise ValueError
        | [PList _] | _ :: _ :: _ =>
            let initial_cond := ThresholdSha256Fulfillment threshold [] in
            let* threshold_cond := reduce _gen_condition l initial_cond in
            __init__ (PFulfillment threshold_cond) public_keys amount
        | [item] =>
            let ffill :=
              match Ed25519Fulfillment_init item with
              | Ok f => PFulfillment f
              | Raise _ => item
              end in
            __init__ ffill public_keys amount
        end
  end.

Section with_externals.
Context {X : Externals}.

Definition to_dict (self : t) : pyvalue :=
  let condition :=
    match fulfillment self with
    | PFulfillment f =>
        [("details", Fulfillment_to_dict f);
         ("uri", PStr (condition_uri f))]
    | v => [("uri", v)]
    end in
  PDict [("public_keys", public_keys_value (public_keys self));
         ("condition", PDict condition);
         ("amount", PStr (py_str (amount self)))].

(** The [try] block of [from_dict] that reads the condition: a
    [KeyError] anywhere in the first attempt falls back on the URI. *)
Definition condition_from_dict (data : pyvalue) : result pyvalue :=
  let attempt :=
    let* condition := subscript data "condition" in
    let* details := subscript condition "details" in
    let* f := Fulfillment_from_dict details in
    Ok (PFulfillment f) in
  match attempt with
  | Raise KeyError =>
      let* condition := subscript data "condition" in
      subscript condition "uri"
  | r => r
  end.

(** [int(v)] as [from_dict] wraps it: [ValueError] becomes
    [AmountError]. *)
Definition amount_from_value (v : pyvalue) : result Z :=
  match v with
  | PStr s =>
      match py_int s with
      | Some n => Ok n
      | None => Raise AmountError
      end
  | PInt n => Ok n
  | _ => Raise TypeError
  end.

Definition from_dict (data : pyvalue) : result t :=
  let* fulfillment := condition_from_dict data in
  let* amount_value := subscript data "amount" in
  let* amount := amount_from_value amount_value in
  let* public_keys := subscript data "public_keys" in
  __init__ fulfillment public_keys amount.
End with_externals.
End Output.

(** ** [Input] *)

Module Input.
Record t : Type := mk {
  fulfillment : pyvalue;
  owners_before : list pyvalue;
  fulfills : option TransactionLink.t;
}.

(** [Input(fulfillment, owners_before, fulfills)]. *)
Definition __init__ (fulfillment owners_before : pyvalue)
    (fulfills : option TransactionLink.t) : result t :=
  match owners_before with
  | PList l => Ok (mk fulfillment l fulfills)
  | _ => Raise TypeError
  end.

Definition generate (public_keys : pyvalue) : result t :=
  let* output := Output.generate public_keys 1 in
  __init__ (Output.fulfillment output) public_keys None.

Section with_externals.
Context {X : Externals}.

Definition to_dict (self : t) : result pyvalue :=
  let* fulfillment :=
    match fulfillment self with
    | PFulfillment f =>
        match serialize_uri f with
        | Some uri => Ok (PStr uri)
        | None => Ok (Fulfillment_to_dict f)
        end
    | _ => Raise AttributeError
    end in
  let fulfills :=
    match fulfills self with
    | Some link => TransactionLink.to_dict link
    | None => PNone
    end in
  Ok (PDict [("owners_before", PList (owners_before self));
             ("fulfills", fulfills);
             ("fulfillment", fulfillment)]).

Definition from_dict (data : pyvalue) : result t :=
  let* value := subscript data "fulfillment" in
  let* fulfillment :=
    match value with
    | PStr uri =>
        match from_uri uri with
        | Raise ValueError => Raise InvalidSignature
        | Raise TypeError => Fulfillment_from_dict value
        | r => r
        end
    | _ => Fulfillment_from_dict value
    end in
  let* link := subscript data "fulfills" in
  let* fulfills := TransactionLink.from_dict link in
  let* owners_before := subscript data "owners_before" in
  __init__ (PFulfillment fulfillment) owners_before (Some fulfills).
End with_externals.
End Input.

(** ** [Transaction] *)

(** The values a [for] loop draws from [v]: the items of a list, the keys
    of a dictionary, the characters of a string. *)
Definition iterate (v : pyvalue) : result (list pyvalue) :=
  match v with
  | PList l => Ok l
  | PDict items => Ok (List.map (fun kv => PStr (fst kv)) items)
  | PStr s => Ok (List.map (fun c => PStr (String c EmptyString))
                    (list_ascii_of_string s))
  | _ => Raise TypeError
  end.

Module Transaction.
Record t : Type := mk {
  operation : string;
  asset : pyvalue;
  inputs : list Input.t;
  outputs : list Output.t;
  metadata : pyvalue;
  version : pyvalue;
}.

Definition CREATE : string := "CREATE".
Definition TRANSFER : string := "TRANSFER".
Definition GENESIS : string := "GENESIS".
Definition ALLOWED_OPERATIONS : list string := [CREATE; TRANSFER; GENESIS].

(** [isinstance(asset, dict) and key in asset]. *)
Definition dict_holding (key : string) (asset : pyvalue) : bool :=
  match asset with
  | PDict items => bool_decide (is_Some (dict_get key items))
  | _ => false
  end.

Definition is_None (v : pyvalue) : bool :=
  match v with PNone => true | _ => false end.

Definition is_dict (v : pyvalue) : bool :=
  match v with PDict _ => true | _ => false end.

Definition from_option {A : Type} (l : option (list A)) : list A :=
  match l with
  | Some l => l
  | None => []
  end.

Section with_externals.
Context {X : Externals}.

(** [Transaction(operation, asset, inputs, outputs, metadata, version)],
    [inputs] and [outputs] lists or [None]. *)
Definition __init__ (operation asset : pyvalue)
    (inputs : option (list Input.t)) (outputs : option (list Output.t))
    (metadata version : pyvalue) : result t :=
  match operation with
  | PStr op =>
      if bool_decide (op ∈ ALLOWED_OPERATIONS) then
        if bool_decide (op ∈ [CREATE; GENESIS])
           && negb (is_None asset) && negb (dict_holding "data" asset)
        then Raise TypeError
        else if String.eqb op TRANSFER && negb (dict_holding "id" asset)
        then Raise TypeError
        else if negb (is_None metadata) && negb (is_dict metadata)
        then Raise TypeError
        else
          Ok (mk op asset (from_option inputs) (from_option outputs)
                metadata
                (if is_None version then PStr VERSION else version))
      else Raise ValueError
  | _ => Raise ValueError
  end.

Definition _to_hash (value : string) : string := hash_data value.

Definition _to_str (value : pyvalue) : string := serialize value.

(** The loop body of [_remove_signatures], on one element of
    [tx_dict['inputs']]. *)
Definition clear_fulfillment (input_ : pyvalue) : result pyvalue :=
  match input_ with
  | PDict items => Ok (PDict (dict_set "fulfillment" PNone items))
  | _ => Raise TypeError
  end.

(** [_remove_signatures(tx_dict)].  The dictionary returned is the
    deep copy, so the argument is read and never written. *)
Definition _remove_signatures (tx_dict : pyvalue) : result pyvalue :=
  let* inputs := subscript tx_dict "inputs" in
  let* elements := iterate inputs in
  let* cleared := map_result clear_fulfillment elements in
  match tx_dict, inputs with
  | PDict items, PList _ => Ok (PDict (dict_set "inputs" (PList cleared) items))
  | _, _ => Ok tx_dict
  end.

Definition to_dict (self : t) : result pyvalue :=
  let* inputs := map_result Input.to_dict (inputs self) in
  let tx :=
    [("inputs", PList inputs);
     ("outputs", PList (List.map Output.to_dict (outputs self)));
     ("operation", PStr (operation self));
     ("metadata", metadata self);
     ("asset", asset self);
     ("version", version self)] in
  let* tx_no_signatures := _remove_signatures (PDict tx) in
  let tx_serialized := _to_str tx_no_signatures in
  let tx_id := _to_hash tx_serialized in
  Ok (PDict (dict_set "id" (PStr tx_id) tx)).

Definition to_hash (self : t) : result pyvalue :=
  let* tx := to_dict self in subscript tx "id".

(** The property [id]. *)
Definition id (self : t) : result pyvalue := to_hash self.

(** [self == other]: an [AttributeError] raised by [other.to_dict()] is
    caught and answered with [False]. *)
Definition __eq__ (self other : t) : result bool :=
  match to_dict other with
  | Ok other =>
      let* this := to_dict self in
      Ok (bool_decide (this = other))
  | Raise AttributeError => Ok false
  | Raise e => Raise e
  end.

Definition __str__ (self : t) : result string :=
  let* d := to_dict self in
  let* tx := _remove_signatures d in
  Ok (_to_str tx).

(** *** Signing *)

(** The dictionary [key_pairs] of [sign]: public key to private key, a
    later private key replacing an earlier one with the same public
    key. *)
Definition gen_key_pairs (private_keys : list string)
  : gmap string string :=
  foldl (fun m private_key =>
           <[gen_public_key private_key := private_key]> m)
    ∅ private_keys.

(** [key_pairs[key]]: [KeyError] for a missing key, [TypeError] for an
    unhashable one. *)
Definition key_pairs_get (key_pairs : gmap string string) (key : pyvalue)
  : result string :=
  match key with
  | PStr pk =>
      match key_pairs !! pk with
      | Some private_key => Ok private_key
      | None => Raise KeyError
      end
  | PList _ | PDict _ => Raise TypeError
  | _ => Raise KeyError
  end.

Definition hashable (v : pyvalue) : bool :=
  match v with
  | PList _ | PDict _ => false
  | _ => true
  end.

(** [set(values)], listed in the order of first occurrence. *)
Definition py_set (values : list pyvalue) : result (list pyvalue) :=
  if forallb hashable values then Ok (remove_dups values)
  else Raise TypeError.

(** [self.inputs[index] = input_]. *)
Definition set_input (self : t) (index : nat) (input_ : Input.t) : t :=
  mk (operation self) (asset self) (<[index := input_]> (inputs self))
    (outputs self) (metadata self) (version self).

Definition _sign_simple_signature_fulfillment (self : t)
    (input_ : Input.t) (ccffill : Fulfillment) (index : nat)
    (tx_serialized : string) (key_pairs : gmap string string)
  : result t :=
  match Input.owners_before input_ with
  | [] => Raise IndexError
  | public_key :: _ =>
      match key_pairs_get key_pairs public_key with
      | Ok private_key =>
          let signed :=
            Ed25519Fulfillment_sign ccffill tx_serialized private_key in
          Ok (set_input self index
                (Input.mk (PFulfillment signed)
                   (Input.owners_before input_) (Input.fulfills input_)))
      | Raise KeyError => Raise KeypairMismatchException
      | Raise e => Raise e
      end
  end.

(** One turn of the loop over [set(input_.owners_before)]. *)
Definition sign_owner (tx_serialized : string)
    (key_pairs : gmap string string) (ccffill : Fulfillment)
    (owner_before : pyvalue) : result Fulfillment :=
  let subffills :=
    match owner_before with
    | PStr vk => get_subcondition_from_vk ccffill vk
    | _ => []
    end in
  match subffills, owner_before with
  | [], _ => Raise KeypairMismatchException
  | _ :: _, PStr vk =>
      match key_pairs_get key_pairs owner_before with
      | Ok private_key =>
          Ok (sign_subfulfillments ccffill vk tx_serialized private_key)
      | Raise KeyError => Raise KeypairMismatchException
      | Raise e => Raise e
      end
  | _ :: _, _ => Raise KeypairMismatchException
  end.

Definition _sign_threshold_signature_fulfillment (self : t)
    (input_ : Input.t) (ccffill : Fulfillment) (index : nat)
    (tx_serialized : string) (key_pairs : gmap string string)
  : result t :=
  let* owners := py_set (Input.owners_before input_) in
  let* signed :=
    Output.reduce (sign_owner tx_serialized key_pairs) owners ccffill in
  Ok (set_input self index
        (Input.mk (PFulfillment signed)
           (Input.owners_before input_) (Input.fulfills input_))).

Definition _sign_input (self : t) (input_ : Input.t) (index : nat)
    (tx_serialized : string) (key_pairs : gmap string string)
  : result t :=
  match Input.fulfillment input_ with
  | PFulfillment (Ed25519Fulfillment pk sig) =>
      _sign_simple_signature_fulfillment self input_
        (Ed25519Fulfillment pk sig) index tx_serialized key_pairs
  | PFulfillment (ThresholdSha256Fulfillment k subs) =>
      _sign_threshold_signature_fulfillment self input_
        (ThresholdSha256Fulfillment k subs) index tx_serialized key_pairs
  | _ => Raise ValueError
  end.

(** The message of one input: the serialized, signature-stripped
    transaction that holds this input alone. *)
Definition partial_message (self : t) (input_ : Input.t)
  : result string :=
  let* tx_partial :=
    __init__ (PStr (operation self)) (asset self) (Some [input_])
      (Some (outputs self)) (metadata self) (version self) in
  let* tx_partial_dict := to_dict tx_partial in
  let* tx_partial_dict := _remove_signatures tx_partial_dict in
  Ok (_to_str tx_partial_dict).

(** The loop of [sign] from position [index] on; [remaining] are the
    inputs not yet visited. *)
Fixpoint sign_from (self : t) (index : nat) (remaining : list Input.t)
    (key_pairs : gmap string string) : result t :=
  match remaining with
  | [] => Ok self
  | input_ :: rest =>
      let* tx_serialized := partial_message self input_ in
      let* self := _sign_input self input_ index tx_serialized key_pairs in
      sign_from self (S index) rest key_pairs
  end.

Definition sign (self : t) (private_keys : list string) : result t :=
  sign_from self 0 (inputs self) (gen_key_pairs private_keys).

(** *** Validation *)

Definition _input_valid (input_ : Input.t) (operation tx_serialized : string)
    (output_condition_uri : pyvalue) : result bool :=
  match Input.fulfillment input_ with
  | PFulfillment ccffill =>
      match serialize_uri ccffill with
      | None => Ok false
      | Some uri =>
          match from_uri uri with
          | Ok parsed_ffill =>
              let output_valid :=
                if bool_decide (operation ∈ [CREATE; GENESIS]) then true
                else bool_decide
                       (output_condition_uri = PStr (condition_uri ccffill))
              in
              let ffill_valid := validate parsed_ffill tx_serialized in
              Ok (output_valid && ffill_valid)
          | Raise TypeError | Raise ValueError | Raise ParsingError =>
              Ok false
          | Raise e => Raise e
          end
      end
  | _ => Raise AttributeError
  end.

(** The inner function [gen_tx] of [_inputs_valid]. *)
Definition gen_tx (self : t) (input_ : Input.t) (output : Output.t)
    (output_condition_uri : pyvalue) : result bool :=
  let* tx_serialized := partial_message self input_ in
  _input_valid input_ (operation self) tx_serialized output_condition_uri.

(** [all(map(f, xs, ys, zs))]: [map] stops with its shortest argument,
    [all] at the first false value. *)
Fixpoint all_map3 {A B C : Type} (f : A -> B -> C -> result bool)
    (xs : list A) (ys : list B) (zs : list C) : result bool :=
  match xs, ys, zs with
  | x :: xs', y :: ys', z :: zs' =>
      let* b := f x y z in
      if b then all_map3 f xs' ys' zs' else Ok false
  | _, _, _ => Ok true
  end.

Definition _inputs_valid (self : t) (output_condition_uris : list pyvalue)
  : result bool :=
  if bool_decide (length (inputs self) ≠ length output_condition_uris)
  then Raise ValueError
  else all_map3 (gen_tx self) (inputs self) (outputs self)
         output_condition_uris.

(** [output.fulfillment.condition_uri]. *)
Definition output_condition_uri (output : Output.t) : result pyvalue :=
  match Output.fulfillment output with
  | PFulfillment f => Ok (PStr (condition_uri f))
  | _ => Raise AttributeError
  end.

Definition inputs_valid (self : t) (outputs : option (list Output.t))
  : result bool :=
  if bool_decide (operation self ∈ [CREATE; GENESIS]) then
    _inputs_valid self
      (List.map (fun _ => PStr "dummyvalue") (inputs self))
  else if String.eqb (operation self) TRANSFER then
    match outputs with
    | Some outputs =>
        let* uris := map_result output_condition_uri outputs in
        _inputs_valid self uris
    | None => Raise TypeError
    end
  else Raise TypeError.

(** *** Asset id and transaction id *)

(** The asset id one transaction adds to the set in [get_asset_id]. *)
Definition asset_id_of (tx : t) : result pyvalue :=
  let* value :=
    if String.eqb (operation tx) CREATE then id tx
    else subscript (asset tx) "id" in
  if hashable value then Ok value else Raise TypeError.

Definition get_asset_id (transactions : list t) : result pyvalue :=
  let* values := map_result asset_id_of transactions in
  let asset_ids := remove_dups values in
  if bool_decide (1 < length asset_ids)%nat then Raise AssetIdMismatch
  else
    match asset_ids with
    | value :: _ => Ok value
    | [] => Raise KeyError
    end.

(** [tx_body.pop('id')] on the copy, as [validate_id] catches it. *)
Definition pop_id (tx_body : pyvalue) : result (pyvalue * pyvalue) :=
  match tx_body with
  | PDict items =>
      match dict_get "id" items with
      | Some proposed_tx_id =>
          Ok (proposed_tx_id, PDict (dict_remove "id" items))
      | None => Raise InvalidHash
      end
  | PList _ => Raise TypeError
  | _ => Raise AttributeError
  end.

Definition validate_id (tx_body : pyvalue) : result unit :=
  let* '(proposed_tx_id, tx_body) := pop_id tx_body in
  let* tx_body_no_signatures := _remove_signatures tx_body in
  let tx_body_serialized := _to_str tx_body_no_signatures in
  let valid_tx_id := _to_hash tx_body_serialized in
  if bool_decide (proposed_tx_id ≠ PStr valid_tx_id)
  then Raise InvalidHash
  else Ok tt.

Definition from_dict (tx : pyvalue) : result t :=
  let* _ := validate_id tx in
  let* values := subscript tx "inputs" in
  let* values := iterate values in
  let* inputs := map_result Input.from_dict values in
  let* values := subscript tx "outputs" in
  let* values := iterate values in
  let* outputs := map_result Output.from_dict values in
  let* operation := subscript tx "operation" in
  let* asset := subscript tx "asset" in
  let* metadata := subscript tx "metadata" in
  let* version := subscript tx "version" in
  __init__ operation asset (Some inputs) (Some outputs) metadata version.
End with_externals.
End Transaction.

(** ** Objects and references

    Where a function copies, shares or writes an object, values are
    references into a heap: a dictionary, a list or a [cryptoconditions]
    object lives at an address, and two values are the same object when
    they are the same address. *)

Module Heap.
Inductive value : Type :=
| VNone
| VStr (s : string)
| VInt (z : Z)
| VRef (a : nat).

Inductive object : Type :=
| ODict (items : list (string * value))
| OList (items : list value)
| OFulfillment (f : Fulfillment).

Abbreviation heap := (list object).

#[global] Instance value_eqdec : EqDecision value.
Proof. solve_decision. Defined.

(** Running out of [fuel] is [None]; an exception is [Some (Raise e)]. *)
Definition bind2 {A B : Type} (r : option (result A))
    (k : A -> option (result B)) : option (result B) :=
  match r with
  | Some (Ok a) => k a
  | Some (Raise e) => Some (Raise e)
  | None => None
  end.

(** The tree a value stands for. *)
Fixpoint load (fuel : nat) (h : heap) (v : value) : option pyvalue :=
  match v with
  | VNone => Some PNone
  | VStr s => Some (PStr s)
  | VInt z => Some (PInt z)
  | VRef a =>
      match fuel with
      | O => None
      | S fuel =>
          match h !! a with
          | Some (ODict items) =>
              PDict <$> mapM (fun kv => pair (fst kv) <$> load fuel h (snd kv))
                          items
          | Some (OList items) => PList <$> mapM (load fuel h) items
          | Some (OFulfillment f) => Some (PFulfillment f)
          | None => None
          end
      end
  end.

(** [y.append(v)] and [y[k] = v] on the object at address [y]. *)
Definition append_at (y : nat) (v : value) (h : heap) : heap :=
  match h !! y with
  | Some (OList items) => <[y := OList (items ++ [v])]> h
  | _ => h
  end.

Definition setitem_at (y : nat) (k : string) (v : value) (h : heap) : heap :=
  match h !! y with
  | Some (ODict items) => <[y := ODict (dict_set k v items)]> h
  | _ => h
  end.

(** The loops of [deepcopy] that fill the copy at address [y], [copy]
    being [deepcopy] itself: [for a in x: y.append(deepcopy(a, memo))] and
    [for key, value in x.items(): y[key] = deepcopy(value, memo)]. *)
Fixpoint fill_list
    (copy : value -> heap -> gmap nat nat
            -> option (value * heap * gmap nat nat))
    (y : nat) (items : list value) (h : heap) (memo : gmap nat nat)
  : option (heap * gmap nat nat) :=
  match items with
  | [] => Some (h, memo)
  | item :: rest =>
      '(v, h, memo) ← copy item h memo;
      fill_list copy y rest (append_at y v h) memo
  end.

Fixpoint fill_dict
    (copy : value -> heap -> gmap nat nat
            -> option (value * heap * gmap nat nat))
    (y : nat) (items : list (string * value)) (h : heap)
    (memo : gmap nat nat) : option (heap * gmap nat nat) :=
  match items with
  | [] => Some (h, memo)
  | (k, item) :: rest =>
      '(v, h, memo) ← copy item h memo;
      fill_dict copy y rest (setitem_at y k v h) memo
  end.

(** [copy.deepcopy(x, memo)]: an object met before is answered from
    [memo]; otherwise the empty copy is allocated and recorded first and
    then filled, item by item. *)
Fixpoint deepcopy (fuel : nat) (x : value) (h : heap) (memo : gmap nat nat)
  : option (value * heap * gmap nat nat) :=
  match x with
  | VRef a =>
      match memo !! a with
      | Some y => Some (VRef y, h, memo)
      | None =>
          match fuel with
          | O => None
          | S fuel =>
              let y := length h in
              match h !! a with
              | Some (OFulfillment f) =>
                  Some (VRef y, h ++ [OFulfillment f], <[a := y]> memo)
              | Some (OList items) =>
                  '(h, memo) ←
                    fill_list (deepcopy fuel) y items (h ++ [OList []])
                      (<[a := y]> memo);
                  Some (VRef y, h, memo)
              | Some (ODict items) =>
                  '(h, memo) ←
                    fill_dict (deepcopy fuel) y items (h ++ [ODict []])
                      (<[a := y]> memo);
                  Some (VRef y, h, memo)
              | None => None
              end
          end
      end
  | _ => Some (x, h, memo)
  end.

(** [v[k]] for a string key. *)
Definition subscript (h : heap) (v : value) (k : string) : result value :=
  match v with
  | VRef a =>
      match h !! a with
      | Some (ODict items) =>
          match dict_get k items with
          | Some x => Ok x
          | None => Raise KeyError
          end
      | _ => Raise TypeError
      end
  | _ => Raise TypeError
  end.

(** The values a [for] loop draws from [v]. *)
Definition iterate (h : heap) (v : value) : result (list value) :=
  match v with
  | VRef a =>
      match h !! a with
      | Some (OList items) => Ok items
      | Some (ODict items) => Ok (List.map (fun kv => VStr (fst kv)) items)
      | _ => Raise TypeError
      end
  | VStr s => Ok (List.map (fun c => VStr (String c EmptyString))
                    (list_ascii_of_string s))
  | _ => Raise TypeError
  end.

(** [input_['fulfillment'] = None]. *)
Definition clear_fulfillment (h : heap) (input_ : value)
  : result unit * heap :=
  match input_ with
  | VRef a =>
      match h !! a with
      | Some (ODict items) =>
          (Ok tt, <[a := ODict (dict_set "fulfillment" VNone items)]> h)
      | _ => (Raise TypeError, h)
      end
  | _ => (Raise TypeError, h)
  end.

(** The loop of [_remove_signatures]; an exception leaves the writes
    made so far. *)
Fixpoint clear_all (h : heap) (elements : list value) : result unit * heap :=
  match elements with
  | [] => (Ok tt, h)
  | input_ :: rest =>
      match clear_fulfillment h input_ with
      | (Ok _, h) => clear_all h rest
      | (Raise e, h) => (Raise e, h)
      end
  end.

Definition _remove_signatures (fuel : nat) (h : heap) (tx_dict : value)
  : option (result value * heap) :=
  '(tx_dict, h, _) ← deepcopy fuel tx_dict h ∅;
  match subscript h tx_dict "inputs" with
  | Ok inputs =>
      match iterate h inputs with
      | Ok elements =>
          match clear_all h elements with
          | (Ok _, h) => Some (Ok tx_dict, h)
          | (Raise e, h) => Some (Raise e, h)
          end
      | Raise e => Some (Raise e, h)
      end
  | Raise e => Some (Raise e, h)
  end.

Section with_externals.
Context {X : Externals}.

(** [validate_id(tx_body)] with the heap it runs in and leaves. *)
Definition validate_id (fuel : nat) (h : heap) (tx_body : value)
  : option (result unit * heap) :=
  '(tx_body, h, _) ← deepcopy fuel tx_body h ∅;
  match tx_body with
  | VRef a =>
      match h !! a with
      | Some (ODict items) =>
          match dict_get "id" items with
          | Some proposed_tx_id =>
              let h := <[a := ODict (dict_remove "id" items)]> h in
              '(r, h) ← _remove_signatures fuel h tx_body;
              match r with
              | Ok tx_body_no_signatures =>
                  tree ← load fuel h tx_body_no_signatures;
                  let tx_body_serialized := Transaction._to_str tree in
                  let valid_tx_id :=
                    Transaction._to_hash tx_body_serialized in
                  if bool_decide (proposed_tx_id ≠ VStr valid_tx_id)
                  then Some (Raise InvalidHash, h)
                  else Some (Ok tt, h)
              | Raise e => Some (Raise e, h)
              end
          | None => Some (Raise InvalidHash, h)
          end
      | Some (OList _) => Some (Raise TypeError, h)
      | Some (OFulfillment _) => Some (Raise AttributeError, h)
      | None => None
      end
  | _ => Some (Raise AttributeError, h)
  end.
End with_externals.

(** *** What a deep copy leaves alone

    The addresses below [n] are the caller's; a copy lives at [n] and
    above. *)

(** The value is not a reference below [n]. *)
Definition value_from (n : nat) (v : value) : Prop :=
  match v with
  | VRef a => (n <= a)%nat
  | _ => True
  end.

Definition object_from (n : nat) (o : object) : Prop :=
  match o with
  | ODict items => Forall (fun kv => value_from n (snd kv)) items
  | OList items => Forall (value_from n) items
  | OFulfillment _ => True
  end.

(** The objects at [n] and above hold no reference below [n], and [memo]
    answers with addresses at [n] and above. *)
Definition copies_from (n : nat) (h : heap) (memo : gmap nat nat) : Prop :=
  (n <= length h)%nat
  /\ (forall a y, memo !! a = Some y -> (n <= y)%nat)
  /\ (forall a o, (n <= a)%nat -> h !! a = Some o -> object_from n o).

(** [h'] has the objects of [h] below [n], and is not shorter. *)
Definition same_below (n : nat) (h h' : heap) : Prop :=
  take n h' = take n h /\ (length h <= length h')%nat.

(** What one call of a copying function keeps. *)
Definition copy_ok (n : nat)
    (copy : value -> heap -> gmap nat nat
            -> option (value * heap * gmap nat nat)) : Prop :=
  forall x h memo v h' memo',
    copies_from n h memo ->
    copy x h memo = Some (v, h', memo') ->
    same_below n h h' /\ copies_from n h' memo' /\ value_from n v.

(** The heap with the tree [t] stored in it, children first, and the
    value that stands for [t]. *)
Fixpoint store (t : pyvalue) (h : heap) : value * heap :=
  match t with
  | PNone => (VNone, h)
  | PStr s => (VStr s, h)
  | PInt z => (VInt z, h)
  | PFulfillment f => (VRef (length h), h ++ [OFulfillment f])
  | PList items =>
      let '(vs, h) :=
        (fix store_all (items : list pyvalue) (h : heap) :=
           match items with
           | [] => ([], h)
           | x :: rest =>
               let '(v, h) := store x h in
               let '(vs, h) := store_all rest h in
               (v :: vs, h)
           end) items h in
      (VRef (length h), h ++ [OList vs])
  | PDict items =>
      let '(kvs, h) :=
        (fix store_all (items : list (string * pyvalue)) (h : heap) :=
           match items with
           | [] => ([], h)
           | (k, x) :: rest =>
               let '(v, h) := store x h in
               let '(kvs, h) := store_all rest h in
               ((k, v) :: kvs, h)
           end) items h in
      (VRef (length h), h ++ [ODict kvs])
  end.

(** *** Transactions whose attributes are references *)

Record Output : Type := mkOutput {
  fulfillment : value;
  public_keys : value;
  amount : Z;
}.

Record Input : Type := mkInput {
  input_fulfillment : value;
  owners_before : value;
  fulfills : option TransactionLink.t;
}.

Record Transaction : Type := mkTransaction {
  operation : string;
  asset : value;
  inputs : list Input;
  outputs : list Output;
  metadata : value;
  version : value;
}.

(** [Input(fulfillment, owners_before, fulfills)]: the object built
    holds the two values it was given. *)
Definition Input__init__ (h : heap) (fulfillment owners_before : value)
    (fulfills : option TransactionLink.t) : result Input :=
  match owners_before with
  | VRef a =>
      match h !! a with
      | Some (OList _) => Ok (mkInput fulfillment owners_before fulfills)
      | _ => Raise TypeError
      end
  | _ => Raise TypeError
  end.

Definition load_list (fuel : nat) (h : heap) (v : value)
  : option (list pyvalue) :=
  match load fuel h v with
  | Some (PList l) => Some l
  | _ => None
  end.

Definition load_output (fuel : nat) (h : heap) (o : Output)
  : option Output.t :=
  f ← load fuel h (fulfillment o);
  pks ← load fuel h (public_keys o);
  match pks with
  | PList l => Some (Output.mk f (Some l) (amount o))
  | PNone => Some (Output.mk f None (amount o))
  | _ => None
  end.

Definition load_input (fuel : nat) (h : heap) (i : Input)
  : option Input.t :=
  f ← load fuel h (input_fulfillment i);
  owners ← load_list fuel h (owners_before i);
  Some (Input.mk f owners (fulfills i)).

(** The transaction by value that a transaction of references stands
    for. *)
Definition load_transaction (fuel : nat) (h : heap) (self : Transaction)
  : option Transaction.t :=
  asset ← load fuel h (asset self);
  inputs ← mapM (load_input fuel h) (inputs self);
  outputs ← mapM (load_output fuel h) (outputs self);
  metadata ← load fuel h (metadata self);
  version ← load fuel h (version self);
  Some (Transaction.mk (operation self) asset inputs outputs metadata
          version).

(** [xs[idx]], a negative index counting from the end. *)
Definition py_index {A : Type} (xs : list A) (idx : Z) : result A :=
  let n := Z.of_nat (length xs) in
  let i := if (idx <? 0)%Z then (n + idx)%Z else idx in
  if ((0 <=? i)%Z && (i <? n)%Z)%bool then
    match xs !! Z.to_nat i with
    | Some x => Ok x
    | None => Raise IndexError
    end
  else Raise IndexError.

(** [range(n)]. *)
Definition range (n : nat) : list Z := List.map Z.of_nat (seq 0 n).

Section with_externals.
Context {X : Externals}.

(** The property [id] of a transaction of references. *)
Definition id (fuel : nat) (h : heap) (self : Transaction)
  : option (result pyvalue) :=
  tx ← load_transaction fuel h self;
  Some (Transaction.id tx).

(** [map_result] for a function that may also run out of fuel. *)
Fixpoint map_result2 {A B : Type} (f : A -> option (result B))
    (xs : list A) : option (result (list B)) :=
  match xs with
  | [] => Some (Ok [])
  | x :: xs' =>
      bind2 (f x) (fun y =>
      bind2 (map_result2 f xs') (fun ys => Some (Ok (y :: ys))))
  end.

(** [self.to_inputs(indices)].  The list returned is new; the
    fulfillment and the owner list of each input are the values the
    output holds. *)
Definition to_inputs (fuel : nat) (h : heap) (self : Transaction)
    (indices : option (list Z)) : option (result (list Input)) :=
  let indices :=
    match indices with
    | None | Some [] => range (length (outputs self))
    | Some l => l
    end in
  map_result2
    (fun idx =>
       bind2 (Some (py_index (outputs self) idx)) (fun output =>
       bind2 (id fuel h self) (fun self_id =>
       Some (Input__init__ h (fulfillment output) (public_keys output)
               (Some (TransactionLink.mk self_id (PInt idx)))))))
    indices.
End with_externals.

(** *** What section 4.6 says of [to_inputs] *)

(** [v'] is a clone of [v]: another object, which stands for the same
    tree. *)
Definition clone_of (h : heap) (v' v : value) : Prop :=
  v' <> v
  /\ exists fuel tree, load fuel h v = Some tree /\ load fuel h v' = Some tree.

(** Every input carries a clone of the fulfillment of its output. *)
Definition carries_clones (h : heap) (outputs : list Output)
    (inputs : list Input) : Prop :=
  Forall2 (fun output input_ =>
             clone_of h (input_fulfillment input_) (fulfillment output))
    outputs inputs.

(** One input per output, from position [index] on: the input holds the
    fulfillment and the public keys that the output holds, and links to
    the output. *)
Fixpoint inputs_from (self_id : pyvalue) (index : nat) (outputs : list Output)
  : list Input :=
  match outputs with
  | [] => []
  | output :: rest =>
      mkInput (fulfillment output) (public_keys output)
        (Some (TransactionLink.mk self_id (PInt (Z.of_nat index))))
      :: inputs_from self_id (S index) rest
  end.

(** [isinstance(v, list)]. *)
Definition is_list (h : heap) (v : value) : Prop :=
  exists a items, v = VRef a /\ h !! a = Some (OList items).
End Heap.

(** ** The identity of section 4.5 *)

Section identity.
Context {X : Externals}.

(** One input with its fulfillment replaced by null. *)
Definition null_fulfillment (input_ : pyvalue) : pyvalue :=
  match input_ with
  | PDict items => PDict (dict_set "fulfillment" PNone items)
  | v => v
  end.

(** [signature_stripped_body]: the map in which each input's
    fulfillment field is null. *)
Definition signature_stripped_body (tx_map : list (string * pyvalue))
  : list (string * pyvalue) :=
  match dict_get "inputs" tx_map with
  | Some (PList inputs) =>
      dict_set "inputs" (PList (List.map null_fulfillment inputs)) tx_map
  | _ => tx_map
  end.

(** [compute_id]: the hash of the canonical serialization of the
    signature-stripped body, the field [id] removed first. *)
Definition compute_id (tx_map : list (string * pyvalue)) : string :=
  hash_data
    (serialize (PDict (signature_stripped_body (dict_remove "id" tx_map)))).

(** The dictionary of an input once its fulfillment is cleared. *)
Definition stripped_input (input_ : Input.t) : pyvalue :=
  PDict [("owners_before", PList (Input.owners_before input_));
         ("fulfills",
          match Input.fulfills input_ with
          | Some link => TransactionLink.to_dict link
          | None => PNone
          end);
         ("fulfillment", PNone)].

(** The dictionary [to_dict] builds before it adds the id. *)
Definition body (self : Transaction.t) (inputs : list pyvalue)
  : list (string * pyvalue) :=
  [("inputs", PList inputs);
   ("outputs", PList (List.map Output.to_dict (Transaction.outputs self)));
   ("operation", PStr (Transaction.operation self));
   ("metadata", Transaction.metadata self);
   ("asset", Transaction.asset self);
   ("version", Transaction.version self)].

(** The value is a [cryptoconditions] object. *)
Definition is_object (v : pyvalue) : bool :=
  match v with PFulfillment _ => true | _ => false end.

(** The id of a transaction: the hash of its serialized body with the
    fulfillments cleared. *)
Definition id_of (self : Transaction.t) : string :=
  hash_data
    (serialize
       (PDict (body self
                 (List.map stripped_input (Transaction.inputs self))))).

(** Two inputs that differ at most in their fulfillment. *)
Definition same_but_fulfillment (i i' : Input.t) : Prop :=
  Input.owners_before i = Input.owners_before i'
  /\ Input.fulfills i = Input.fulfills i'.
End identity.

(** ** The signing ceremony of section 4.7 *)

Section ceremony.
Context {X : Externals}.

(** The transaction is what its constructor returns on its own fields:
    its operation is allowed, its asset and metadata have the right shape
    and its version is set. *)
Definition constructed (self : Transaction.t) : Prop :=
  Transaction.__init__ (PStr (Transaction.operation self))
    (Transaction.asset self) (Some (Transaction.inputs self))
    (Some (Transaction.outputs self)) (Transaction.metadata self)
    (Transaction.version self) = Ok self.

(** The fields of [self] with another list of inputs. *)
Definition with_inputs (self : Transaction.t) (inputs : list Input.t)
  : Transaction.t :=
  Transaction.mk (Transaction.operation self) (Transaction.asset self) inputs
    (Transaction.outputs self) (Transaction.metadata self)
    (Transaction.version self).

(** The partial transaction of one input: the operation, asset, outputs,
    metadata and version of [self], and this input alone. *)
Definition partial_transaction (self : Transaction.t) (input_ : Input.t)
  : Transaction.t :=
  with_inputs self [input_].

Definition is_str (v : pyvalue) : bool :=
  match v with PStr _ => true | _ => false end.

(** An input of the data model of section 3: an Ed25519 leaf or a
    threshold root, owned by a list of public keys that is not empty
    for a leaf. *)
Definition well_typed_input (input_ : Input.t) : bool :=
  match Input.fulfillment input_ with
  | PFulfillment (Ed25519Fulfillment _ _) =>
      forallb is_str (Input.owners_before input_)
      && negb (bool_decide (Input.owners_before input_ = []))
  | PFulfillment (ThresholdSha256Fulfillment _ _) =>
      forallb is_str (Input.owners_before input_)
  | _ => false
  end.

(** The owner has a leaf under [f] and a private key in [key_pairs]. *)
Definition owner_has_key (key_pairs : gmap string string) (f : Fulfillment)
    (owner : pyvalue) : bool :=
  match owner with
  | PStr pk =>
      match get_subcondition_from_vk f pk with
      | [] => false
      | _ :: _ => bool_decide (is_Some (key_pairs !! pk))
      end
  | _ => false
  end.

(** No key that the input requires is missing: the first owner of a leaf
    has a private key; every owner of a threshold root has a leaf and a
    private key. *)
Definition has_keys (key_pairs : gmap string string) (input_ : Input.t)
  : bool :=
  match Input.fulfillment input_, Input.owners_before input_ with
  | PFulfillment (Ed25519Fulfillment _ _), PStr owner :: _ =>
      bool_decide (is_Some (key_pairs !! owner))
  | PFulfillment (ThresholdSha256Fulfillment k subs), owners =>
      forallb (owner_has_key key_pairs (ThresholdSha256Fulfillment k subs))
        owners
  | _, _ => false
  end.

(** The tree in which every leaf of an owner is signed with the owner's
    private key. *)
Fixpoint signed_by (key_pairs : gmap string string) (owners : list pyvalue)
    (message : string) (f : Fulfillment) : Fulfillment :=
  match f with
  | Ed25519Fulfillment pk sig =>
      match key_pairs !! pk with
      | Some private_key =>
          if bool_decide (PStr pk ∈ owners)
          then Ed25519Fulfillment pk (Some (ed25519_sign private_key message))
          else f
      | None => f
      end
  | ThresholdSha256Fulfillment k subs =>
      ThresholdSha256Fulfillment k
        (List.map (signed_by key_pairs owners message) subs)
  end.

(** The signed fulfillment of an input: a leaf gets the signature of the
    private key of the first owner, a threshold root is [signed_by] its
    owners. *)
Definition signed_fulfillment (key_pairs : gmap string string)
    (message : string) (input_ : Input.t) : pyvalue :=
  match Input.fulfillment input_, Input.owners_before input_ with
  | PFulfillment (Ed25519Fulfillment pk sig), PStr owner :: _ =>
      match key_pairs !! owner with
      | Some private_key =>
          PFulfillment
            (Ed25519Fulfillment pk (Some (ed25519_sign private_key message)))
      | None => Input.fulfillment input_
      end
  | PFulfillment (ThresholdSha256Fulfillment k subs), owners =>
      PFulfillment
        (signed_by key_pairs owners message (ThresholdSha256Fulfillment k subs))
  | v, _ => v
  end.

(** The owners of the input are the keys of its fulfillment: the first
    owner of a leaf is the key of the leaf; every leaf under a threshold
    root carries the key of an owner, and every threshold is within the
    number of its subnodes. *)
Definition owners_cover (input_ : Input.t) : bool :=
  match Input.fulfillment input_, Input.owners_before input_ with
  | PFulfillment (Ed25519Fulfillment pk _), PStr owner :: owners =>
      String.eqb pk owner && forallb is_str owners
  | PFulfillment (ThresholdSha256Fulfillment k subs), owners =>
      forallb is_str owners
      && forallb (fun pk => bool_decide (PStr pk ∈ owners))
           (leaf_keys (ThresholdSha256Fulfillment k subs))
      && satisfiable (ThresholdSha256Fulfillment k subs)
  | _, _ => false
  end.

(** The referenced output that an input spends: an output whose
    condition URI is the condition URI of the input's fulfillment. *)
Definition spends (input_ : Input.t) (output : Output.t) : Prop :=
  exists f g,
    Input.fulfillment input_ = PFulfillment f
    /\ Output.fulfillment output = PFulfillment g
    /\ condition_uri g = condition_uri f.

(** The serialized, signature-stripped dictionary of the partial
    transaction of [input_]. *)
Definition message (self : Transaction.t) (input_ : Input.t) : string :=
  serialize
    (PDict
       (body (partial_transaction self input_) [stripped_input input_]
        ++ [("id", PStr (id_of (partial_transaction self input_)))])).

(** One turn of the loop over the owners of a threshold root, when it
    does not raise. *)
Definition sign_step (key_pairs : gmap string string) (tx_serialized : string)
    (f : Fulfillment) (owner : pyvalue) : Fulfillment :=
  match owner with
  | PStr vk =>
      match key_pairs !! vk with
      | Some private_key =>
          sign_subfulfillments f vk tx_serialized private_key
      | None => f
      end
  | _ => f
  end.

(** The input that [sign] puts in the place of [input_]. *)
Definition signed_copy (key_pairs : gmap string string) (message : string)
    (input_ : Input.t) : Input.t :=
  Input.mk (signed_fulfillment key_pairs message input_)
    (Input.owners_before input_) (Input.fulfills input_).
End ceremony.

(** ** Serialize and deserialize cycles of section 8 *)

Section cycles.
Context {X : Externals}.

(** The output is what its constructor returns on its own fields: its
    amount is within the bounds. *)
Definition output_constructed (output : Output.t) : Prop :=
  Output.__init__ (Output.fulfillment output)
    (Output.public_keys_value (Output.public_keys output))
    (Output.amount output) = Ok output.

(** A well-formed transaction: the transaction and its outputs are what
    their constructors return. *)
Definition well_formed (self : Transaction.t) : Prop :=
  constructed self /\ Forall output_constructed (Transaction.outputs self).

(** [n] times [from_dict(self.to_dict())]. *)
Fixpoint cycle (n : nat) (self : Transaction.t) : result Transaction.t :=
  match n with
  | O => Ok self
  | S n =>
      let* self := cycle n self in
      let* tx := Transaction.to_dict self in
      Transaction.from_dict tx
  end.
End cycles.

(** ** The owner lists of section 4.3 *)

(** The subtree an item of an owner list stands for: a leaf for a public
    key, the node itself for a pre-built condition, an N-of-N threshold
    for a sublist of N > 1 items. *)
Fixpoint node_of (item : pyvalue) : option Fulfillment :=
  match item with
  | PStr pk => Some (Ed25519Fulfillment pk None)
  | PFulfillment f => Some f
  | PList l =>
      if (1 <? length l)%nat
      then ThresholdSha256Fulfillment (length l) <$> mapM node_of l
      else None
  | _ => None
  end.

(** The item is a sublist of length at most one, or holds one. *)
Fixpoint short_sublist (item : pyvalue) : bool :=
  match item with
  | PList l => (length l <=? 1)%nat || existsb short_sublist l
  | _ => false
  end.

(** ** A small instance of the interface

    Encodings simple enough to compute with, used to run the model on
    concrete transactions. *)

Module Toy.
Local Open Scope string_scope.

Fixpoint show_fulfillment (f : Fulfillment) : string :=
  match f with
  | Ed25519Fulfillment pk sig =>
      "ed(" ++ pk ++ "," ++ default "-" sig ++ ")"
  | ThresholdSha256Fulfillment k subs =>
      "thr(" ++ py_str (Z.of_nat k) ++ ":"
      ++ String.concat "," (List.map show_fulfillment subs) ++ ")"
  end.

Fixpoint show (v : pyvalue) : string :=
  match v with
  | PNone => "null"
  | PStr s => "'" ++ s ++ "'"
  | PInt z => py_str z
  | PList items => "[" ++ String.concat "," (List.map show items) ++ "]"
  | PDict items =>
      "{" ++ String.concat ","
               (List.map (fun kv => let '(k, x) := kv in k ++ ":" ++ show x)
                  items) ++ "}"
  | PFulfillment f => show_fulfillment f
  end.

Definition gen_public_key (private_key : string) : string :=
  String "P" private_key.

Definition ed25519_sign (private_key message : string) : string :=
  "sig(" ++ private_key ++ "," ++ message ++ ")".

Definition ed25519_verify (pk message sig : string) : bool :=
  match pk with
  | String "P" private_key =>
      String.eqb sig (ed25519_sign private_key message)
  | _ => false
  end.

(** Enough signatures are present for the tree to be written out. *)
Fixpoint signed_enough (f : Fulfillment) : bool :=
  match f with
  | Ed25519Fulfillment _ sig => bool_decide (is_Some sig)
  | ThresholdSha256Fulfillment k subs =>
      (k <=? length (List.filter signed_enough subs))%nat
  end.

Fixpoint to_tree (f : Fulfillment) : gen_tree (string * option string) :=
  match f with
  | Ed25519Fulfillment pk sig => GenLeaf (pk, sig)
  | ThresholdSha256Fulfillment k subs => GenNode k (List.map to_tree subs)
  end.

Fixpoint of_tree (g : gen_tree (string * option string))
  : option Fulfillment :=
  match g with
  | GenLeaf (pk, sig) => Some (Ed25519Fulfillment pk sig)
  | GenNode k gs =>
      subs ← (fix all (gs : list (gen_tree (string * option string))) :=
                match gs with
                | [] => Some []
                | g :: gs' =>
                    f ← of_tree g; fs ← all gs'; Some (f :: fs)
                end) gs;
      Some (ThresholdSha256Fulfillment k subs)
  end.

Definition serialize_uri (f : Fulfillment) : option string :=
  if signed_enough f then Some (py_str (Z.pos (encode (to_tree f))))
  else None.

Definition from_uri (uri : string) : result Fulfillment :=
  match py_int uri with
  | Some (Z.pos p) =>
      match decode p ≫= of_tree with
      | Some f => Ok f
      | None => Raise ParsingError
      end
  | _ => Raise ValueError
  end.

Definition condition_uri (f : Fulfillment) : string :=
  "cc:" ++ show_fulfillment (unsigned f).

Definition Fulfillment_to_dict (f : Fulfillment) : pyvalue :=
  PDict [("type", PStr "fulfillment"); ("body", PFulfillment f)].

Definition Fulfillment_from_dict (d : pyvalue) : result Fulfillment :=
  match d with
  | PDict [("type", PStr _); ("body", PFulfillment f)] => Ok f
  | PDict _ => Raise KeyError
  | _ => Raise TypeError
  end.

Definition externals : Externals :=
  Build_Externals show (fun text => "sha3(" ++ text ++ ")") "0.9"
    gen_public_key ed25519_sign ed25519_verify serialize_uri from_uri
    condition_uri Fulfillment_to_dict Fulfillment_from_dict.

(** *** Sample transactions

    The private keys are ["a"] and ["b"], their public keys ["Pa"] and
    ["Pb"]. *)

Definition leaf (pk : string) : pyvalue :=
  PFulfillment (Ed25519Fulfillment pk None).

Definition input_a : Input.t := Input.mk (leaf "Pa") [PStr "Pa"] None.

Definition input_b : Input.t := Input.mk (leaf "Pb") [PStr "Pb"] None.

Definition input_ab : Input.t :=
  Input.mk
    (PFulfillment
       (ThresholdSha256Fulfillment 2
          [Ed25519Fulfillment "Pa" None; Ed25519Fulfillment "Pb" None]))
    [PStr "Pa"; PStr "Pb"] None.

Definition output_a : Output.t := Output.mk (leaf "Pa") (Some [PStr "Pa"]) 1.

Definition output_b : Output.t := Output.mk (leaf "Pb") (Some [PStr "Pb"]) 1.

(** [Transaction('CREATE', {'data': None}, [input_a], [output_a])]. *)
Definition create_tx : Transaction.t :=
  Transaction.mk "CREATE" (PDict [("data", PNone)]) [input_a] [output_a]
    PNone (PStr "0.9").

(** The same with the two-owner threshold input. *)
Definition create_ab_tx : Transaction.t :=
  Transaction.mk "CREATE" (PDict [("data", PNone)]) [input_ab] [output_a]
    PNone (PStr "0.9").

(** [Transaction('GENESIS', None, [input_a], [output_a])]. *)
Definition genesis_tx : Transaction.t :=
  Transaction.mk "GENESIS" PNone [input_a] [output_a] PNone (PStr "0.9").

Definition link (txid : string) (output : Z) : option TransactionLink.t :=
  Some (TransactionLink.mk (PStr txid) (PInt output)).

(** A transfer that spends two outputs of the transaction ["t0"] into
    one output. *)
Definition transfer_tx : Transaction.t :=
  Transaction.mk "TRANSFER" (PDict [("id", PStr "t0")])
    [Input.mk (leaf "Pa") [PStr "Pa"] (link "t0" 0);
     Input.mk (leaf "Pa") [PStr "Pa"] (link "t0" 1)]
    [output_b] PNone (PStr "0.9").

(** The dictionary of [create_tx]. *)
Definition create_tx_dict : pyvalue :=
  match Transaction.to_dict (X := externals) create_tx with
  | Ok tx => tx
  | Raise _ => PNone
  end.

(** A heap with the fulfillment and the owners of an input at the
    addresses 0 and 1, and with the fulfillment and the public keys of an
    output at the addresses 2 and 3. *)
Definition objects : list Heap.object :=
  [Heap.OFulfillment (Ed25519Fulfillment "Pa" None);
   Heap.OList [Heap.VStr "Pa"];
   Heap.OFulfillment (Ed25519Fulfillment "Pb" None);
   Heap.OList [Heap.VStr "Pb"]].

(** A [CREATE] transaction whose input and output refer to them. *)
Definition create_tx_object : Heap.Transaction :=
  Heap.mkTransaction "CREATE" Heap.VNone
    [Heap.mkInput (Heap.VRef 0) (Heap.VRef 1) None]
    [Heap.mkOutput (Heap.VRef 2) (Heap.VRef 3) 1]
    Heap.VNone (Heap.VStr "0.9").

(** The [GENESIS] transaction with an asset that holds [data]. *)
Definition genesis_data_tx : Transaction.t :=
  Transaction.mk "GENESIS" (PDict [("data", PNone)]) [input_a] [output_a]
    PNone (PStr "0.9").

(** The transfer after the first turn of the loop of [sign] with the key
    ["a"]: its first input is signed, its second input is not. *)
Definition half_signed_transfer : result Transaction.t :=
  match Transaction.inputs transfer_tx with
  | input_ :: _ =>
      let* tx_serialized :=
        Transaction.partial_message (X := externals) transfer_tx input_ in
      Transaction._sign_input (X := externals) transfer_tx input_ 0
        tx_serialized (Transaction.gen_key_pairs (X := externals) ["a"])
  | [] => Ok transfer_tx
  end.

(** A [CREATE] transaction whose input is a two-of-two threshold over
    the keys ["Pa"] and ["Pb"] and is owned by ["Pa"] alone. *)
Definition uncovered_tx : Transaction.t :=
  Transaction.mk "CREATE" (PDict [("data", PNone)])
    [Input.mk
       (PFulfillment
          (ThresholdSha256Fulfillment 2
             [Ed25519Fulfillment "Pa" None; Ed25519Fulfillment "Pb" None]))
       [PStr "Pa"] None]
    [output_a] PNone (PStr "0.9").
End Toy.

(** ** The check of one input *)

Section checked_input.
Context {X : Externals}.

(** The check of one input passes. *)
Definition input_passes (self : Transaction.t) (input_ : Input.t)
    (output_condition_uri : pyvalue) : Prop :=
  exists tx_serialized,
    Transaction.partial_message self input_ = Ok tx_serialized
    /\ Transaction._input_valid input_ (Transaction.operation self)
         tx_serialized output_condition_uri = Ok true.
End checked_input.

(** ** What signing leaves alone *)

(** The fields that signing leaves alone. *)
Definition same_frame (self other : Transaction.t) : Prop :=
  Transaction.operation other = Transaction.operation self
  /\ Transaction.asset other = Transaction.asset self
  /\ Transaction.outputs other = Transaction.outputs self
  /\ Transaction.metadata other = Transaction.metadata self
  /\ Transaction.version other = Transaction.version self.

(** ** The class methods [Transaction.create] and [Transaction.transfer] *)

(** An element of the list [recipients]: a tuple of two items, the public
    keys and an [int] amount, or any other value. *)
Inductive recipient : Type :=
| Pair (pub_keys : pyvalue) (amount : Z)
| Other (value : pyvalue).

Module Classmethods.
Section with_externals.
Context {X : Externals}.

(** One turn of the loop over [recipients]. *)
Definition generate_output (recipient_ : recipient) : result Output.t :=
  match recipient_ with
  | Pair pub_keys amount => Output.generate pub_keys amount
  | Other _ => Raise ValueError
  end.

(** [Transaction.create(tx_signers, recipients, metadata, asset)];
    [recipients] is a list, or [None] for any other value. *)
Definition create (tx_signers : pyvalue)
    (recipients : option (list recipient)) (metadata asset : pyvalue)
  : result Transaction.t :=
  match tx_signers, recipients with
  | PList signers, Some recipients =>
      if bool_decide (length signers = 0%nat) then Raise ValueError
      else if bool_decide (length recipients = 0%nat) then Raise ValueError
      else if negb (Transaction.is_None asset || Transaction.is_dict asset)
      then Raise TypeError
      else
        let* outputs := map_result generate_output recipients in
        let* input_ := Input.generate tx_signers in
        Transaction.__init__ (PStr Transaction.CREATE)
          (PDict [("data", asset)]) (Some [input_]) (Some outputs)
          metadata PNone
  | _, _ => Raise TypeError
  end.

(** [Transaction.transfer(inputs, recipients, asset_id, metadata)];
    [inputs] and [recipients] are lists, or [None] for any other value.
    The copy of [inputs] holds the same values. *)
Definition transfer (inputs : option (list Input.t))
    (recipients : option (list recipient)) (asset_id metadata : pyvalue)
  : result Transaction.t :=
  match inputs with
  | None => Raise TypeError
  | Some inputs =>
      if bool_decide (length inputs = 0%nat) then Raise ValueError
      else
        match recipients with
        | None => Raise TypeError
        | Some recipients =>
            if bool_decide (length recipients = 0%nat) then Raise ValueError
            else
              let* outputs := map_result generate_output recipients in
              match asset_id with
              | PStr _ =>
                  Transaction.__init__ (PStr Transaction.TRANSFER)
                    (PDict [("id", asset_id)]) (Some inputs) (Some outputs)
                    metadata PNone
              | _ => Raise TypeError
              end
        end
  end.
End with_externals.
End Classmethods.

(** The fulfillment that [Output.generate] builds for owners that are
    public keys: a leaf for one key, a threshold root over one leaf per
    key, all of them required, for more. *)
Definition owners_fulfillment (public_keys : list string) : Fulfillment :=
  match public_keys with
  | [public_key] => Ed25519Fulfillment public_key None
  | _ =>
      ThresholdSha256Fulfillment (length public_keys)
        (List.map (fun public_key => Ed25519Fulfillment public_key None)
           public_keys)
  end.

(** * Properties *)

(** ** Induction on nested values *)

Lemma Fulfillment_ind' (P : Fulfillment -> Prop) :
  (forall pk sig, P (Ed25519Fulfillment pk sig)) ->
  (forall k subs, Forall P subs -> P (ThresholdSha256Fulfillment k subs)) ->
  forall f, P f.
Proof.
  intros Hleaf Hnode. fix IH 1. intros [pk sig|k subs].
  - apply Hleaf.
  - apply Hnode. induction subs as [|s subs IHsubs]; constructor.
    + apply IH.
    + exact IHsubs.
Qed.

Lemma pyvalue_ind' (P : pyvalue -> Prop) :
  P PNone ->
  (forall s, P (PStr s)) ->
  (forall z, P (PInt z)) ->
  (forall items, Forall P items -> P (PList items)) ->
  (forall items, Forall (fun kv => P (snd kv)) items -> P (PDict items)) ->
  (forall f, P (PFulfillment f)) ->
  forall v, P v.
Proof.
  intros HN HS HI HL HD HF. fix IH 1.
  intros [|s|z|items|items|f]; [apply HN|apply HS|apply HI| | |apply HF].
  - apply HL. induction items as [|x items IHitems]; constructor.
    + apply IH.
    + exact IHitems.
  - apply HD. induction items as [|[k x] items IHitems]; constructor.
    + apply IH.
    + exact IHitems.
Qed.

(** ** The error monad *)

Lemma bind_Ok {A B : Type} (r : result A) (k : A -> result B) (b : B) :
  bind r k = Ok b -> exists a, r = Ok a /\ k a = Ok b.
Proof. destruct r as [a|e]; simpl; [eauto|discriminate]. Qed.

Lemma map_result_Ok_length {A B : Type} (f : A -> result B) xs ys :
  map_result f xs = Ok ys -> length ys = length xs.
Proof.
  revert ys. induction xs as [|x xs IH]; simpl; intros ys H.
  - injection H as <-. reflexivity.
  - destruct (f x) as [y|e]; simpl in H; [|discriminate].
    destruct (map_result f xs) as [ys'|e]; simpl in H; [|discriminate].
    injection H as <-. simpl. f_equal. apply IH. reflexivity.
Qed.

Lemma map_result_all_Ok {A B : Type} (f : A -> result B) (g : A -> B) xs :
  Forall (fun x => f x = Ok (g x)) xs ->
  map_result f xs = Ok (List.map g xs).
Proof.
  induction 1 as [|x xs Hx _ IH]; simpl.
  - reflexivity.
  - rewrite Hx, IH. reflexivity.
Qed.

Lemma map_result_ext {A B : Type} (f g : A -> result B) xs :
  Forall (fun x => f x = g x) xs -> map_result f xs = map_result g xs.
Proof.
  induction 1 as [|x xs Hx _ IH]; simpl.
  - reflexivity.
  - rewrite Hx, IH. reflexivity.
Qed.

Lemma forallb_pointwise {A : Type} (f g : A -> bool) l :
  (forall x, f x = g x) -> forallb f l = forallb g l.
Proof.
  intros H. induction l as [|x l IH]; simpl; [reflexivity|].
  rewrite H, IH. reflexivity.
Qed.

(** ** Dictionaries *)

Lemma dict_get_set_eq {V : Type} k (v : V) items :
  dict_get k (dict_set k v items) = Some v.
Proof.
  induction items as [|[k' v'] items IH]; simpl.
  - rewrite String.eqb_refl. reflexivity.
  - destruct (String.eqb k k') eqn:E; simpl.
    + rewrite String.eqb_refl. reflexivity.
    + rewrite E. exact IH.
Qed.

Lemma dict_get_set_ne {V : Type} k k' (v : V) items :
  k <> k' -> dict_get k' (dict_set k v items) = dict_get k' items.
Proof.
  intros Hne. induction items as [|[k0 v0] items IH]; simpl.
  - destruct (String.eqb k' k) eqn:E; [|reflexivity].
    apply String.eqb_eq in E. congruence.
  - destruct (String.eqb k k0) eqn:E; simpl.
    + apply String.eqb_eq in E. subst k0.
      destruct (String.eqb k' k) eqn:E'; [|reflexivity].
      apply String.eqb_eq in E'. congruence.
    + rewrite IH. reflexivity.
Qed.

Lemma dict_remove_set_fresh {V : Type} k (v : V) items :
  dict_get k items = None -> dict_remove k (dict_set k v items) = items.
Proof.
  induction items as [|[k' v'] items IH]; simpl; intros H.
  - rewrite String.eqb_refl. reflexivity.
  - destruct (String.eqb k k') eqn:E; [discriminate|].
    simpl. rewrite E, IH by assumption. reflexivity.
Qed.

(** ** Decimal strings *)

Lemma digits_of_string_of_uint d :
  digits_of true (NilEmpty.string_of_uint d) = Some (NilEmpty.string_of_uint d).
Proof. induction d; simpl; try rewrite IHd; reflexivity. Qed.

Lemma digits_of_string_of_uint_nonnil d :
  d <> Decimal.Nil ->
  digits_of false (NilEmpty.string_of_uint d)
  = Some (NilEmpty.string_of_uint d).
Proof.
  destruct d; intros Hd; try congruence;
    simpl; rewrite digits_of_string_of_uint; reflexivity.
Qed.

Lemma rstrip_string_of_uint d :
  rstrip (NilEmpty.string_of_uint d) = NilEmpty.string_of_uint d.
Proof.
  induction d; simpl; try reflexivity; rewrite IHd; destruct d; reflexivity.
Qed.

Lemma lstrip_string_of_uint d :
  lstrip (NilEmpty.string_of_uint d) = NilEmpty.string_of_uint d.
Proof. destruct d; reflexivity. Qed.

Lemma nat_literal_string_of_uint d :
  d <> Decimal.Nil ->
  nat_literal (NilEmpty.string_of_uint d) = Some (Z.of_uint d).
Proof.
  intros Hd. unfold nat_literal.
  rewrite digits_of_string_of_uint_nonnil by assumption.
  rewrite NilEmpty.usu. reflexivity.
Qed.

Lemma py_int_string_of_uint d :
  d <> Decimal.Nil ->
  py_int (NilEmpty.string_of_uint d) = Some (Z.of_uint d).
Proof.
  intros Hd. unfold py_int.
  rewrite lstrip_string_of_uint, rstrip_string_of_uint.
  rewrite <- nat_literal_string_of_uint by assumption.
  destruct d; try congruence; reflexivity.
Qed.

(** [int(str(z)) == z]. *)
Lemma py_int_py_str z : py_int (py_str z) = Some z.
Proof.
  unfold py_str. destruct z as [|p|p]; simpl.
  - reflexivity.
  - pose proof (DecimalPos.Unsigned.to_uint_nonnil p) as Hp.
    unfold NilZero.string_of_uint.
    destruct (Pos.to_uint p) eqn:E; try congruence;
      rewrite <- E; rewrite py_int_string_of_uint by (rewrite E; congruence);
      unfold Z.of_uint; rewrite DecimalPos.Unsigned.of_to; reflexivity.
  - pose proof (DecimalPos.Unsigned.to_uint_nonnil p) as Hp.
    assert (Hs : NilZero.string_of_uint (Pos.to_uint p)
                 = NilEmpty.string_of_uint (Pos.to_uint p)).
    { unfold NilZero.string_of_uint. destruct (Pos.to_uint p); congruence. }
    rewrite Hs. unfold py_int.
    cbn [lstrip]. change (is_space "-") with false. cbn iota.
    cbn [rstrip]. rewrite rstrip_string_of_uint.
    assert (Hne : NilEmpty.string_of_uint (Pos.to_uint p) <> EmptyString).
    { destruct (Pos.to_uint p); simpl; congruence. }
    destruct (NilEmpty.string_of_uint (Pos.to_uint p)) eqn:E; [congruence|].
    rewrite <- E. rewrite nat_literal_string_of_uint by assumption.
    unfold Z.of_uint. rewrite DecimalPos.Unsigned.of_to. reflexivity.
Qed.

(** ** Outputs: amounts *)

Section output_facts.
Context {X : Externals}.

Lemma Output_init_checked fulfillment pks amount :
  Output.__init__ fulfillment (Output.public_keys_value pks) amount
  = if bool_decide (1 <= amount <= Output.MAX_AMOUNT)
    then Ok (Output.mk fulfillment pks amount)
    else Raise AmountError.
Proof.
  unfold Output.__init__.
  assert (Hpk : match Output.public_keys_value pks with
                | PList l => Ok (Some l)
                | PNone => Ok None
                | _ => Raise TypeError
                end = Ok pks) by (destruct pks; reflexivity).
  rewrite Hpk. simpl.
  destruct (Z.ltb_spec amount 1); destruct (Z.ltb_spec Output.MAX_AMOUNT amount);
    case_bool_decide; try reflexivity; lia.
Qed.

Lemma Output_from_dict_amount data fulfillment s pks :
  Output.condition_from_dict data = Ok fulfillment ->
  subscript data "amount" = Ok (PStr s) ->
  subscript data "public_keys" = Ok (Output.public_keys_value pks) ->
  Output.from_dict data
  = match py_int s with
    | Some amount =>
        if bool_decide (1 <= amount <= Output.MAX_AMOUNT)
        then Ok (Output.mk fulfillment pks amount)
        else Raise AmountError
    | None => Raise AmountError
    end.
Proof.
  intros Hc Ha Hp. unfold Output.from_dict.
  rewrite Hc; simpl. rewrite Ha; simpl.
  destruct (py_int s) as [amount|]; simpl; [|reflexivity].
  rewrite Hp; simpl. apply Output_init_checked.
Qed.

End output_facts.


(** ** Outputs: the condition tree of an owner list *)

Lemma node_of_PList l :
  node_of (PList l)
  = if (1 <? length l)%nat
    then ThresholdSha256Fulfillment (length l) <$> mapM node_of l
    else None.
Proof. reflexivity. Qed.

Lemma reduce_nodes l :
  Forall (fun item => forall n k subs,
              node_of item = Some n ->
              Output._gen_condition (ThresholdSha256Fulfillment k subs) item
              = Ok (ThresholdSha256Fulfillment k (subs ++ [n]))) l ->
  forall nodes k subs,
    mapM node_of l = Some nodes ->
    Output.reduce Output._gen_condition l (ThresholdSha256Fulfillment k subs)
    = Ok (ThresholdSha256Fulfillment k (subs ++ nodes)).
Proof.
  induction 1 as [|item l Hitem _ IH]; intros nodes k subs Hnodes.
  - injection Hnodes as <-. simpl. rewrite app_nil_r. reflexivity.
  - simpl in Hnodes.
    destruct (node_of item) as [n|] eqn:En; [|discriminate].
    destruct (mapM node_of l) as [ns|] eqn:Ens; [|discriminate].
    injection Hnodes as <-. simpl.
    rewrite (Hitem n k subs eq_refl). simpl.
    rewrite (IH ns k (subs ++ [n]) eq_refl).
    rewrite <- app_assoc. reflexivity.
Qed.

Lemma gen_condition_node item :
  forall n k subs,
    node_of item = Some n ->
    Output._gen_condition (ThresholdSha256Fulfillment k subs) item
    = Ok (ThresholdSha256Fulfillment k (subs ++ [n])).
Proof.
  induction item as [|s|z|l IH|items _|f] using pyvalue_ind';
    intros n k subs Hn; try discriminate.
  - injection Hn as <-. reflexivity.
  - rewrite node_of_PList in Hn. simpl.
    destruct (1 <? length l)%nat; [|discriminate].
    destruct (mapM node_of l) as [ns|] eqn:Ens; [|discriminate].
    injection Hn as <-.
    rewrite (reduce_nodes l IH ns (length l) [] Ens). reflexivity.
  - injection Hn as <-. reflexivity.
Qed.

Lemma reduce_short l :
  Forall (fun item => short_sublist item = true ->
                      forall initial, exists e,
                        Output._gen_condition initial item = Raise e) l ->
  existsb short_sublist l = true ->
  forall initial, exists e,
    Output.reduce Output._gen_condition l initial = Raise e.
Proof.
  induction 1 as [|item l Hitem _ IH]; simpl; intros Hex initial.
  - discriminate.
  - destruct (Output._gen_condition initial item) as [acc|e] eqn:E; simpl.
    + destruct (short_sublist item) eqn:Es.
      * destruct (Hitem eq_refl initial) as [e He]. congruence.
      * apply IH. exact Hex.
    + eauto.
Qed.

Lemma gen_condition_short item :
  short_sublist item = true ->
  forall initial, exists e, Output._gen_condition initial item = Raise e.
Proof.
  induction item as [|s|z|l IH|items _|f] using pyvalue_ind';
    intros Hs initial; try discriminate.
  simpl in Hs. simpl.
  destruct (Nat.ltb_spec 1 (length l)) as [Hlen|Hlen]; [|eauto].
  destruct (Nat.leb_spec (length l) 1) as [Hle|_]; [lia|].
  simpl in Hs.
  destruct (reduce_short l IH Hs
              (ThresholdSha256Fulfillment (length l) [])) as [e He].
  rewrite He. simpl. eauto.
Qed.

Lemma generate_threshold l amount :
  1 <= amount ->
  (1 < length l)%nat \/ (exists l', l = [PList l']) ->
  Output.generate (PList l) amount
  = bind (Output.reduce Output._gen_condition l
            (ThresholdSha256Fulfillment (length l) []))
      (fun threshold_cond =>
         Output.__init__ (PFulfillment threshold_cond) (PList l) amount).
Proof.
  intros Ham Hshape. unfold Output.generate.
  destruct (Z.ltb_spec amount 1) as [|_]; [lia|].
  destruct Hshape as [Hlen|[l' ->]]; [|reflexivity].
  destruct l as [|x [|y l0]]; simpl in Hlen; try lia.
  destruct x; reflexivity.
Qed.

Lemma generate_nodes l nodes amount :
  1 <= amount <= Output.MAX_AMOUNT ->
  (1 < length l)%nat \/ (exists l', l = [PList l']) ->
  mapM node_of l = Some nodes ->
  Output.generate (PList l) amount
  = Ok (Output.mk
          (PFulfillment (ThresholdSha256Fulfillment (length l) nodes))
          (Some l) amount).
Proof.
  intros Ham Hshape Hnodes.
  rewrite generate_threshold by (assumption || lia).
  assert (Hred : Output.reduce Output._gen_condition l
                   (ThresholdSha256Fulfillment (length l) [])
                 = Ok (ThresholdSha256Fulfillment (length l) nodes)).
  { apply (reduce_nodes l) with (k := length l) (subs := []) in Hnodes;
      [exact Hnodes|].
    apply Forall_forall. intros item _. apply gen_condition_node. }
  assert (Hinit : forall f,
             Output.__init__ f (PList l) amount
             = Ok (Output.mk f (Some l) amount)).
  { intros f. unfold Output.__init__. simpl.
    destruct (Z.ltb_spec amount 1) as [|_]; [lia|].
    destruct (Z.ltb_spec Output.MAX_AMOUNT amount) as [|_]; [lia|].
    reflexivity. }
  rewrite Hred. simpl. apply Hinit.
Qed.

Lemma mapM_node_of_keys pks :
  mapM node_of (List.map PStr pks)
  = Some (List.map (fun pk => Ed25519Fulfillment pk None) pks).
Proof.
  induction pks as [|pk pks IH]; simpl.
  - reflexivity.
  - rewrite IH. reflexivity.
Qed.

(** C8.  [Output.generate] on an owner list and an amount within bounds:
    a flat list of N > 1 public keys gives an N-of-N threshold with one
    Ed25519 leaf per key; a list of one item that is not a sublist gives
    the bare leaf of the key (or the pre-built node itself), without a
    threshold around it; a sublist of length at most one, at any depth,
    makes the call raise; and every sublist of more than one item
    becomes its own N-of-N threshold, one subnode of its parent. *)
Theorem generate_condition_tree :
  (forall pks amount,
      1 <= amount <= 9 * 10 ^ 18 -> (1 < length pks)%nat ->
      Output.generate (PList (List.map PStr pks)) amount
      = Ok (Output.mk
              (PFulfillment
                 (ThresholdSha256Fulfillment (length pks)
                    (List.map (fun pk => Ed25519Fulfillment pk None) pks)))
              (Some (List.map PStr pks)) amount))
  /\ (forall pk amount,
         1 <= amount <= 9 * 10 ^ 18 ->
         Output.generate (PList [PStr pk]) amount
         = Ok (Output.mk (PFulfillment (Ed25519Fulfillment pk None))
                 (Some [PStr pk]) amount))
  /\ (forall f amount,
         1 <= amount <= 9 * 10 ^ 18 ->
         Output.generate (PList [PFulfillment f]) amount
         = Ok (Output.mk (PFulfillment f) (Some [PFulfillment f]) amount))
  /\ (forall l amount,
         existsb short_sublist l = true ->
         exists e, Output.generate (PList l) amount = Raise e)
  /\ (forall l nodes amount,
         1 <= amount <= 9 * 10 ^ 18 ->
         (1 < length l)%nat \/ (exists l', l = [PList l']) ->
         mapM node_of l = Some nodes ->
         Output.generate (PList l) amount
         = Ok (Output.mk
                 (PFulfillment (ThresholdSha256Fulfillment (length l) nodes))
                 (Some l) amount)).
Proof.
  assert (Hone : forall item f amount,
             1 <= amount <= 9 * 10 ^ 18 ->
             item = PStr f /\ True \/ (exists g, item = PFulfillment g) ->
             Output.generate (PList [item]) amount
             = Ok (Output.mk
                     match item with
                     | PStr pk => PFulfillment (Ed25519Fulfillment pk None)
                     | _ => item
                     end (Some [item]) amount)).
  { intros item node amount Ham Hitem.
    assert (Hinit : forall f,
               Output.__init__ f (PList [item]) amount
               = Ok (Output.mk f (Some [item]) amount)).
    { intros f. unfold Output.__init__. simpl.
      destruct (Z.ltb_spec amount 1) as [|_]; [lia|].
      destruct (Z.ltb_spec Output.MAX_AMOUNT amount) as [|_];
        [unfold Output.MAX_AMOUNT in *; lia|].
      reflexivity. }
    unfold Output.generate.
    destruct (Z.ltb_spec amount 1) as [|_]; [lia|].
    destruct Hitem as [[-> _]|[f ->]]; simpl; apply Hinit. }
  split; [|split; [|split; [|split]]].
  - intros pks amount Ham Hlen.
    rewrite (generate_nodes (List.map PStr pks)
               (List.map (fun pk => Ed25519Fulfillment pk None) pks) amount).
    + rewrite length_map. reflexivity.
    + exact Ham.
    + left. rewrite length_map. exact Hlen.
    + apply mapM_node_of_keys.
  - intros pk amount Ham. apply (Hone (PStr pk) pk amount Ham). auto.
  - intros f amount Ham. apply (Hone (PFulfillment f) EmptyString amount Ham).
    eauto.
  - intros l amount Hex.
    destruct (Z.ltb_spec amount 1) as [Hlt|Hge].
    { unfold Output.generate.
      destruct (Z.ltb_spec amount 1) as [_|]; [eauto|lia]. }
    assert (Hall : Forall (fun item => short_sublist item = true ->
                       forall initial, exists e,
                         Output._gen_condition initial item = Raise e) l).
    { apply Forall_forall. intros item _. apply gen_condition_short. }
    destruct (reduce_short l Hall Hex
                (ThresholdSha256Fulfillment (length l) [])) as [e He].
    rewrite generate_threshold; [rewrite He; simpl; eauto|lia|].
    destruct l as [|x [|y l0]].
    + discriminate.
    + destruct x; try discriminate Hex. eauto.
    + left. simpl. lia.
  - intros l nodes amount Ham. apply generate_nodes. exact Ham.
Qed.

(** The owner list [[A; [B; C]]] with amount 1. *)
Lemma generate_condition_tree_witness :
  Output.generate (PList [PStr "A"; PList [PStr "B"; PStr "C"]]) 1
  = Ok (Output.mk
          (PFulfillment
             (ThresholdSha256Fulfillment 2
                [Ed25519Fulfillment "A" None;
                 ThresholdSha256Fulfillment 2
                   [Ed25519Fulfillment "B" None;
                    Ed25519Fulfillment "C" None]]))
          (Some [PStr "A"; PList [PStr "B"; PStr "C"]]) 1)
  /\ Output.generate (PList [PStr "A"; PStr "B"]) 1
     = Ok (Output.mk
             (PFulfillment
                (ThresholdSha256Fulfillment 2
                   [Ed25519Fulfillment "A" None; Ed25519Fulfillment "B" None]))
             (Some [PStr "A"; PStr "B"]) 1)
  /\ Output.generate (PList [PStr "A"]) 1
     = Ok (Output.mk (PFulfillment (Ed25519Fulfillment "A" None))
             (Some [PStr "A"]) 1)
  /\ Output.generate (PList [PFulfillment (Ed25519Fulfillment "A" None)]) 1
     = Ok (Output.mk (PFulfillment (Ed25519Fulfillment "A" None))
             (Some [PFulfillment (Ed25519Fulfillment "A" None)]) 1)
  /\ exists e, Output.generate (PList [PStr "A"; PList [PStr "B"]]) 1 = Raise e.
Proof.
  destruct generate_condition_tree as (Hflat & Hone & Hnode & Hshort & Hrec).
  split; [|split; [|split; [|split]]].
  - apply (Hrec [PStr "A"; PList [PStr "B"; PStr "C"]]).
    + unfold Z.le; simpl; split; discriminate.
    + left. simpl. lia.
    + reflexivity.
  - apply (Hflat ["A"; "B"]%string).
    + unfold Z.le; simpl; split; discriminate.
    + simpl. lia.
  - apply (Hone "A"%string). unfold Z.le; simpl; split; discriminate.
  - apply Hnode. unfold Z.le; simpl; split; discriminate.
  - apply (Hshort [PStr "A"; PList [PStr "B"]]). reflexivity.
Defined.

(** ** The transaction id *)

Section transaction_id.
Context {X : Externals}.

Lemma Input_to_dict_Ok input_ d :
  Input.to_dict input_ = Ok d ->
  is_object (Input.fulfillment input_) = true
  /\ null_fulfillment d = stripped_input input_
  /\ Transaction.clear_fulfillment d = Ok (stripped_input input_).
Proof.
  unfold Input.to_dict. destruct (Input.fulfillment input_); try discriminate.
  destruct (serialize_uri f); simpl; intros [= <-]; auto.
Qed.

Lemma Input_to_dict_object input_ :
  is_object (Input.fulfillment input_) = true ->
  exists d, Input.to_dict input_ = Ok d.
Proof.
  unfold Input.to_dict. destruct (Input.fulfillment input_); try discriminate.
  destruct (serialize_uri f); simpl; eauto.
Qed.

Lemma inputs_to_dict_Ok inputs ds :
  map_result Input.to_dict inputs = Ok ds ->
  forallb (fun i => is_object (Input.fulfillment i)) inputs = true
  /\ List.map null_fulfillment ds = List.map stripped_input inputs
  /\ map_result Transaction.clear_fulfillment ds
     = Ok (List.map stripped_input inputs).
Proof.
  revert ds. induction inputs as [|i inputs IH]; simpl; intros ds H.
  - injection H as <-. auto.
  - destruct (Input.to_dict i) as [d|] eqn:Ed; [|discriminate]. simpl in H.
    destruct (map_result Input.to_dict inputs) as [ds'|]; [|discriminate].
    injection H as <-.
    destruct (Input_to_dict_Ok i d Ed) as (Ho & Hn & Hc).
    destruct (IH ds' eq_refl) as (Hos & Hns & Hcs).
    rewrite Ho, Hos. simpl. rewrite Hn, Hns, Hc, Hcs. auto.
Qed.

Lemma inputs_to_dict_objects inputs :
  forallb (fun i => is_object (Input.fulfillment i)) inputs = true ->
  exists ds, map_result Input.to_dict inputs = Ok ds.
Proof.
  induction inputs as [|i inputs IH]; simpl; intros H.
  - eauto.
  - apply andb_true_iff in H as [Hi His].
    destruct (Input_to_dict_object i Hi) as [d ->].
    destruct (IH His) as [ds ->]. simpl. eauto.
Qed.

Lemma remove_signatures_body self ds :
  map_result Input.to_dict (Transaction.inputs self) = Ok ds ->
  Transaction._remove_signatures (PDict (body self ds))
  = Ok (PDict (body self
                 (List.map stripped_input (Transaction.inputs self)))).
Proof.
  intros H. destruct (inputs_to_dict_Ok _ _ H) as (_ & _ & Hc).
  unfold Transaction._remove_signatures. simpl. rewrite Hc. reflexivity.
Qed.

Lemma to_dict_Ok self d :
  Transaction.to_dict self = Ok d <->
  exists ds,
    map_result Input.to_dict (Transaction.inputs self) = Ok ds
    /\ d = PDict (body self ds ++ [("id", PStr (id_of self))]).
Proof.
  unfold Transaction.to_dict. split.
  - intros H.
    destruct (map_result Input.to_dict (Transaction.inputs self))
      as [ds|] eqn:Eds; [|discriminate].
    simpl in H. fold (body self ds) in H.
    rewrite (remove_signatures_body self ds Eds) in H. simpl in H.
    injection H as <-. exists ds. split; reflexivity.
  - intros (ds & Eds & ->). rewrite Eds. simpl. fold (body self ds).
    rewrite (remove_signatures_body self ds Eds). reflexivity.
Qed.

Lemma compute_id_body self ds :
  map_result Input.to_dict (Transaction.inputs self) = Ok ds ->
  compute_id (body self ds ++ [("id", PStr (id_of self))]) = id_of self.
Proof.
  intros H. destruct (inputs_to_dict_Ok _ _ H) as (_ & Hn & _).
  unfold compute_id, signature_stripped_body. simpl. rewrite Hn.
  reflexivity.
Qed.

Lemma validate_id_to_dict self d :
  Transaction.to_dict self = Ok d -> Transaction.validate_id d = Ok tt.
Proof.
  intros H. apply to_dict_Ok in H as (ds & Eds & ->).
  unfold Transaction.validate_id. simpl. fold (body self ds).
  rewrite (remove_signatures_body self ds Eds). simpl.
  unfold Transaction._to_hash, Transaction._to_str. fold (id_of self).
  case_bool_decide; congruence.
Qed.

Lemma id_Ok self d :
  Transaction.to_dict self = Ok d ->
  Transaction.id self = Ok (PStr (id_of self)).
Proof.
  intros H. unfold Transaction.id, Transaction.to_hash. rewrite H. simpl.
  apply to_dict_Ok in H as (ds & _ & ->). reflexivity.
Qed.

Lemma stripped_inputs_eq inputs inputs' :
  Forall2 same_but_fulfillment inputs inputs' ->
  List.map stripped_input inputs = List.map stripped_input inputs'.
Proof.
  induction 1 as [|i i' inputs inputs' [Ho Hf] _ IH]; simpl.
  - reflexivity.
  - unfold stripped_input at 1 3. rewrite Ho, Hf, IH. reflexivity.
Qed.

End transaction_id.


(** ** Signing *)

Section signing.
Context {X : Externals}.

(** *** The key pairs *)

Lemma foldl_key_pairs private_keys (m : gmap string string) pk :
  foldl (fun m private_key => <[gen_public_key private_key := private_key]> m)
    m private_keys !! pk
  = match list_find (fun sk => gen_public_key sk = pk) (reverse private_keys)
    with
    | Some (_, sk) => Some sk
    | None => m !! pk
    end.
Proof.
  revert m. induction private_keys as [|sk sks IH]; intros m; simpl.
  - reflexivity.
  - rewrite IH, reverse_cons.
    destruct (list_find _ (reverse sks)) as [[i sk']|] eqn:E.
    + erewrite list_find_app_l by exact E. reflexivity.
    + rewrite list_find_app_r by exact E. simpl.
      destruct (decide (gen_public_key sk = pk)) as [<-|Hne]; simpl.
      * apply lookup_insert_eq.
      * apply lookup_insert_ne. exact Hne.
Qed.

Lemma gen_key_pairs_Some private_keys pk sk :
  Transaction.gen_key_pairs private_keys !! pk = Some sk ->
  sk ∈ private_keys /\ gen_public_key sk = pk.
Proof.
  unfold Transaction.gen_key_pairs. rewrite foldl_key_pairs.
  destruct (list_find _ _) as [[i sk']|] eqn:E.
  - intros [= ->]. apply list_find_Some in E as (Hi & Hpk & _).
    split; [|exact Hpk].
    apply elem_of_reverse. eapply list_elem_of_lookup_2. exact Hi.
  - rewrite lookup_empty. discriminate.
Qed.

Lemma gen_key_pairs_None private_keys pk :
  Transaction.gen_key_pairs private_keys !! pk = None <->
  forall sk, sk ∈ private_keys -> gen_public_key sk <> pk.
Proof.
  unfold Transaction.gen_key_pairs. rewrite foldl_key_pairs.
  destruct (list_find _ _) as [[i sk']|] eqn:E.
  - apply list_find_Some in E as (Hi & Hpk & _). split; [discriminate|].
    intros H. exfalso. apply (H sk'); [|exact Hpk].
    apply elem_of_reverse. eapply list_elem_of_lookup_2. exact Hi.
  - split; [|intros _; apply lookup_empty].
    intros _ sk Hsk. apply list_find_None in E.
    rewrite Forall_forall in E. apply E. apply elem_of_reverse. exact Hsk.
Qed.

(** *** The message of an input *)

Lemma init_with_inputs self inputs :
  constructed self ->
  Transaction.__init__ (PStr (Transaction.operation self))
    (Transaction.asset self) (Some inputs) (Some (Transaction.outputs self))
    (Transaction.metadata self) (Transaction.version self)
  = Ok (with_inputs self inputs).
Proof.
  unfold constructed, Transaction.__init__, with_inputs. intros H.
  destruct (bool_decide (Transaction.operation self
                         ∈ Transaction.ALLOWED_OPERATIONS));
    [|discriminate].
  destruct (_ && _ && _); [discriminate|].
  destruct (_ && _); [discriminate|].
  destruct (_ && _); [discriminate|].
  injection H as H. simpl.
  apply (f_equal Transaction.version) in H. simpl in H. rewrite H.
  reflexivity.
Qed.

Lemma message_spec self input_ :
  is_object (Input.fulfillment input_) = true ->
  exists items,
    Transaction.to_dict (partial_transaction self input_) = Ok (PDict items)
    /\ message self input_ = serialize (PDict (signature_stripped_body items))
    /\ Transaction._remove_signatures (PDict items)
       = Ok (PDict (signature_stripped_body items)).
Proof.
  intros Hobj. destruct (Input_to_dict_object input_ Hobj) as [d Hd].
  destruct (Input_to_dict_Ok input_ d Hd) as (_ & Hn & Hc).
  exists (body (partial_transaction self input_) [d]
          ++ [("id", PStr (id_of (partial_transaction self input_)))]).
  split; [|split].
  - apply to_dict_Ok. exists [d]. split; [|reflexivity].
    simpl. rewrite Hd. reflexivity.
  - unfold message, signature_stripped_body. simpl. rewrite Hn. reflexivity.
  - unfold Transaction._remove_signatures, signature_stripped_body. simpl.
    rewrite Hc, Hn. reflexivity.
Qed.

Lemma partial_message_Ok self input_ :
  constructed self ->
  is_object (Input.fulfillment input_) = true ->
  Transaction.partial_message self input_ = Ok (message self input_).
Proof.
  intros Hself Hobj. unfold Transaction.partial_message.
  rewrite (init_with_inputs self [input_] Hself). simpl.
  destruct (message_spec self input_ Hobj) as (items & Hd & Hm & Hr).
  fold (partial_transaction self input_). rewrite Hd. simpl.
  rewrite Hr. simpl. rewrite Hm. reflexivity.
Qed.
End signing.

Section signing_inputs.
Context {X : Externals}.
Variable key_pairs : gmap string string.
Variable tx_serialized : string.

Local Abbreviation sign_step := (sign_step key_pairs tx_serialized).

(** *** Signing the leaves of the owners of a threshold root *)

Lemma length_get_subcondition_sign f vk' private_key vk :
  length (get_subcondition_from_vk
            (sign_subfulfillments f vk' tx_serialized private_key) vk)
  = length (get_subcondition_from_vk f vk).
Proof.
  induction f as [pk sig|k subs IH] using Fulfillment_ind'; simpl.
  - destruct (String.eqb pk vk') eqn:E1; simpl;
      destruct (String.eqb pk vk); reflexivity.
  - induction IH as [|s subs Hs _ IHsubs]; simpl.
    + reflexivity.
    + rewrite !length_app, Hs, IHsubs. reflexivity.
Qed.

Lemma owner_has_key_sign f vk' private_key owner :
  owner_has_key key_pairs
    (sign_subfulfillments f vk' tx_serialized private_key) owner
  = owner_has_key key_pairs f owner.
Proof.
  destruct owner as [|vk| | | |]; try reflexivity. unfold owner_has_key.
  pose proof (length_get_subcondition_sign f vk' private_key vk) as Hlen.
  destruct (get_subcondition_from_vk (sign_subfulfillments _ _ _ _) vk);
    destruct (get_subcondition_from_vk f vk); simpl in Hlen;
    try discriminate; reflexivity.
Qed.

Lemma owner_has_key_step f owner' owner :
  owner_has_key key_pairs (sign_step f owner') owner
  = owner_has_key key_pairs f owner.
Proof.
  unfold sign_step. destruct owner' as [|vk'| | | |]; try reflexivity.
  destruct (key_pairs !! vk'); [apply owner_has_key_sign|reflexivity].
Qed.

Lemma sign_owner_spec f owner :
  Transaction.sign_owner tx_serialized key_pairs f owner
  = if owner_has_key key_pairs f owner then Ok (sign_step f owner)
    else Raise KeypairMismatchException.
Proof.
  unfold Transaction.sign_owner, owner_has_key, sign_step.
  destruct owner as [|vk| | | |]; try reflexivity.
  destruct (get_subcondition_from_vk f vk); [reflexivity|]. simpl.
  destruct (key_pairs !! vk) eqn:E.
  - rewrite bool_decide_eq_true_2 by eauto. reflexivity.
  - rewrite bool_decide_eq_false_2 by (intros [? ?]; discriminate).
    reflexivity.
Qed.

Lemma reduce_sign_owner owners f :
  Output.reduce (Transaction.sign_owner tx_serialized key_pairs) owners f
  = if forallb (owner_has_key key_pairs f) owners
    then Ok (foldl sign_step f owners)
    else Raise KeypairMismatchException.
Proof.
  revert f. induction owners as [|owner owners IH]; intros f; simpl.
  - reflexivity.
  - rewrite sign_owner_spec.
    destruct (owner_has_key key_pairs f owner); simpl; [|reflexivity].
    rewrite IH.
    rewrite (forallb_pointwise (owner_has_key key_pairs (sign_step f owner))
               (owner_has_key key_pairs f))
      by (intros; apply owner_has_key_step).
    reflexivity.
Qed.

(** The loop over the owners signs the tree leaf by leaf. *)
Lemma foldl_sign_step_node owners k subs :
  foldl sign_step (ThresholdSha256Fulfillment k subs) owners
  = ThresholdSha256Fulfillment k
      (List.map (fun s => foldl sign_step s owners) subs).
Proof.
  revert subs. induction owners as [|owner owners IH]; intros subs; simpl.
  - rewrite map_id. reflexivity.
  - assert (Hstep : sign_step (ThresholdSha256Fulfillment k subs) owner
                    = ThresholdSha256Fulfillment k
                        (List.map (fun s => sign_step s owner) subs)).
    { unfold sign_step. destruct owner; try (rewrite map_id; reflexivity).
      destruct (key_pairs !! s); [reflexivity|rewrite map_id; reflexivity]. }
    rewrite Hstep, IH, map_map. reflexivity.
Qed.

Lemma foldl_sign_step_leaf owners pk sig :
  Forall (fun owner => exists vk, owner = PStr vk /\ is_Some (key_pairs !! vk))
    owners ->
  foldl sign_step (Ed25519Fulfillment pk sig) owners
  = match key_pairs !! pk with
    | Some private_key =>
        if bool_decide (PStr pk ∈ owners)
        then Ed25519Fulfillment pk
               (Some (ed25519_sign private_key tx_serialized))
        else Ed25519Fulfillment pk sig
    | None => Ed25519Fulfillment pk sig
    end.
Proof.
  intros Hall. revert sig.
  induction Hall as [|owner owners (vk & -> & [sk Hsk]) _ IH]; intros sig.
  - simpl. destruct (key_pairs !! pk); reflexivity.
  - simpl. rewrite Hsk. simpl.
    destruct (String.eqb_spec pk vk) as [->|Hne].
    + simpl. rewrite IH, Hsk.
      rewrite (bool_decide_eq_true_2 (PStr vk ∈ PStr vk :: owners))
        by apply list_elem_of_here.
      case_bool_decide; reflexivity.
    + rewrite IH. destruct (key_pairs !! pk); [|reflexivity].
      assert (Hmem : bool_decide (PStr pk ∈ owners)
                     = bool_decide (PStr pk ∈ PStr vk :: owners)).
      { apply bool_decide_ext. rewrite elem_of_cons.
        split; [tauto|]. intros [[= ->]|H]; [congruence|exact H]. }
      rewrite Hmem. reflexivity.
Qed.

Lemma foldl_sign_step_signed_by owners f :
  Forall (fun owner => exists vk, owner = PStr vk /\ is_Some (key_pairs !! vk))
    owners ->
  foldl sign_step f owners = signed_by key_pairs owners tx_serialized f.
Proof.
  intros Hall.
  induction f as [pk sig|k subs IH] using Fulfillment_ind'.
  - apply foldl_sign_step_leaf. exact Hall.
  - rewrite foldl_sign_step_node. simpl. f_equal.
    induction IH as [|s subs Hs _ IHsubs]; simpl.
    + reflexivity.
    + rewrite Hs, IHsubs. reflexivity.
Qed.
End signing_inputs.

Lemma forallb_elem_of {A : Type} (f : A -> bool) (l : list A) :
  forallb f l = true <-> forall x, x ∈ l -> f x = true.
Proof.
  induction l as [|y l IH]; simpl.
  - split; [intros _ x Hx; inversion Hx|reflexivity].
  - rewrite andb_true_iff, IH. split.
    + intros [Hy Hl] x Hx. apply elem_of_cons in Hx as [->|Hx]; auto.
    + intros H. split; [apply H; left|intros x Hx; apply H; right; exact Hx].
Qed.

Lemma forallb_same_elements {A : Type} (f : A -> bool) (l l' : list A) :
  (forall x, x ∈ l <-> x ∈ l') -> forallb f l = forallb f l'.
Proof.
  intros H. apply eq_true_iff_eq. rewrite !forallb_elem_of.
  split; intros Hall x Hx; apply Hall, H, Hx.
Qed.

Section signing_transactions.
Context {X : Externals}.
Variable key_pairs : gmap string string.

Local Abbreviation signed_copy := (signed_copy key_pairs).

Lemma signed_by_same_elements owners owners' message f :
  (forall x, x ∈ owners <-> x ∈ owners') ->
  signed_by key_pairs owners message f = signed_by key_pairs owners' message f.
Proof.
  intros H. induction f as [pk sig|k subs IH] using Fulfillment_ind'; simpl.
  - destruct (key_pairs !! pk); [|reflexivity].
    rewrite (bool_decide_ext _ _ (H (PStr pk))). reflexivity.
  - f_equal. induction IH as [|s subs Hs _ IHsubs]; simpl.
    + reflexivity.
    + rewrite Hs, IHsubs. reflexivity.
Qed.

Lemma owner_has_key_Some f owner :
  owner_has_key key_pairs f owner = true ->
  exists vk, owner = PStr vk /\ is_Some (key_pairs !! vk).
Proof.
  unfold owner_has_key. destruct owner as [|vk| | | |]; try discriminate.
  destruct (get_subcondition_from_vk f vk); [discriminate|].
  intros H. apply bool_decide_eq_true in H. eauto.
Qed.

Lemma forallb_is_str_hashable owners :
  forallb is_str owners = true ->
  forallb Transaction.hashable owners = true.
Proof.
  rewrite !forallb_elem_of. intros H x Hx. specialize (H x Hx).
  destruct x; try discriminate; reflexivity.
Qed.

Lemma sign_input_spec self input_ index tx_serialized :
  well_typed_input input_ = true ->
  Transaction._sign_input self input_ index tx_serialized key_pairs
  = if has_keys key_pairs input_
    then Ok (Transaction.set_input self index
               (signed_copy tx_serialized input_))
    else Raise KeypairMismatchException.
Proof.
  unfold well_typed_input, Transaction._sign_input, has_keys, signed_copy,
    signed_fulfillment.
  destruct (Input.fulfillment input_) as [| | | | |[pk sig|k subs]];
    try discriminate.
  - intros Hwt. apply andb_true_iff in Hwt as [Hstr Hne].
    unfold Transaction._sign_simple_signature_fulfillment.
    destruct (Input.owners_before input_) as [|owner owners];
      [discriminate Hne|].
    simpl in Hstr. destruct owner as [|vk| | | |]; try discriminate Hstr.
    simpl. destruct (key_pairs !! vk) as [sk|] eqn:E.
    + rewrite bool_decide_eq_true_2 by eauto. reflexivity.
    + rewrite bool_decide_eq_false_2 by (intros [? ?]; discriminate).
      reflexivity.
  - intros Hstr.
    unfold Transaction._sign_threshold_signature_fulfillment,
      Transaction.py_set.
    rewrite (forallb_is_str_hashable _ Hstr). simpl.
    rewrite reduce_sign_owner.
    rewrite (forallb_same_elements _ (remove_dups (Input.owners_before input_))
               (Input.owners_before input_))
      by (intros; apply elem_of_remove_dups).
    destruct (forallb (owner_has_key key_pairs _)
                (Input.owners_before input_)) eqn:Hkeys;
      [|reflexivity].
    simpl. rewrite foldl_sign_step_signed_by.
    + rewrite (signed_by_same_elements
                 (remove_dups (Input.owners_before input_))
                 (Input.owners_before input_))
        by (intros; apply elem_of_remove_dups).
      reflexivity.
    + apply Forall_forall. intros owner Howner.
      rewrite elem_of_remove_dups in Howner.
      rewrite forallb_elem_of in Hkeys.
      apply (owner_has_key_Some _ _ (Hkeys owner Howner)).
Qed.

Lemma well_typed_object input_ :
  well_typed_input input_ = true ->
  is_object (Input.fulfillment input_) = true.
Proof.
  unfold well_typed_input.
  destruct (Input.fulfillment input_); try discriminate. reflexivity.
Qed.

Lemma sign_from_spec self :
  constructed self ->
  forall remaining done,
    forallb well_typed_input remaining = true ->
    Transaction.sign_from (with_inputs self (done ++ remaining))
      (length done) remaining key_pairs
    = if forallb (has_keys key_pairs) remaining
      then Ok (with_inputs self
                 (done ++ List.map (fun i => signed_copy (message self i) i)
                            remaining))
      else Raise KeypairMismatchException.
Proof.
  intros Hself. induction remaining as [|input_ rest IH]; intros done Hwt.
  - reflexivity.
  - simpl in Hwt. apply andb_true_iff in Hwt as [Hwt Hrest].
    cbn [Transaction.sign_from forallb List.map].
    assert (Hm : Transaction.partial_message
                   (with_inputs self (done ++ input_ :: rest)) input_
                 = Ok (message self input_)).
    { rewrite <- (partial_message_Ok self input_ Hself
                    (well_typed_object _ Hwt)).
      reflexivity. }
    rewrite Hm. cbn [bind].
    rewrite sign_input_spec by exact Hwt.
    destruct (has_keys key_pairs input_); [|reflexivity].
    cbn [bind andb].
    assert (Hset : Transaction.set_input
                     (with_inputs self (done ++ input_ :: rest))
                     (length done) (signed_copy (message self input_) input_)
                   = with_inputs self
                       ((done ++ [signed_copy (message self input_) input_])
                        ++ rest)).
    { unfold Transaction.set_input, with_inputs. simpl. f_equal.
      rewrite insert_app_r_alt by lia. rewrite Nat.sub_diag. simpl.
      rewrite <- app_assoc. reflexivity. }
    rewrite Hset.
    replace (S (length done))
      with (length (done ++ [signed_copy (message self input_) input_]))
      by (rewrite length_app; simpl; lia).
    rewrite IH by exact Hrest.
    rewrite <- app_assoc. reflexivity.
Qed.
End signing_transactions.

Section signing_claim.
Context {X : Externals}.

(** [sign] on a constructed transaction with well-typed inputs. *)
Lemma sign_spec self private_keys :
  constructed self ->
  forallb well_typed_input (Transaction.inputs self) = true ->
  Transaction.sign self private_keys
  = if forallb (has_keys (Transaction.gen_key_pairs private_keys))
         (Transaction.inputs self)
    then Ok (with_inputs self
               (List.map
                  (fun i => signed_copy (Transaction.gen_key_pairs private_keys)
                              (message self i) i)
                  (Transaction.inputs self)))
    else Raise KeypairMismatchException.
Proof.
  intros Hself Hwt. unfold Transaction.sign.
  pose proof (sign_from_spec (Transaction.gen_key_pairs private_keys) self
                Hself (Transaction.inputs self) [] Hwt) as H.
  simpl in H.
  replace (with_inputs self (Transaction.inputs self)) with self in H
    by (destruct self; reflexivity).
  exact H.
Qed.

End signing_claim.


(** ** Validation after signing *)

Lemma forallb_flat_map {A B : Type} (p : B -> bool) (f : A -> list B) l :
  forallb p (List.flat_map f l) = forallb (fun x => forallb p (f x)) l.
Proof.
  induction l as [|x l IH]; simpl; [reflexivity|].
  rewrite forallb_app, IH. reflexivity.
Qed.

Lemma unsigned_signed_by {X : Externals} key_pairs owners message f :
  unsigned (signed_by key_pairs owners message f) = unsigned f.
Proof.
  induction f as [pk sig|k subs IH] using Fulfillment_ind'; simpl.
  - destruct (key_pairs !! pk); [|reflexivity].
    case_bool_decide; reflexivity.
  - f_equal. induction IH as [|s subs Hs _ IHsubs]; simpl.
    + reflexivity.
    + rewrite Hs, IHsubs. reflexivity.
Qed.

Section validation.
Context {X : Externals} {L : SignatureLaws}.
Variable private_keys : list string.

Let key_pairs := Transaction.gen_key_pairs private_keys.

Lemma fully_signed_signed_by owners message f :
  forallb (fun pk => bool_decide (PStr pk ∈ owners)
                     && bool_decide (is_Some (key_pairs !! pk)))
    (leaf_keys f) = true ->
  satisfiable f = true ->
  fully_signed (signed_by key_pairs owners message f) message = true.
Proof.
  induction f as [pk sig|k subs IH] using Fulfillment_ind'; simpl.
  - intros H _. rewrite andb_true_r in H.
    apply andb_true_iff in H as [Hin Hkey].
    apply bool_decide_eq_true in Hkey as [sk Hsk].
    rewrite Hsk, Hin. simpl.
    apply gen_key_pairs_Some in Hsk as [_ <-]. apply verify_sign.
  - rewrite forallb_flat_map. intros Hkeys Hsat.
    apply andb_true_iff in Hsat as [Hk Hsat].
    rewrite length_map, Hk. simpl. clear Hk.
    induction IH as [|s subs Hs _ IHsubs]; simpl.
    + reflexivity.
    + simpl in Hkeys, Hsat.
      apply andb_true_iff in Hkeys as [Hkeys1 Hkeys2].
      apply andb_true_iff in Hsat as [Hsat1 Hsat2].
      rewrite (Hs Hkeys1 Hsat1). simpl. apply IHsubs; assumption.
Qed.

(** The fulfillment that [sign] leaves in a covered input is fully
    signed, and has the condition of the original. *)
Lemma signed_fulfillment_fully_signed message input_ :
  owners_cover input_ = true ->
  has_keys key_pairs input_ = true ->
  exists f f',
    Input.fulfillment input_ = PFulfillment f
    /\ signed_fulfillment key_pairs message input_ = PFulfillment f'
    /\ fully_signed f' message = true
    /\ unsigned f' = unsigned f.
Proof.
  unfold owners_cover, has_keys, signed_fulfillment.
  destruct (Input.fulfillment input_) as [| | | | |[pk sig|k subs]];
    try discriminate.
  - destruct (Input.owners_before input_) as [|[|owner| | | |] owners];
      try discriminate.
    intros Hcover Hkeys. apply andb_true_iff in Hcover as [Hpk _].
    apply String.eqb_eq in Hpk. subst owner.
    apply bool_decide_eq_true in Hkeys as [sk Hsk]. rewrite Hsk.
    eexists _, _. split; [reflexivity|]. split; [reflexivity|].
    split; [|reflexivity]. simpl.
    apply gen_key_pairs_Some in Hsk as [_ <-]. apply verify_sign.
  - intros Hcover Hkeys.
    apply andb_true_iff in Hcover as [Hcover Hsat].
    apply andb_true_iff in Hcover as [_ Hcover].
    eexists _, _. split; [reflexivity|]. split; [reflexivity|].
    split; [|apply unsigned_signed_by].
    apply fully_signed_signed_by; [|exact Hsat].
    rewrite forallb_elem_of in Hcover. rewrite forallb_elem_of in Hkeys.
    apply forallb_elem_of.
    intros pk Hpk. specialize (Hcover pk Hpk). rewrite Hcover. simpl.
    apply bool_decide_eq_true in Hcover.
    destruct (owner_has_key_Some _ _ _ (Hkeys _ Hcover)) as (vk & [= <-] & H).
    apply bool_decide_eq_true. exact H.
Qed.

Lemma owners_cover_well_typed input_ :
  owners_cover input_ = true -> well_typed_input input_ = true.
Proof.
  unfold owners_cover, well_typed_input.
  destruct (Input.fulfillment input_) as [| | | | |[pk sig|k subs]];
    try discriminate.
  - destruct (Input.owners_before input_) as [|[|owner| | | |] owners];
      try discriminate.
    intros H. apply andb_true_iff in H as [_ H]. simpl. rewrite H.
    reflexivity.
  - intros H. apply andb_true_iff in H as [H _].
    apply andb_true_iff in H as [H _]. exact H.
Qed.

Lemma input_valid_signed operation message input_ output_condition_uri :
  owners_cover input_ = true ->
  has_keys key_pairs input_ = true ->
  operation ∈ [Transaction.CREATE; Transaction.GENESIS]
  \/ (exists f, Input.fulfillment input_ = PFulfillment f
                /\ output_condition_uri = PStr (condition_uri f)) ->
  Transaction._input_valid (signed_copy key_pairs message input_) operation
    message output_condition_uri = Ok true.
Proof.
  intros Hcover Hkeys Hout.
  destruct (signed_fulfillment_fully_signed message input_ Hcover Hkeys)
    as (f & f' & Hf & Hf' & Hsigned & Hunsigned).
  destruct (from_uri_fully_signed f' message Hsigned)
    as (uri & parsed & Huri & Hparsed & Hvalid).
  unfold Transaction._input_valid, signed_copy. simpl.
  rewrite Hf', Huri, Hparsed, Hvalid, andb_true_r. f_equal.
  destruct Hout as [Hop|(g & Hg & ->)].
  - rewrite bool_decide_eq_true_2 by exact Hop. reflexivity.
  - case_bool_decide; [reflexivity|].
    apply bool_decide_eq_true. f_equal.
    rewrite Hf in Hg. injection Hg as <-.
    rewrite <- (condition_uri_unsigned f'), Hunsigned.
    symmetry. apply condition_uri_unsigned.
Qed.

Lemma all_map3_true {A B C : Type} (f : A -> B -> C -> result bool) xs ys zs :
  Forall2 (fun x z => forall y, f x y z = Ok true) xs zs ->
  Transaction.all_map3 f xs ys zs = Ok true.
Proof.
  intros H. revert ys. induction H as [|x z xs zs Hx _ IH]; intros ys.
  - destruct ys; reflexivity.
  - destruct ys as [|y ys]; [reflexivity|]. simpl.
    rewrite Hx. simpl. apply IH.
Qed.

Lemma constructed_with_inputs self inputs :
  constructed self -> constructed (with_inputs self inputs).
Proof.
  intros H. unfold constructed. simpl. apply (init_with_inputs self inputs H).
Qed.

Lemma gen_tx_signed self inputs input_ output output_condition_uri :
  constructed self ->
  owners_cover input_ = true ->
  has_keys key_pairs input_ = true ->
  Transaction.operation self ∈ [Transaction.CREATE; Transaction.GENESIS]
  \/ (exists f, Input.fulfillment input_ = PFulfillment f
                /\ output_condition_uri = PStr (condition_uri f)) ->
  Transaction.gen_tx (with_inputs self inputs)
    (signed_copy key_pairs (message self input_) input_) output
    output_condition_uri = Ok true.
Proof.
  intros Hself Hcover Hkeys Hout. unfold Transaction.gen_tx.
  destruct (signed_fulfillment_fully_signed (message self input_) input_
              Hcover Hkeys) as (f & f' & _ & Hf' & _).
  rewrite (partial_message_Ok (with_inputs self inputs)
             (signed_copy key_pairs (message self input_) input_)
             (constructed_with_inputs self inputs Hself))
    by (simpl; rewrite Hf'; reflexivity).
  simpl.
  change (message (with_inputs self inputs)
            (signed_copy key_pairs (message self input_) input_))
    with (message self input_).
  apply input_valid_signed; assumption.
Qed.

Lemma gen_tx_all_signed self all_inputs inputs uris :
  constructed self ->
  (forall i, i ∈ inputs -> owners_cover i = true) ->
  (forall i, i ∈ inputs -> has_keys key_pairs i = true) ->
  Forall2 (fun i uri =>
             Transaction.operation self
             ∈ [Transaction.CREATE; Transaction.GENESIS]
             \/ (exists f, Input.fulfillment i = PFulfillment f
                           /\ uri = PStr (condition_uri f))) inputs uris ->
  Forall2 (fun x z => forall y,
               Transaction.gen_tx (with_inputs self all_inputs) x y z = Ok true)
    (List.map (fun i => signed_copy key_pairs (message self i) i) inputs) uris.
Proof.
  intros Hself Hcover Hkeys H.
  induction H as [|i uri inputs uris Hi _ IH]; simpl; constructor.
  - intros y. apply gen_tx_signed; auto; [apply Hcover|apply Hkeys]; left.
  - apply IH; intros x Hx; [apply Hcover|apply Hkeys]; right; exact Hx.
Qed.

(** C7.  For a constructed transaction whose inputs are owned by the keys
    of their fulfillments, when [sign] succeeds, [inputs_valid] on the
    signed transaction returns [True]: for [CREATE] and [GENESIS] whatever
    the outputs passed, for [TRANSFER] with the referenced outputs that the
    inputs spend, one per input. *)
Theorem inputs_valid_after_sign self signed :
  constructed self ->
  forallb owners_cover (Transaction.inputs self) = true ->
  Transaction.sign self private_keys = Ok signed ->
  (Transaction.operation self ∈ [Transaction.CREATE; Transaction.GENESIS] ->
   forall outputs, Transaction.inputs_valid signed outputs = Ok true)
  /\ (Transaction.operation self = Transaction.TRANSFER ->
      forall outputs,
        Forall2 spends (Transaction.inputs self) outputs ->
        Transaction.inputs_valid signed (Some outputs) = Ok true).
Proof.
  intros Hself Hcover Hsign.
  assert (Hwt : forallb well_typed_input (Transaction.inputs self) = true).
  { rewrite forallb_elem_of in Hcover. apply forallb_elem_of.
    intros i Hi. apply owners_cover_well_typed, Hcover, Hi. }
  rewrite (sign_spec self private_keys Hself Hwt) in Hsign.
  fold key_pairs in Hsign.
  destruct (forallb (has_keys key_pairs) (Transaction.inputs self)) eqn:Hkeys;
    [|discriminate].
  injection Hsign as <-.
  rewrite forallb_elem_of in Hcover. rewrite forallb_elem_of in Hkeys.
  split.
  - intros Hop outputs. unfold Transaction.inputs_valid. simpl.
    rewrite bool_decide_eq_true_2 by exact Hop.
    unfold Transaction._inputs_valid. simpl.
    rewrite bool_decide_eq_false_2 by (rewrite !length_map; auto).
    apply all_map3_true.
    apply (gen_tx_all_signed self _ (Transaction.inputs self)); auto.
    clear -Hop. induction (Transaction.inputs self) as [|i inputs IH]; simpl;
      constructor; [left; exact Hop|exact IH].
  - intros Hop outputs Hspends. unfold Transaction.inputs_valid. simpl.
    rewrite Hop. simpl.
    assert (Huris : map_result Transaction.output_condition_uri outputs
                    = Ok (List.map
                            (fun o => match Output.fulfillment o with
                                      | PFulfillment g => PStr (condition_uri g)
                                      | v => v
                                      end) outputs)).
    { clear -Hspends. induction Hspends as [|i o is' os (f & g & _ & Hg & _) _ IH];
        simpl; [reflexivity|].
      unfold Transaction.output_condition_uri at 1. rewrite Hg, IH. simpl.
      reflexivity. }
    rewrite Huris. simpl. unfold Transaction._inputs_valid. simpl.
    rewrite bool_decide_eq_false_2
      by (rewrite !length_map; rewrite (Forall2_length _ _ _ Hspends); auto).
    apply all_map3_true.
    apply (gen_tx_all_signed self _ (Transaction.inputs self)); auto.
    clear -Hspends.
    induction Hspends as [|i o is' os (f & g & Hf & Hg & Hc) _ IH]; simpl;
      constructor; [|exact IH].
    right. exists f. split; [exact Hf|]. rewrite Hg, Hc. reflexivity.
Qed.
End validation.

(** ** The small instance satisfies the laws *)

Lemma Toy_of_tree_to_tree f : Toy.of_tree (Toy.to_tree f) = Some f.
Proof.
  induction f as [pk sig|k subs IH] using Fulfillment_ind'; simpl.
  - reflexivity.
  - assert (Hall : (fix all (gs : list (gen_tree (string * option string))) :=
                      match gs with
                      | [] => Some []
                      | g :: gs' =>
                          f ← Toy.of_tree g; fs ← all gs'; Some (f :: fs)
                      end) (List.map Toy.to_tree subs) = Some subs).
    { induction IH as [|s subs Hs _ IHsubs]; simpl.
      - reflexivity.
      - rewrite Hs. simpl. rewrite IHsubs. reflexivity. }
    rewrite Hall. reflexivity.
Qed.

Lemma Toy_from_uri_serialize_uri f uri :
  Toy.serialize_uri f = Some uri -> Toy.from_uri uri = Ok f.
Proof.
  unfold Toy.serialize_uri, Toy.from_uri.
  destruct (Toy.signed_enough f); [|discriminate]. intros [= <-].
  rewrite py_int_py_str, decode_encode. simpl.
  rewrite Toy_of_tree_to_tree. reflexivity.
Qed.

Lemma filter_length_le {A : Type} (p q : A -> bool) l :
  Forall (fun x => p x = true -> q x = true) l ->
  (length (List.filter p l) <= length (List.filter q l))%nat.
Proof.
  induction 1 as [|x l Hx _ IH]; simpl; [lia|].
  destruct (p x).
  - rewrite Hx by reflexivity. simpl. lia.
  - destruct (q x); simpl; lia.
Qed.

Lemma filter_all {A : Type} (p : A -> bool) l :
  forallb p l = true -> List.filter p l = l.
Proof.
  induction l as [|x l IH]; simpl; [reflexivity|].
  intros H. apply andb_true_iff in H as [Hx Hl]. rewrite Hx, IH by exact Hl.
  reflexivity.
Qed.

Lemma fully_signed_validate {X : Externals} f message :
  fully_signed f message = true -> validate f message = true.
Proof.
  induction f as [pk sig|k subs IH] using Fulfillment_ind'; simpl.
  - destruct sig; auto.
  - intros H. apply andb_true_iff in H as [Hk Hall].
    rewrite filter_all; [exact Hk|].
    clear Hk. induction IH as [|s subs Hs _ IHsubs]; simpl in *.
    + reflexivity.
    + apply andb_true_iff in Hall as [H1 H2].
      rewrite (Hs H1). simpl. apply IHsubs, H2.
Qed.

Lemma Toy_fully_signed_enough f message :
  fully_signed (X := Toy.externals) f message = true ->
  Toy.signed_enough f = true.
Proof.
  induction f as [pk sig|k subs IH] using Fulfillment_ind'; simpl.
  - destruct sig; [reflexivity|discriminate].
  - intros H. apply andb_true_iff in H as [Hk Hall].
    rewrite filter_all; [exact Hk|].
    clear Hk. induction IH as [|s subs Hs _ IHsubs]; simpl in *.
    + reflexivity.
    + apply andb_true_iff in Hall as [H1 H2].
      rewrite (Hs H1). simpl. apply IHsubs, H2.
Qed.

Lemma unsigned_idempotent f : unsigned (unsigned f) = unsigned f.
Proof.
  induction f as [pk sig|k subs IH] using Fulfillment_ind'; simpl.
  - reflexivity.
  - f_equal. induction IH as [|s subs Hs _ IHsubs]; simpl.
    + reflexivity.
    + rewrite Hs, IHsubs. reflexivity.
Qed.

Lemma Toy_signature_laws : @SignatureLaws Toy.externals.
Proof.
  split.
  - intros sk message. simpl. unfold Toy.ed25519_verify, Toy.gen_public_key.
    apply String.eqb_refl.
  - intros f message H.
    pose proof (Toy_fully_signed_enough f message H) as Henough.
    exists (py_str (Z.pos (encode (Toy.to_tree f)))), f.
    split; [|split].
    + simpl. unfold Toy.serialize_uri. rewrite Henough. reflexivity.
    + apply Toy_from_uri_serialize_uri. unfold Toy.serialize_uri.
      rewrite Henough. reflexivity.
    + apply fully_signed_validate. exact H.
  - intros f. simpl. unfold Toy.condition_uri.
    rewrite unsigned_idempotent. reflexivity.
Qed.

Lemma Toy_round_trip_laws : @RoundTripLaws Toy.externals.
Proof.
  split.
  - intros f uri H. exists f. split; [|exact H].
    apply Toy_from_uri_serialize_uri. exact H.
  - intros f s. discriminate.
  - intros f. exists f. repeat split; auto.
Qed.

(** The sample [CREATE] transaction signed with its key, and the sample
    transfer signed with its key and checked against the outputs it
    spends. *)
Lemma inputs_valid_after_sign_witness :
  (exists signed,
      Transaction.sign (X := Toy.externals) Toy.create_tx ["a"%string]
      = Ok signed
      /\ Transaction.inputs_valid (X := Toy.externals) signed None = Ok true)
  /\ (exists signed,
         Transaction.sign (X := Toy.externals) Toy.transfer_tx ["a"%string]
         = Ok signed
         /\ Transaction.inputs_valid (X := Toy.externals) signed
              (Some [Toy.output_a; Toy.output_a]) = Ok true).
Proof.
  split.
  - destruct (Transaction.sign (X := Toy.externals) Toy.create_tx
                ["a"%string]) as [signed|e] eqn:E;
      [|vm_compute in E; discriminate E].
    exists signed. split; [reflexivity|].
    apply (inputs_valid_after_sign (L := Toy_signature_laws) ["a"%string]
             Toy.create_tx signed eq_refl eq_refl E).
    apply list_elem_of_here.
  - destruct (Transaction.sign (X := Toy.externals) Toy.transfer_tx
                ["a"%string]) as [signed|e] eqn:E;
      [|vm_compute in E; discriminate E].
    exists signed. split; [reflexivity|].
    apply (inputs_valid_after_sign (L := Toy_signature_laws) ["a"%string]
             Toy.transfer_tx signed eq_refl eq_refl E); [reflexivity|].
    repeat constructor;
      exists (Ed25519Fulfillment "Pa" None), (Ed25519Fulfillment "Pa" None);
      repeat split.
Defined.

(** C7, as it is stated, at a well-formed transaction whose input is
    owned by one of the two keys of its fulfillment: the private key of
    every owner is given, [sign] returns, the leaf of the owner is
    signed and the other leaf is not, and [inputs_valid] on the signed
    transaction returns [False]. *)
Lemma inputs_valid_after_sign_uncovered :
  well_formed (X := Toy.externals) Toy.uncovered_tx
  /\ (forall input_ owner,
         input_ ∈ Transaction.inputs Toy.uncovered_tx ->
         owner ∈ Input.owners_before input_ ->
         exists private_key,
           private_key ∈ ["a"%string]
           /\ owner = PStr (Toy.gen_public_key private_key))
  /\ exists signed,
      Transaction.sign (X := Toy.externals) Toy.uncovered_tx ["a"%string]
      = Ok signed
      /\ Transaction.inputs signed
         = [Input.mk
              (PFulfillment
                 (ThresholdSha256Fulfillment 2
                    [Ed25519Fulfillment "Pa"
                       (Some (Toy.ed25519_sign "a"
                                (message (X := Toy.externals)
                                   Toy.uncovered_tx
                                   (Input.mk
                                      (PFulfillment
                                         (ThresholdSha256Fulfillment 2
                                            [Ed25519Fulfillment "Pa" None;
                                             Ed25519Fulfillment "Pb" None]))
                                      [PStr "Pa"] None))));
                     Ed25519Fulfillment "Pb" None]))
              [PStr "Pa"] None]
      /\ Transaction.inputs_valid (X := Toy.externals) signed None
         = Ok false.
Proof.
  split; [|split].
  - split; [reflexivity|]. repeat constructor.
  - intros input_ owner Hi Ho. simpl in Hi.
    apply list_elem_of_singleton in Hi. subst input_. simpl in Ho.
    apply list_elem_of_singleton in Ho. subst owner.
    exists "a"%string. split; [apply list_elem_of_here|reflexivity].
  - eexists. split; [vm_compute; reflexivity|].
    split; vm_compute; reflexivity.
Qed.

(** ** Serialize and deserialize cycles *)

Section round_trip.
Context {X : Externals} {L : RoundTripLaws}.

Lemma TransactionLink_round_trip link :
  exists link',
    TransactionLink.from_dict (TransactionLink.to_dict link) = Ok link'
    /\ TransactionLink.to_dict link' = TransactionLink.to_dict link.
Proof.
  unfold TransactionLink.to_dict.
  destruct (TransactionLink.is_None (TransactionLink.txid link)
            && TransactionLink.is_None (TransactionLink.output link)) eqn:E.
  - exists TransactionLink.empty. split; reflexivity.
  - exists link. split.
    + simpl. destruct link; reflexivity.
    + rewrite E. reflexivity.
Qed.

Lemma Input_round_trip input_ d :
  Input.to_dict input_ = Ok d ->
  exists input', Input.from_dict d = Ok input' /\ Input.to_dict input' = Ok d.
Proof.
  unfold Input.to_dict.
  destruct (Input.fulfillment input_) as [| | | | |f]; try discriminate.
  set (fl := match Input.fulfills input_ with
             | Some link => TransactionLink.to_dict link
             | None => PNone
             end).
  assert (Hlink : exists link',
             TransactionLink.from_dict fl = Ok link'
             /\ TransactionLink.to_dict link' = fl).
  { subst fl. destruct (Input.fulfills input_) as [link|].
    - apply TransactionLink_round_trip.
    - exists TransactionLink.empty. split; reflexivity. }
  destruct Hlink as (link' & Hfrom & Hto).
  destruct (serialize_uri f) as [uri|] eqn:Euri; simpl; intros [= <-].
  - destruct (from_uri_serialize_uri f uri Euri) as (parsed & Hp & Hs).
    exists (Input.mk (PFulfillment parsed) (Input.owners_before input_)
              (Some link')).
    unfold Input.from_dict, Input.to_dict. simpl.
    rewrite Hp, Hfrom, Hs, Hto. split; reflexivity.
  - destruct (from_dict_to_dict f) as (parsed & Hp & Hd & _ & Hs).
    exists (Input.mk (PFulfillment parsed) (Input.owners_before input_)
              (Some link')).
    unfold Input.from_dict, Input.to_dict. simpl.
    pose proof (to_dict_not_str f) as Hns.
    destruct (Fulfillment_to_dict f) eqn:Ed;
      try (exfalso; eapply Hns; reflexivity);
      rewrite Hp; simpl; rewrite Hfrom; simpl;
      rewrite (Hs Euri), Hd, Hto; split; reflexivity.
Qed.

Lemma inputs_round_trip inputs ds :
  map_result Input.to_dict inputs = Ok ds ->
  exists inputs',
    map_result Input.from_dict ds = Ok inputs'
    /\ map_result Input.to_dict inputs' = Ok ds.
Proof.
  revert ds. induction inputs as [|i inputs IH]; simpl; intros ds H.
  - injection H as <-. exists []. split; reflexivity.
  - destruct (Input.to_dict i) as [d|] eqn:Ed; [|discriminate]. simpl in H.
    destruct (map_result Input.to_dict inputs) as [ds'|]; [|discriminate].
    injection H as <-.
    destruct (Input_round_trip i d Ed) as (i' & Hf & Ht).
    destruct (IH ds' eq_refl) as (inputs' & Hfs & Hts).
    exists (i' :: inputs'). simpl. rewrite Hf, Hfs, Ht, Hts.
    split; reflexivity.
Qed.

Lemma output_constructed_bounds output :
  output_constructed output ->
  bool_decide (1 <= Output.amount output <= Output.MAX_AMOUNT) = true.
Proof.
  unfold output_constructed. rewrite Output_init_checked.
  case_bool_decide; [reflexivity|discriminate].
Qed.

Lemma Output_round_trip output :
  output_constructed output ->
  exists output',
    Output.from_dict (Output.to_dict output) = Ok output'
    /\ Output.to_dict output' = Output.to_dict output
    /\ output_constructed output'.
Proof.
  intros Hc. pose proof (output_constructed_bounds output Hc) as Hb.
  assert (Hfrom : forall v,
             Output.condition_from_dict (Output.to_dict output) = Ok v ->
             Output.from_dict (Output.to_dict output)
             = Ok (Output.mk v (Output.public_keys output)
                     (Output.amount output))).
  { intros v Hv.
    rewrite (Output_from_dict_amount _ v (py_str (Output.amount output))
               (Output.public_keys output) Hv eq_refl eq_refl).
    rewrite py_int_py_str, Hb. reflexivity. }
  assert (Hcons : forall v,
             output_constructed
               (Output.mk v (Output.public_keys output)
                  (Output.amount output))).
  { intros v. unfold output_constructed. rewrite Output_init_checked. simpl.
    rewrite Hb. reflexivity. }
  destruct (Output.fulfillment output) as [| | | | |f] eqn:Ef.
  6: { destruct (from_dict_to_dict f) as (parsed & Hp & Hd & Hu & _).
       exists (Output.mk (PFulfillment parsed) (Output.public_keys output)
                 (Output.amount output)).
       split; [|split; [|apply Hcons]].
       - apply Hfrom. unfold Output.condition_from_dict, Output.to_dict.
         rewrite Ef. simpl. rewrite Hp. reflexivity.
       - unfold Output.to_dict. rewrite Ef. simpl. rewrite Hd, Hu.
         reflexivity. }
  all: eexists (Output.mk _ (Output.public_keys output)
                  (Output.amount output));
    (split; [|split; [|apply Hcons]]);
    [apply Hfrom; unfold Output.condition_from_dict, Output.to_dict;
     rewrite Ef; reflexivity
    |unfold Output.to_dict; rewrite Ef; reflexivity].
Qed.

Lemma outputs_round_trip outputs :
  Forall output_constructed outputs ->
  exists outputs',
    map_result Output.from_dict (List.map Output.to_dict outputs) = Ok outputs'
    /\ List.map Output.to_dict outputs' = List.map Output.to_dict outputs
    /\ Forall output_constructed outputs'.
Proof.
  induction 1 as [|o outputs Ho _ (outputs' & Hf & Ht & Hc)]; simpl.
  - exists []. repeat split. constructor.
  - destruct (Output_round_trip o Ho) as (o' & Hfo & Hto & Hco).
    exists (o' :: outputs'). simpl. rewrite Hfo, Hf, Hto, Ht.
    repeat split. constructor; assumption.
Qed.

Lemma init_with self inputs outputs :
  constructed self ->
  Transaction.__init__ (PStr (Transaction.operation self))
    (Transaction.asset self) (Some inputs) (Some outputs)
    (Transaction.metadata self) (Transaction.version self)
  = Ok (Transaction.mk (Transaction.operation self) (Transaction.asset self)
          inputs outputs (Transaction.metadata self)
          (Transaction.version self)).
Proof.
  unfold constructed, Transaction.__init__. intros H.
  destruct (bool_decide (Transaction.operation self
                         ∈ Transaction.ALLOWED_OPERATIONS));
    [|discriminate].
  destruct (_ && _ && _); [discriminate|].
  destruct (_ && _); [discriminate|].
  destruct (_ && _); [discriminate|].
  injection H as H. simpl.
  apply (f_equal Transaction.version) in H. simpl in H. rewrite H.
  reflexivity.
Qed.

Lemma from_dict_to_dict_once self d :
  well_formed self ->
  Transaction.to_dict self = Ok d ->
  exists self',
    Transaction.from_dict d = Ok self'
    /\ Transaction.to_dict self' = Ok d
    /\ well_formed self'.
Proof.
  intros [Hself Houts] Hd. pose proof (validate_id_to_dict self d Hd) as Hid.
  apply to_dict_Ok in Hd as (ds & Eds & ->).
  destruct (inputs_round_trip _ _ Eds) as (inputs' & Hfi & Hti).
  destruct (outputs_round_trip _ Houts) as (outputs' & Hfo & Hto & Hco).
  set (self' := Transaction.mk (Transaction.operation self)
                  (Transaction.asset self) inputs' outputs'
                  (Transaction.metadata self) (Transaction.version self)).
  assert (Hself' : constructed self').
  { unfold constructed. subst self'. simpl. apply init_with. exact Hself. }
  exists self'. split; [|split; [|split; assumption]].
  - unfold Transaction.from_dict. rewrite Hid. simpl.
    rewrite Hfi. simpl. rewrite Hfo. simpl.
    apply init_with. exact Hself.
  - apply to_dict_Ok. exists ds. split; [exact Hti|].
    destruct (inputs_to_dict_Ok _ _ Eds) as (_ & Hn & _).
    destruct (inputs_to_dict_Ok _ _ Hti) as (_ & Hn' & _).
    unfold id_of, body. subst self'. simpl.
    rewrite Hto, <- Hn', Hn. reflexivity.
Qed.

End round_trip.


(** ** Where the code leaves the specification *)

(** C2.  [inputs_valid] on a transfer with two inputs and one output,
    called with two referenced outputs: the first input is signed and
    valid, the second input carries no signature and is not valid by
    itself, and the verdict is [True].  [map(gen_tx, self.inputs,
    self.outputs, output_condition_uris)] stops after the single output
    of the transaction, so the second input is never looked at. *)
Theorem inputs_valid_skips_inputs :
  exists tx unsigned_input,
    Toy.half_signed_transfer = Ok tx
    /\ length (Transaction.inputs tx) = 2%nat
    /\ length (Transaction.outputs tx) = 1%nat
    /\ Transaction.inputs tx !! 1%nat = Some unsigned_input
    /\ Transaction.gen_tx (X := Toy.externals) tx unsigned_input Toy.output_b
         (PStr (Toy.condition_uri (Ed25519Fulfillment "Pa" None)))
       = Ok false
    /\ Transaction.inputs_valid (X := Toy.externals) tx
         (Some [Toy.output_a; Toy.output_a]) = Ok true.
Proof.
  destruct Toy.half_signed_transfer as [tx|e] eqn:E;
    [|vm_compute in E; discriminate E].
  vm_compute in E. injection E as <-.
  eexists _, _. split; [reflexivity|].
  split; [reflexivity|]. split; [reflexivity|]. split; [reflexivity|].
  split; vm_compute; reflexivity.
Qed.

(** C3.  [get_asset_id] on a list that holds one [GENESIS] transaction:
    the transaction has an id, and the call raises instead of returning
    it, [TypeError] when the asset is [None] and [KeyError] when the
    asset holds [data].  The comprehension tests [tx.operation ==
    Transaction.CREATE] only, so a [GENESIS] transaction is read at
    [tx.asset['id']]. *)
Theorem get_asset_id_genesis :
  is_ok (Transaction.id (X := Toy.externals) Toy.genesis_tx) = true
  /\ Transaction.get_asset_id (X := Toy.externals) [Toy.genesis_tx]
     = Raise TypeError
  /\ is_ok (Transaction.id (X := Toy.externals) Toy.genesis_data_tx) = true
  /\ Transaction.get_asset_id (X := Toy.externals) [Toy.genesis_data_tx]
     = Raise KeyError.
Proof. repeat split; vm_compute; reflexivity. Qed.

(** ** [validate_id] and the caller's dictionary *)

Section frame.
Import Heap.
Variable n : nat.

Local Abbreviation copy_ok := (copy_ok n).

Lemma same_below_refl h : same_below n h h.
Proof. split; [reflexivity|lia]. Qed.

Lemma same_below_trans h1 h2 h3 :
  same_below n h1 h2 -> same_below n h2 h3 -> same_below n h1 h3.
Proof. intros [H1 L1] [H2 L2]. split; [congruence|lia]. Qed.

Lemma same_below_alloc h o :
  (n <= length h)%nat -> same_below n h (h ++ [o]).
Proof.
  intros Hn. split.
  - apply take_app_le. exact Hn.
  - rewrite length_app. lia.
Qed.

Lemma same_below_write h y o :
  (n <= y)%nat -> same_below n h (<[y := o]> h).
Proof.
  intros Hy. split.
  - apply take_insert_ge. exact Hy.
  - rewrite length_insert. lia.
Qed.

Lemma copies_from_alloc h memo a o :
  copies_from n h memo -> object_from n o ->
  copies_from n (h ++ [o]) (<[a := length h]> memo).
Proof.
  intros (Hn & Hmemo & Hclosed) Ho. split; [|split].
  - rewrite length_app. lia.
  - intros b y. rewrite lookup_insert. case_decide.
    + intros [= <-]. exact Hn.
    + apply Hmemo.
  - intros b o' Hb. rewrite lookup_app.
    destruct (h !! b) as [o''|] eqn:E.
    + intros [= <-]. apply (Hclosed b o'' Hb E).
    + destruct (b - length h)%nat; simpl; [intros [= <-]; exact Ho|].
      discriminate.
Qed.

Lemma copies_from_write h memo y o :
  copies_from n h memo -> object_from n o ->
  copies_from n (<[y := o]> h) memo.
Proof.
  intros (Hn & Hmemo & Hclosed) Ho. split; [|split].
  - rewrite length_insert. exact Hn.
  - exact Hmemo.
  - intros b o' Hb. rewrite list_lookup_insert. case_decide.
    + intros [= <-]. exact Ho.
    + apply Hclosed. exact Hb.
Qed.

Lemma append_at_ok h memo y v :
  copies_from n h memo -> (n <= y)%nat -> value_from n v ->
  same_below n h (append_at y v h) /\ copies_from n (append_at y v h) memo.
Proof.
  intros Hinv Hy Hv. unfold append_at.
  destruct (h !! y) as [[items|items|f]|] eqn:E;
    try (split; [apply same_below_refl|exact Hinv]).
  split; [apply same_below_write; exact Hy|].
  apply copies_from_write; [exact Hinv|].
  destruct Hinv as (_ & _ & Hclosed). specialize (Hclosed y _ Hy E).
  simpl in *. apply Forall_app. split; [exact Hclosed|].
  constructor; [exact Hv|constructor].
Qed.

Lemma Forall_dict_set {V : Type} (P : V -> Prop) k v items :
  Forall (fun kv => P (snd kv)) items -> P v ->
  Forall (fun kv : string * V => P (snd kv)) (dict_set k v items).
Proof.
  intros Hitems Hv. induction Hitems as [|[k' v'] items Hkv Hrest IH]; simpl.
  - constructor; [exact Hv|constructor].
  - destruct (String.eqb k k'); constructor; simpl; auto.
Qed.

Lemma Forall_dict_remove {V : Type} (P : V -> Prop) k items :
  Forall (fun kv => P (snd kv)) items ->
  Forall (fun kv : string * V => P (snd kv)) (dict_remove k items).
Proof.
  intros Hitems. induction Hitems as [|[k' v'] items Hkv Hrest IH]; simpl.
  - constructor.
  - destruct (String.eqb k k'); [assumption|constructor; assumption].
Qed.

Lemma Forall_dict_get {V : Type} (P : V -> Prop) k v items :
  Forall (fun kv : string * V => P (snd kv)) items ->
  dict_get k items = Some v -> P v.
Proof.
  intros Hitems. induction Hitems as [|[k' v'] items Hkv _ IH]; simpl.
  - discriminate.
  - destruct (String.eqb k k'); [intros [= <-]; exact Hkv|exact IH].
Qed.

Lemma setitem_at_ok h memo y k v :
  copies_from n h memo -> (n <= y)%nat -> value_from n v ->
  same_below n h (setitem_at y k v h)
  /\ copies_from n (setitem_at y k v h) memo.
Proof.
  intros Hinv Hy Hv. unfold setitem_at.
  destruct (h !! y) as [[items|items|f]|] eqn:E;
    try (split; [apply same_below_refl|exact Hinv]).
  split; [apply same_below_write; exact Hy|].
  apply copies_from_write; [exact Hinv|].
  destruct Hinv as (_ & _ & Hclosed). specialize (Hclosed y _ Hy E).
  simpl in *. apply Forall_dict_set; assumption.
Qed.

Lemma fill_list_ok copy y items :
  copy_ok copy -> (n <= y)%nat ->
  forall h memo h' memo',
    copies_from n h memo ->
    fill_list copy y items h memo = Some (h', memo') ->
    same_below n h h' /\ copies_from n h' memo'.
Proof.
  intros Hcopy Hy. induction items as [|item rest IH];
    intros h memo h' memo' Hinv; simpl.
  - intros [= <- <-]. split; [apply same_below_refl|exact Hinv].
  - destruct (copy item h memo) as [[[v h1] memo1]|] eqn:E; [|discriminate].
    simpl. intros Hfill.
    destruct (Hcopy _ _ _ _ _ _ Hinv E) as (Hs1 & Hinv1 & Hv).
    destruct (append_at_ok h1 memo1 y v Hinv1 Hy Hv) as (Hs2 & Hinv2).
    destruct (IH _ _ _ _ Hinv2 Hfill) as (Hs3 & Hinv3).
    split; [|exact Hinv3].
    eapply same_below_trans; [exact Hs1|].
    eapply same_below_trans; [exact Hs2|exact Hs3].
Qed.

Lemma fill_dict_ok copy y items :
  copy_ok copy -> (n <= y)%nat ->
  forall h memo h' memo',
    copies_from n h memo ->
    fill_dict copy y items h memo = Some (h', memo') ->
    same_below n h h' /\ copies_from n h' memo'.
Proof.
  intros Hcopy Hy. induction items as [|[k item] rest IH];
    intros h memo h' memo' Hinv; simpl.
  - intros [= <- <-]. split; [apply same_below_refl|exact Hinv].
  - destruct (copy item h memo) as [[[v h1] memo1]|] eqn:E; [|discriminate].
    simpl. intros Hfill.
    destruct (Hcopy _ _ _ _ _ _ Hinv E) as (Hs1 & Hinv1 & Hv).
    destruct (setitem_at_ok h1 memo1 y k v Hinv1 Hy Hv) as (Hs2 & Hinv2).
    destruct (IH _ _ _ _ Hinv2 Hfill) as (Hs3 & Hinv3).
    split; [|exact Hinv3].
    eapply same_below_trans; [exact Hs1|].
    eapply same_below_trans; [exact Hs2|exact Hs3].
Qed.

(** A deep copy allocates at [n] and above and writes nowhere else. *)
Lemma deepcopy_ok fuel : copy_ok (deepcopy fuel).
Proof.
  induction fuel as [|fuel IH]; intros x h memo v h' memo' Hinv;
    (destruct x as [| | |a];
     [intros [= <- <- <-]; split; [apply same_below_refl|split; [exact Hinv|exact I]]..|]);
    simpl; destruct (memo !! a) as [y|] eqn:Ememo.
  - intros [= <- <- <-]. split; [apply same_below_refl|]. split; [exact Hinv|].
    destruct Hinv as (_ & Hmemo & _). apply (Hmemo a y Ememo).
  - discriminate.
  - intros [= <- <- <-]. split; [apply same_below_refl|]. split; [exact Hinv|].
    destruct Hinv as (_ & Hmemo & _). apply (Hmemo a y Ememo).
  - pose proof Hinv as (Hn & _ & _).
    destruct (h !! a) as [[items|items|f]|] eqn:Eobj; [| | |discriminate].
    + destruct (fill_dict _ _ _ _ _) as [[h1 memo1]|] eqn:Efill;
        [|discriminate].
      simpl. intros [= <- <- <-].
      assert (Halloc : copies_from n (h ++ [ODict []])
                         (<[a := length h]> memo))
        by (apply copies_from_alloc; [exact Hinv|constructor]).
      destruct (fill_dict_ok _ _ _ IH Hn _ _ _ _ Halloc Efill) as (Hs & Hinv1).
      split; [|split; [exact Hinv1|exact Hn]].
      eapply same_below_trans; [apply same_below_alloc; exact Hn|exact Hs].
    + destruct (fill_list _ _ _ _ _) as [[h1 memo1]|] eqn:Efill;
        [|discriminate].
      simpl. intros [= <- <- <-].
      assert (Halloc : copies_from n (h ++ [OList []])
                         (<[a := length h]> memo))
        by (apply copies_from_alloc; [exact Hinv|constructor]).
      destruct (fill_list_ok _ _ _ IH Hn _ _ _ _ Halloc Efill) as (Hs & Hinv1).
      split; [|split; [exact Hinv1|exact Hn]].
      eapply same_below_trans; [apply same_below_alloc; exact Hn|exact Hs].
    + intros [= <- <- <-].
      split; [apply same_below_alloc; exact Hn|].
      split; [|exact Hn]. apply copies_from_alloc; [exact Hinv|exact I].
Qed.

Lemma subscript_from h memo v k x :
  copies_from n h memo -> value_from n v ->
  Heap.subscript h v k = Ok x -> value_from n x.
Proof.
  intros (_ & _ & Hclosed) Hv. unfold Heap.subscript.
  destruct v as [| | |a]; try discriminate.
  destruct (h !! a) as [[items|items|f]|] eqn:E; try discriminate.
  destruct (dict_get k items) as [x'|] eqn:Eget; [|discriminate].
  intros [= <-]. specialize (Hclosed a _ Hv E). simpl in Hclosed.
  apply (Forall_dict_get _ _ _ _ Hclosed Eget).
Qed.

Lemma iterate_from h memo v elements :
  copies_from n h memo -> value_from n v ->
  Heap.iterate h v = Ok elements -> Forall (value_from n) elements.
Proof.
  intros (_ & _ & Hclosed) Hv. unfold Heap.iterate.
  destruct v as [|s| |a]; try discriminate.
  - intros [= <-]. clear. induction (list_ascii_of_string s); simpl;
      constructor; [exact I|assumption].
  - destruct (h !! a) as [[items|items|f]|] eqn:E; try discriminate;
      intros [= <-].
    + clear. induction items; simpl; constructor; [exact I|assumption].
    + apply (Hclosed a _ Hv E).
Qed.

Lemma clear_all_ok elements :
  Forall (value_from n) elements ->
  forall h r h',
    clear_all h elements = (r, h') -> same_below n h h'.
Proof.
  induction 1 as [|input_ rest Hin _ IH]; intros h r h'; simpl.
  - intros [= <- <-]. apply same_below_refl.
  - unfold clear_fulfillment.
    destruct input_ as [| | |a];
      try (intros [= <- <-]; apply same_below_refl).
    destruct (h !! a) as [[items|items|f]|] eqn:E;
      try (intros [= <- <-]; apply same_below_refl).
    intros Hrest. eapply same_below_trans; [|apply (IH _ _ _ Hrest)].
    apply same_below_write. exact Hin.
Qed.

Lemma remove_signatures_ok fuel h memo tx_dict r h' :
  copies_from n h memo ->
  Heap._remove_signatures fuel h tx_dict = Some (r, h') ->
  same_below n h h'.
Proof.
  intros Hinv. unfold Heap._remove_signatures.
  destruct (deepcopy fuel tx_dict h ∅) as [[[v h1] memo1]|] eqn:E;
    [|discriminate].
  simpl.
  assert (Hinv0 : copies_from n h ∅).
  { destruct Hinv as (Hn & _ & Hclosed). split; [exact Hn|]. split;
      [intros a y; rewrite lookup_empty; discriminate|exact Hclosed]. }
  destruct (deepcopy_ok fuel _ _ _ _ _ _ Hinv0 E) as (Hs1 & Hinv1 & Hv).
  destruct (Heap.subscript h1 v "inputs") as [inputs|e] eqn:Esub;
    [|intros [= <- <-]; exact Hs1].
  pose proof (subscript_from _ _ _ _ _ Hinv1 Hv Esub) as Hinputs.
  destruct (Heap.iterate h1 inputs) as [elements|e] eqn:Eit;
    [|intros [= <- <-]; exact Hs1].
  pose proof (iterate_from _ _ _ _ Hinv1 Hinputs Eit) as Helements.
  destruct (clear_all h1 elements) as [r' h2] eqn:Eclear.
  pose proof (clear_all_ok _ Helements _ _ _ Eclear) as Hs2.
  destruct r'; intros [= <- <-];
    (eapply same_below_trans; [exact Hs1|exact Hs2]).
Qed.
End frame.

Lemma same_below_length h h' :
  Heap.same_below (length h) h h' -> exists allocated, h' = h ++ allocated.
Proof.
  intros [Htake _]. exists (drop (length h) h').
  rewrite <- (take_drop (length h) h') at 1. rewrite Htake.
  rewrite take_ge by lia. reflexivity.
Qed.

Lemma load_app fuel h allocated v t :
  Heap.load fuel h v = Some t -> Heap.load fuel (h ++ allocated) v = Some t.
Proof.
  revert v t. induction fuel as [|fuel IH]; intros v t;
    (destruct v as [| | |a]; [auto..|]); simpl; [discriminate|].
  destruct (h !! a) as [o|] eqn:E; [|discriminate].
  rewrite (lookup_app_l_Some _ _ _ _ E).
  destruct o as [items|items|f]; [| |auto].
  - destruct (mapM _ items) as [kvs|] eqn:Em; [|discriminate].
    intros [= <-].
    assert (Hm : mapM (fun kv => pair (fst kv)
                                   <$> Heap.load fuel (h ++ allocated) (snd kv))
                   items = Some kvs).
    { apply mapM_Some. apply mapM_Some in Em. clear E.
      induction Em as [|kx y items kvs Hxy _ IHm]; [constructor|].
      constructor; [|exact IHm].
      destruct kx as [k x]. simpl in *.
      destruct (Heap.load fuel h x) as [t|] eqn:El; [|discriminate].
      rewrite (IH _ _ El). exact Hxy. }
    rewrite Hm. reflexivity.
  - destruct (mapM _ items) as [ts|] eqn:Em; [|discriminate].
    intros [= <-].
    assert (Hm : mapM (Heap.load fuel (h ++ allocated)) items = Some ts).
    { apply mapM_Some. apply mapM_Some in Em. clear E.
      induction Em as [|x y items ts Hxy _ IHm]; [constructor|].
      constructor; [apply IH; exact Hxy|exact IHm]. }
    rewrite Hm. reflexivity.
Qed.

(** C10.  Whenever [validate_id] returns or raises, the heap it leaves
    is the heap it was called in followed by the objects it allocated:
    every object of the caller is where it was and as it was, so the
    dictionary passed stands for the same tree as before, with its id and
    the fulfillments of its inputs. *)
Theorem validate_id_leaves_argument {X : Externals} fuel h tx_body r h' :
  Heap.validate_id fuel h tx_body = Some (r, h') ->
  (exists allocated, h' = h ++ allocated)
  /\ (forall a o, h !! a = Some o -> h' !! a = Some o)
  /\ (forall fuel' tree,
         Heap.load fuel' h tx_body = Some tree ->
         Heap.load fuel' h' tx_body = Some tree).
Proof.
  intros Hrun.
  assert (Hsame : Heap.same_below (length h) h h').
  { revert Hrun. unfold Heap.validate_id.
    assert (Hinv0 : Heap.copies_from (length h) h ∅).
    { split; [lia|]. split.
      - intros a y. rewrite lookup_empty. discriminate.
      - intros a o Ha Hlook. apply lookup_lt_Some in Hlook. lia. }
    destruct (Heap.deepcopy fuel tx_body h ∅) as [[[v h1] memo1]|] eqn:E;
      [|discriminate].
    simpl.
    destruct (deepcopy_ok (length h) fuel _ _ _ _ _ _ Hinv0 E)
      as (Hs1 & Hinv1 & Hv).
    destruct v as [| | |a]; try (intros [= <- <-]; exact Hs1).
    destruct (h1 !! a) as [[items|items|f]|] eqn:Eobj;
      try (intros [= <- <-]; exact Hs1).
    destruct (dict_get "id" items) as [proposed|] eqn:Eid;
      [|intros [= <- <-]; exact Hs1].
    set (h2 := <[a := Heap.ODict (dict_remove "id" items)]> h1).
    assert (Hs2 : Heap.same_below (length h) h1 h2)
      by (apply same_below_write; exact Hv).
    assert (Hinv2 : Heap.copies_from (length h) h2 memo1).
    { apply copies_from_write; [exact Hinv1|].
      destruct Hinv1 as (_ & _ & Hclosed). specialize (Hclosed a _ Hv Eobj).
      simpl in *. apply Forall_dict_remove. exact Hclosed. }
    destruct (Heap._remove_signatures fuel h2 (Heap.VRef a))
      as [[r' h3]|] eqn:Erm; [|discriminate].
    simpl.
    pose proof (remove_signatures_ok _ _ _ _ _ _ _ Hinv2 Erm) as Hs3.
    assert (Hs : Heap.same_below (length h) h h3).
    { eapply same_below_trans; [exact Hs1|].
      eapply same_below_trans; [exact Hs2|exact Hs3]. }
    destruct r' as [tx|e]; [|intros [= <- <-]; exact Hs].
    destruct (Heap.load fuel h3 tx) as [tree|]; [|discriminate]. simpl.
    case_bool_decide; intros [= <- <-]; exact Hs. }
  destruct (same_below_length h h' Hsame) as [allocated ->].
  split; [eauto|]. split.
  - intros a o. apply lookup_app_l_Some.
  - intros fuel' tree. apply load_app.
Qed.

(** The dictionary of the sample [CREATE] transaction, stored in an empty
    heap: [validate_id] accepts it, and the dictionary is still there. *)
Lemma validate_id_leaves_argument_witness :
  let tx := fst (Heap.store Toy.create_tx_dict []) in
  let h := snd (Heap.store Toy.create_tx_dict []) in
  exists h',
    Heap.validate_id (X := Toy.externals) 8 h tx = Some (Ok tt, h')
    /\ Heap.load 8 h' tx = Some Toy.create_tx_dict.
Proof.
  intros tx h.
  destruct (Heap.validate_id (X := Toy.externals) 8 h tx)
    as [[[[]|e] h']|] eqn:E; try (vm_compute in E; discriminate E).
  exists h'. split; [reflexivity|].
  destruct (validate_id_leaves_argument (X := Toy.externals) 8 h tx _ h' E)
    as (_ & _ & Hload).
  apply Hload. vm_compute. reflexivity.
Defined.

(** ** [to_inputs] *)

Section to_inputs_facts.
Import Heap.
Context {X : Externals}.

Lemma py_index_middle {A : Type} (done : list A) x rest :
  py_index (done ++ x :: rest) (Z.of_nat (length done)) = Ok x.
Proof.
  unfold py_index.
  destruct (Z.ltb_spec (Z.of_nat (length done)) 0) as [|_]; [lia|].
  rewrite length_app. simpl length.
  destruct (Z.leb_spec 0 (Z.of_nat (length done))) as [_|]; [|lia].
  destruct (Z.ltb_spec (Z.of_nat (length done))
              (Z.of_nat (length done + S (length rest)))) as [_|]; [|lia].
  simpl. rewrite Nat2Z.id, list_lookup_middle by reflexivity. reflexivity.
Qed.

Lemma map_result2_inputs_from fuel h self self_id rest :
  id fuel h self = Some (Ok self_id) ->
  Forall (fun output => is_list h (public_keys output)) rest ->
  forall done,
    outputs self = done ++ rest ->
    map_result2
      (fun idx =>
         bind2 (Some (py_index (outputs self) idx)) (fun output =>
         bind2 (id fuel h self) (fun self_id =>
         Some (Input__init__ h (fulfillment output) (public_keys output)
                 (Some (TransactionLink.mk self_id (PInt idx)))))))
      (List.map Z.of_nat (seq (length done) (length rest)))
    = Some (Ok (inputs_from self_id (length done) rest)).
Proof.
  intros Hid.
  set (f := fun idx : Z => bind2 _ _).
  induction 1 as [|output rest (a & items & Hv & Ha) _ IH]; intros done Hout.
  - reflexivity.
  - cbn [length seq List.map map_result2 inputs_from].
    assert (Hf : f (Z.of_nat (length done))
                 = Some (Ok (mkInput (fulfillment output) (public_keys output)
                               (Some (TransactionLink.mk self_id
                                        (PInt (Z.of_nat (length done)))))))).
    { subst f. cbv beta. rewrite Hout, py_index_middle. cbn [bind2].
      rewrite Hid. cbn [bind2].
      unfold Input__init__. rewrite Hv, Ha. reflexivity. }
    rewrite Hf. cbn [bind2].
    specialize (IH (done ++ [output])).
    rewrite length_app in IH. cbn [length] in IH.
    rewrite Nat.add_1_r in IH. rewrite IH.
    + reflexivity.
    + rewrite Hout, <- app_assoc. reflexivity.
Qed.

Lemma map_result2_raise {A B : Type} (f : A -> option (result B)) e
    before x after :
  Forall (fun x => exists y, f x = Some (Ok y)) before ->
  f x = Some (Raise e) ->
  map_result2 f (before ++ x :: after) = Some (Raise e).
Proof.
  intros Hbefore Hx. induction Hbefore as [|x0 rest [y Hy] _ IH]; simpl.
  - rewrite Hx. reflexivity.
  - rewrite Hy. simpl. rewrite IH. reflexivity.
Qed.

Lemma seq_middle (done rest : nat) :
  seq 0 (done + S rest) = seq 0 done ++ done :: seq (S done) rest.
Proof. rewrite seq_app. reflexivity. Qed.

(** C9, as the code has it.  [to_inputs] with an empty list of indices
    is [to_inputs] without indices, for every transaction.  When the id
    of the transaction is computed and the public keys of every output
    are a list, the result is one input per output, which holds the very
    fulfillment and the very list of public keys that the output holds,
    the same objects and not copies, with a link to the id of the
    transaction and the position of the output.  When the id is computed
    and the public keys of some output are not a list, as in an output
    without owners, the call raises [TypeError]. *)
Theorem to_inputs_shares fuel h self :
  to_inputs fuel h self (Some []) = to_inputs fuel h self None
  /\ (forall self_id,
         id fuel h self = Some (Ok self_id) ->
         Forall (fun output => is_list h (public_keys output))
           (outputs self) ->
         to_inputs fuel h self None
         = Some (Ok (inputs_from self_id 0 (outputs self)))
         /\ length (inputs_from self_id 0 (outputs self))
            = length (outputs self)
         /\ Forall2 (fun output input_ =>
                       input_fulfillment input_ = fulfillment output
                       /\ owners_before input_ = public_keys output)
              (outputs self) (inputs_from self_id 0 (outputs self)))
  /\ (forall self_id,
         id fuel h self = Some (Ok self_id) ->
         ~ Forall (fun output => is_list h (public_keys output))
             (outputs self) ->
         to_inputs fuel h self None = Some (Raise TypeError)).
Proof.
  split; [reflexivity|]. split.
  - intros self_id Hid Hlists. split; [|split].
    + unfold to_inputs, range.
      apply (map_result2_inputs_from fuel h self self_id (outputs self) Hid
               Hlists []).
      reflexivity.
    + clear. generalize 0%nat. induction (outputs self) as [|o rest IH];
        intros k; simpl; [reflexivity|]. rewrite IH. reflexivity.
    + clear. generalize 0%nat. induction (outputs self) as [|o rest IH];
        intros k; simpl; constructor; [split; reflexivity|apply IH].
  - intros self_id Hid Hnot.
    assert (Hsplit : exists done output rest,
               outputs self = done ++ output :: rest
               /\ Forall (fun output => is_list h (public_keys output)) done
               /\ ~ is_list h (public_keys output)).
    { revert Hnot. generalize (outputs self). intros os.
      induction os as [|o os IH]; intros Hnot.
      - exfalso. apply Hnot. constructor.
      - assert (Hdec : is_list h (public_keys o)
                       \/ ~ is_list h (public_keys o)).
        { unfold is_list. destruct (public_keys o) as [| | |a];
            try (right; intros (? & ? & Hv & _); discriminate Hv).
          destruct (h !! a) as [[| |]|] eqn:Ea;
            try (right; intros (a' & items' & [= <-] & Hh);
                 rewrite Ea in Hh; discriminate Hh).
          left. eauto. }
        destruct Hdec as [Ho|Ho].
        + destruct IH as (done & output & rest & -> & Hdone & Hout).
          { intros Hos. apply Hnot. constructor; assumption. }
          exists (o :: done), output, rest.
          split; [reflexivity|]. split; [constructor; assumption|exact Hout].
        + exists [], o, os. split; [reflexivity|]. split; [constructor|exact Ho]. }
    destruct Hsplit as (done & output & rest & Hout & Hdone & Hbad).
    unfold to_inputs, range. rewrite Hout at 1.
    rewrite length_app. cbn [length]. rewrite seq_middle, map_app.
    cbn [List.map].
    apply map_result2_raise.
    + apply Forall_forall. intros idx Hidx.
      apply list_elem_of_fmap in Hidx as (k & -> & Hk).
      apply elem_of_seq in Hk. destruct Hk as [_ Hk]. simpl in Hk.
      destruct (lookup_lt_is_Some_2 done k Hk) as [o Ho].
      assert (Houtputs : outputs self
                         = take k done ++ o :: (drop (S k) done
                                                 ++ output :: rest)).
      { rewrite Hout. rewrite <- (take_drop_middle done k o Ho) at 1.
        rewrite <- app_assoc. reflexivity. }
      assert (Hlen : length (take k done) = k)
        by (rewrite length_take; lia).
      pose proof (py_index_middle (take k done) o
                    (drop (S k) done ++ output :: rest)) as Hidx.
      rewrite Hlen, <- Houtputs in Hidx. rewrite Hidx. cbn [bind2].
      rewrite Hid. cbn [bind2].
      rewrite Forall_forall in Hdone.
      destruct (Hdone o) as (a & items & Hv & Ha);
        [eapply list_elem_of_lookup_2; exact Ho|].
      unfold Input__init__. rewrite Hv, Ha. eauto.
    + rewrite Hout, py_index_middle. cbn [bind2]. rewrite Hid. cbn [bind2].
      unfold Input__init__. unfold is_list in Hbad.
      destruct (public_keys output) as [| | |a]; try reflexivity.
      destruct (h !! a) as [[| |]|] eqn:Ea; try reflexivity.
      exfalso. apply Hbad. eauto.
Qed.
End to_inputs_facts.

(** The sample transaction of references. *)
Lemma to_inputs_shares_witness :
  exists self_id,
    Heap.to_inputs (X := Toy.externals) 4 Toy.objects Toy.create_tx_object
      (Some [])
    = Some (Ok [Heap.mkInput (Heap.VRef 2) (Heap.VRef 3)
                  (Some (TransactionLink.mk self_id (PInt 0)))]).
Proof.
  destruct (Heap.id (X := Toy.externals) 4 Toy.objects Toy.create_tx_object)
    as [[self_id|e]|] eqn:E; try (vm_compute in E; discriminate E).
  exists self_id.
  destruct (to_inputs_shares (X := Toy.externals) 4 Toy.objects
              Toy.create_tx_object) as (Hempty & Hall & _).
  rewrite Hempty.
  destruct (Hall self_id E) as (Hinputs & _).
  - repeat constructor. exists 3%nat, [Heap.VStr "Pb"]. split; reflexivity.
  - exact Hinputs.
Defined.

(** C9, as it is stated, at the sample transaction: the input returned
    holds the fulfillment of the output itself, at the same address, and
    so no clone of it. *)
Lemma to_inputs_no_clone :
  exists inputs,
    Heap.to_inputs (X := Toy.externals) 4 Toy.objects Toy.create_tx_object
      (Some [])
    = Some (Ok inputs)
    /\ ~ Heap.carries_clones Toy.objects
           (Heap.outputs Toy.create_tx_object) inputs.
Proof.
  eexists. split; [vm_compute; reflexivity|].
  intros Hclones. inversion Hclones as [|o i os is' [Hne _] _]; subst.
  apply Hne. reflexivity.
Qed.

(** * Further properties of the code *)

(** ** The constructor of a transaction *)

Section constructor.
Context {X : Externals}.

(** X1.  A transaction returned by the constructor has an allowed
    operation, an asset of the shape its operation requires ([None] or a
    dictionary holding [data] for [CREATE] and [GENESIS], a dictionary
    holding [id] for [TRANSFER]), metadata that is [None] or a dictionary,
    and a version that is set, [VERSION] when none was given; the
    constructor returns it again on its own fields. *)
Theorem init_constructed operation asset inputs outputs metadata version self :
  Transaction.__init__ operation asset inputs outputs metadata version
  = Ok self ->
  constructed self
  /\ operation = PStr (Transaction.operation self)
  /\ Transaction.operation self ∈ Transaction.ALLOWED_OPERATIONS
  /\ Transaction.asset self = asset
  /\ (Transaction.operation self = Transaction.TRANSFER ->
      Transaction.dict_holding "id" asset = true)
  /\ (Transaction.operation self <> Transaction.TRANSFER ->
      asset = PNone \/ Transaction.dict_holding "data" asset = true)
  /\ Transaction.inputs self = Transaction.from_option inputs
  /\ Transaction.outputs self = Transaction.from_option outputs
  /\ Transaction.metadata self = metadata
  /\ (metadata = PNone \/ Transaction.is_dict metadata = true)
  /\ Transaction.version self
     = (if Transaction.is_None version then PStr VERSION else version)
  /\ Transaction.version self <> PNone.
Proof.
  unfold constructed, Transaction.__init__.
  destruct operation as [|op| | | |]; try discriminate.
  destruct (bool_decide (op ∈ Transaction.ALLOWED_OPERATIONS)) eqn:Eop;
    [|discriminate].
  destruct (bool_decide (op ∈ [Transaction.CREATE; Transaction.GENESIS])
            && negb (Transaction.is_None asset)
            && negb (Transaction.dict_holding "data" asset)) eqn:Ecreate;
    [discriminate|].
  destruct (String.eqb op Transaction.TRANSFER
            && negb (Transaction.dict_holding "id" asset)) eqn:Etransfer;
    [discriminate|].
  destruct (negb (Transaction.is_None metadata)
            && negb (Transaction.is_dict metadata)) eqn:Emeta;
    [discriminate|].
  intros [= <-]. simpl. rewrite Eop, Ecreate, Etransfer, Emeta.
  assert (Hv : (if Transaction.is_None version then PStr VERSION else version)
               <> PNone)
    by (destruct version; simpl; discriminate).
  assert (Hv' : Transaction.is_None
                  (if Transaction.is_None version then PStr VERSION
                   else version) = false)
    by (destruct version; reflexivity).
  rewrite Hv'.
  apply bool_decide_eq_true in Eop.
  repeat split; auto.
  - intros ->. rewrite String.eqb_refl in Etransfer. simpl in Etransfer.
    destruct (Transaction.dict_holding "id" asset); [reflexivity|discriminate].
  - intros Hne.
    assert (Hcg : op ∈ [Transaction.CREATE; Transaction.GENESIS]).
    { unfold Transaction.ALLOWED_OPERATIONS in Eop.
      rewrite !elem_of_cons in Eop. rewrite !elem_of_cons.
      destruct Eop as [->|[->|[->|H]]]; auto. contradiction. }
    rewrite (bool_decide_eq_true_2 _ Hcg) in Ecreate. simpl in Ecreate.
    destruct asset; simpl in *; auto;
      destruct (bool_decide _); auto; discriminate.
  - destruct metadata; simpl in *; auto; discriminate.
Qed.

(** X2.  The constructor refuses an operation that is not one of the
    strings [CREATE], [TRANSFER] and [GENESIS] with [ValueError], an
    asset of the wrong shape with [TypeError], whatever the other
    arguments, and metadata that are neither [None] nor a dictionary with
    [TypeError]. *)
Theorem init_rejects operation asset inputs outputs metadata version :
  ((forall op, operation = PStr op -> op ∉ Transaction.ALLOWED_OPERATIONS) ->
   Transaction.__init__ operation asset inputs outputs metadata version
   = Raise ValueError)
  /\ (operation = PStr Transaction.TRANSFER ->
      Transaction.dict_holding "id" asset = false ->
      Transaction.__init__ operation asset inputs outputs metadata version
      = Raise TypeError)
  /\ (operation = PStr Transaction.CREATE
      \/ operation = PStr Transaction.GENESIS ->
      asset <> PNone -> Transaction.dict_holding "data" asset = false ->
      Transaction.__init__ operation asset inputs outputs metadata version
      = Raise TypeError)
  /\ (forall self,
         Transaction.__init__ operation asset inputs outputs PNone version
         = Ok self ->
         metadata <> PNone -> Transaction.is_dict metadata = false ->
         Transaction.__init__ operation asset inputs outputs metadata version
         = Raise TypeError).
Proof.
  split; [|split; [|split]].
  - intros Hop. unfold Transaction.__init__.
    destruct operation as [|op| | | |]; try reflexivity.
    rewrite bool_decide_eq_false_2 by (apply Hop; reflexivity). reflexivity.
  - intros -> Hid. unfold Transaction.__init__. rewrite Hid. reflexivity.
  - intros Hop Hne Hdata. unfold Transaction.__init__.
    destruct Hop as [-> | ->]; rewrite Hdata;
      destruct asset; try congruence; reflexivity.
  - intros self. unfold Transaction.__init__.
    destruct operation as [|op| | | |]; try discriminate.
    destruct (bool_decide (op ∈ Transaction.ALLOWED_OPERATIONS));
      [|discriminate].
    destruct (_ && _ && _); [discriminate|].
    destruct (_ && _); [discriminate|].
    intros _ Hne Hdict. rewrite Hdict.
    destruct metadata; try congruence; reflexivity.
Qed.
End constructor.

(** The constructor on the fields of the sample [CREATE] transaction. *)
Lemma init_constructed_witness :
  constructed (X := Toy.externals) Toy.create_tx
  /\ Transaction.version Toy.create_tx <> PNone.
Proof.
  destruct (init_constructed (X := Toy.externals) (PStr "CREATE")
              (PDict [("data", PNone)]) (Some [Toy.input_a])
              (Some [Toy.output_a]) PNone PNone Toy.create_tx eq_refl)
    as (Hc & _ & _ & _ & _ & _ & _ & _ & _ & _ & _ & Hv).
  split; assumption.
Defined.

(** A transfer without an asset id, and an operation that does not
    exist. *)
Lemma init_rejects_witness :
  Transaction.__init__ (X := Toy.externals) (PStr "TRANSFER")
    (PDict [("data", PNone)]) None None PNone PNone = Raise TypeError
  /\ Transaction.__init__ (X := Toy.externals) (PStr "MINT") PNone None None
       PNone PNone = Raise ValueError.
Proof.
  split.
  - destruct (init_rejects (X := Toy.externals) (PStr "TRANSFER")
                (PDict [("data", PNone)]) None None PNone PNone)
      as (_ & H & _).
    apply H; reflexivity.
  - destruct (init_rejects (X := Toy.externals) (PStr "MINT") PNone None None
                PNone PNone) as (H & _).
    apply H.
    intros op [= <-]. unfold Transaction.ALLOWED_OPERATIONS.
    rewrite !elem_of_cons. intros [E|[E|[E|E]]]; try discriminate E.
    inversion E.
Defined.

(** ** Outputs *)

Section outputs_more.
Context {X : Externals}.

Lemma Output_init_Ok fulfillment public_keys amount output :
  Output.__init__ fulfillment public_keys amount = Ok output ->
  1 <= amount <= Output.MAX_AMOUNT
  /\ exists pks,
      public_keys = Output.public_keys_value pks
      /\ output = Output.mk fulfillment pks amount.
Proof.
  unfold Output.__init__.
  destruct public_keys as [| | |l| |]; simpl; try discriminate;
    destruct (Z.ltb_spec amount 1); try discriminate;
    destruct (Z.ltb_spec Output.MAX_AMOUNT amount); try discriminate;
    intros [= <-]; (split; [lia|]).
  - exists None. split; reflexivity.
  - exists (Some l). split; reflexivity.
Qed.

(** X3.  Every output that [Output], [Output.generate] or
    [Output.from_dict] returns has an amount between 1 and [9 * 10^18];
    [generate] keeps the amount and the owner list it was given, and the
    owner list is a list that is not empty. *)
Theorem Output_within_bounds :
  (forall fulfillment public_keys amount output,
      Output.__init__ fulfillment public_keys amount = Ok output ->
      1 <= Output.amount output <= 9 * 10 ^ 18
      /\ Output.amount output = amount
      /\ Output.fulfillment output = fulfillment)
  /\ (forall public_keys amount output,
         Output.generate public_keys amount = Ok output ->
         1 <= Output.amount output <= 9 * 10 ^ 18
         /\ Output.amount output = amount
         /\ exists l, public_keys = PList l /\ l <> []
                      /\ Output.public_keys output = Some l)
  /\ (forall data output,
         Output.from_dict data = Ok output ->
         1 <= Output.amount output <= 9 * 10 ^ 18).
Proof.
  assert (Hinit : forall fulfillment public_keys amount output,
             Output.__init__ fulfillment public_keys amount = Ok output ->
             1 <= Output.amount output <= 9 * 10 ^ 18
             /\ Output.amount output = amount
             /\ Output.fulfillment output = fulfillment
             /\ Output.public_keys_value (Output.public_keys output)
                = public_keys).
  { intros f pk a o H.
    destruct (Output_init_Ok f pk a o H) as (Hb & pks & -> & ->). simpl.
    unfold Output.MAX_AMOUNT in Hb. auto. }
  split; [|split].
  - intros f pk a o H. destruct (Hinit f pk a o H) as (? & ? & ? & _). auto.
  - intros pk a o. unfold Output.generate.
    destruct pk as [| | |l| |]; try discriminate;
      try (destruct (a <? 1); discriminate).
    destruct (a <? 1); [discriminate|].
    assert (Hl : forall f, Output.__init__ f (PList l) a = Ok o ->
                 l <> [] ->
                 1 <= Output.amount o <= 9 * 10 ^ 18
                 /\ Output.amount o = a
                 /\ exists l', PList l = PList l' /\ l' <> []
                               /\ Output.public_keys o = Some l').
    { intros f H Hne. destruct (Hinit f _ a o H) as (Hb & Ha & _ & Hpk).
      split; [exact Hb|]. split; [exact Ha|]. exists l.
      split; [reflexivity|]. split; [exact Hne|].
      destruct (Output.public_keys o); simpl in Hpk; congruence. }
    destruct l as [|x [|y l']]; [discriminate| |].
    + destruct x;
        try (intros H; apply (Hl _ H); discriminate).
      destruct (Output.reduce _ _ _) as [c|]; simpl; [|discriminate].
      intros H. apply (Hl _ H). discriminate.
    + destruct x; cbv beta iota zeta;
        (destruct (Output.reduce _ _ _) as [c|]; simpl; [|discriminate]);
        intros H; apply (Hl _ H); discriminate.
  - intros data o. unfold Output.from_dict.
    destruct (Output.condition_from_dict data) as [f|]; [|discriminate].
    simpl. destruct (subscript data "amount") as [av|]; [|discriminate].
    simpl. destruct (Output.amount_from_value av) as [a|]; [|discriminate].
    simpl. destruct (subscript data "public_keys") as [pk|]; [|discriminate].
    simpl. intros H. destruct (Hinit f pk a o H) as (? & _). assumption.
Qed.

(** X4.  An output whose fulfillment is not a [cryptoconditions] object,
    such as the condition URI of a hashlock, is written without the field
    [details], and [from_dict] on its dictionary returns the output
    itself. *)
Theorem Output_uri_round_trip output :
  output_constructed output ->
  (forall f, Output.fulfillment output <> PFulfillment f) ->
  Output.from_dict (Output.to_dict output) = Ok output
  /\ exists public_keys amount,
      Output.to_dict output
      = PDict [("public_keys", public_keys);
               ("condition", PDict [("uri", Output.fulfillment output)]);
               ("amount", amount)].
Proof.
  intros Hc Hobj. pose proof (output_constructed_bounds output Hc) as Hb.
  assert (Hd : Output.to_dict output
               = PDict [("public_keys",
                         Output.public_keys_value (Output.public_keys output));
                        ("condition",
                         PDict [("uri", Output.fulfillment output)]);
                        ("amount", PStr (py_str (Output.amount output)))]).
  { unfold Output.to_dict.
    destruct (Output.fulfillment output) as [| | | | |f]; try reflexivity.
    exfalso. apply (Hobj f). reflexivity. }
  split; [|rewrite Hd; eauto].
  rewrite (Output_from_dict_amount _ (Output.fulfillment output)
             (py_str (Output.amount output)) (Output.public_keys output)).
  - rewrite py_int_py_str, Hb. destruct output; reflexivity.
  - rewrite Hd. reflexivity.
  - rewrite Hd. reflexivity.
  - rewrite Hd. reflexivity.
Qed.
End outputs_more.

(** An output generated for two owners. *)
Lemma Output_within_bounds_witness :
  exists output,
    Output.generate (PList [PStr "A"; PStr "B"]) 7 = Ok output
    /\ 1 <= Output.amount output <= 9 * 10 ^ 18.
Proof.
  destruct (Output.generate (PList [PStr "A"; PStr "B"]) 7)
    as [output|e] eqn:E; [|vm_compute in E; discriminate E].
  exists output. split; [reflexivity|].
  destruct (Output_within_bounds (X := Toy.externals)) as (_ & H & _).
  apply (H _ _ _ E).
Defined.

(** A hashlock output. *)
Lemma Output_uri_round_trip_witness :
  Output.from_dict (X := Toy.externals)
    (Output.to_dict (X := Toy.externals)
       (Output.mk (PStr "cc:hashlock") None 1))
  = Ok (Output.mk (PStr "cc:hashlock") None 1).
Proof.
  apply (Output_uri_round_trip (X := Toy.externals)
           (Output.mk (PStr "cc:hashlock") None 1)).
  - reflexivity.
  - discriminate.
Defined.

(** ** Links *)

(** X5.  A link is written as [None] exactly when its two fields are
    [None]; reading what was written returns the link itself; a link
    that is true is never written as [None]; and anything that is not a
    dictionary is read as the empty link. *)
Theorem TransactionLink_round_trip_exact link :
  TransactionLink.from_dict (TransactionLink.to_dict link) = Ok link
  /\ (TransactionLink.to_dict link = PNone <->
      TransactionLink.txid link = PNone /\ TransactionLink.output link = PNone)
  /\ (TransactionLink.__bool__ link = true ->
      TransactionLink.to_dict link <> PNone)
  /\ (forall value,
         Transaction.is_dict value = false ->
         TransactionLink.from_dict value = Ok TransactionLink.empty).
Proof.
  destruct link as [txid output]. unfold TransactionLink.to_dict,
    TransactionLink.__bool__. simpl.
  split; [|split; [|split]].
  - destruct txid, output; reflexivity.
  - destruct txid, output; simpl; split; try discriminate; auto;
      intros [? ?]; discriminate.
  - destruct txid, output; simpl; discriminate.
  - intros value. destruct value; try discriminate; reflexivity.
Qed.

(** A link to the first output of a transaction. *)
Lemma TransactionLink_round_trip_exact_witness :
  TransactionLink.to_dict (TransactionLink.mk (PStr "t0") (PInt 0)) <> PNone
  /\ TransactionLink.from_dict (PStr "t0") = Ok TransactionLink.empty.
Proof.
  destruct (TransactionLink_round_trip_exact
              (TransactionLink.mk (PStr "t0") (PInt 0)))
    as (_ & _ & Hbool & Hother).
  split; [apply Hbool; reflexivity|apply Hother; reflexivity].
Defined.

(** ** Dictionaries: more laws of item assignment and [pop] *)

Lemma dict_set_set {V : Type} k (v v' : V) items :
  dict_set k v (dict_set k v' items) = dict_set k v items.
Proof.
  induction items as [|[k0 v0] items IH]; simpl.
  - rewrite String.eqb_refl. reflexivity.
  - destruct (String.eqb k k0) eqn:E; simpl.
    + rewrite String.eqb_refl. reflexivity.
    + rewrite E, IH. reflexivity.
Qed.

Lemma dict_remove_set {V : Type} k (v : V) items :
  dict_remove k (dict_set k v items) = dict_remove k items.
Proof.
  induction items as [|[k0 v0] items IH]; simpl.
  - rewrite String.eqb_refl. reflexivity.
  - destruct (String.eqb k k0) eqn:E; simpl.
    + rewrite String.eqb_refl. reflexivity.
    + rewrite E, IH. reflexivity.
Qed.

Lemma dict_get_remove_ne {V : Type} k k' (items : list (string * V)) :
  k <> k' -> dict_get k' (dict_remove k items) = dict_get k' items.
Proof.
  intros Hne. induction items as [|[k0 v0] items IH]; simpl.
  - reflexivity.
  - destruct (String.eqb k k0) eqn:E; simpl.
    + apply String.eqb_eq in E. subst k0.
      destruct (String.eqb k' k) eqn:E'; [|reflexivity].
      apply String.eqb_eq in E'. congruence.
    + rewrite IH. reflexivity.
Qed.

Lemma dict_remove_set_ne {V : Type} k k' (v : V) items :
  k <> k' ->
  dict_remove k (dict_set k' v items) = dict_set k' v (dict_remove k items).
Proof.
  intros Hne. induction items as [|[k0 v0] items IH]; simpl.
  - destruct (String.eqb k k') eqn:E; [|reflexivity].
    apply String.eqb_eq in E. congruence.
  - destruct (String.eqb k' k0) eqn:E1; destruct (String.eqb k k0) eqn:E2;
      simpl; rewrite ?E1, ?E2; try reflexivity.
    + apply String.eqb_eq in E1, E2. congruence.
    + destruct (String.eqb k k') eqn:E3; [|reflexivity].
      apply String.eqb_eq in E3. congruence.
    + rewrite IH. reflexivity.
Qed.

Lemma map_result_insert {A B : Type} (f : A -> result B) xs n x x' :
  xs !! n = Some x -> f x' = f x ->
  map_result f (<[n := x']> xs) = map_result f xs.
Proof.
  revert n. induction xs as [|y xs IH]; intros [|n]; simpl;
    try discriminate.
  - intros [= ->] ->. reflexivity.
  - intros Hn Hf. rewrite (IH n Hn Hf). reflexivity.
Qed.

Lemma map_result_Forall2 {A B : Type} (f : A -> result B) xs ys :
  map_result f xs = Ok ys <-> Forall2 (fun x y => f x = Ok y) xs ys.
Proof.
  revert ys. induction xs as [|x xs IH]; simpl; intros ys.
  - split.
    + intros [= <-]. constructor.
    + intros H. inversion H. reflexivity.
  - split.
    + intros H. destruct (f x) as [y|] eqn:Ey; [|discriminate].
      destruct (map_result f xs) as [ys'|] eqn:Eys; [|discriminate].
      simpl in H. injection H as <-. constructor; [exact Ey|].
      apply IH. reflexivity.
    + intros H. inversion H as [|? y ? ys' Hy Hys]; subst.
      rewrite Hy. apply IH in Hys. rewrite Hys. reflexivity.
Qed.

(** ** Signature removal and the check of the id *)

Section stripping.
Context {X : Externals}.

Lemma clear_fulfillment_Ok input_ cleared :
  Transaction.clear_fulfillment input_ = Ok cleared ->
  Transaction.clear_fulfillment cleared = Ok cleared
  /\ subscript cleared "fulfillment" = Ok PNone
  /\ forall k, k <> "fulfillment" -> subscript cleared k = subscript input_ k.
Proof.
  destruct input_ as [| | | |items|]; try discriminate.
  intros [= <-]. simpl. rewrite dict_set_set, dict_get_set_eq.
  split; [reflexivity|]. split; [reflexivity|].
  intros k Hk. rewrite dict_get_set_ne by congruence. reflexivity.
Qed.

Lemma clear_fulfillment_set items v :
  Transaction.clear_fulfillment (PDict (dict_set "fulfillment" v items))
  = Transaction.clear_fulfillment (PDict items).
Proof. simpl. rewrite dict_set_set. reflexivity. Qed.

Lemma remove_signatures_set_input items inputs n input_ v :
  dict_get "inputs" items = Some (PList inputs) ->
  inputs !! n = Some (PDict input_) ->
  Transaction._remove_signatures
    (PDict (dict_set "inputs"
              (PList (<[n := PDict (dict_set "fulfillment" v input_)]> inputs))
              items))
  = Transaction._remove_signatures (PDict items).
Proof.
  intros Hi Hn. unfold Transaction._remove_signatures. simpl.
  rewrite dict_get_set_eq, Hi. simpl.
  rewrite (map_result_insert _ _ _ _ _ Hn (clear_fulfillment_set input_ v)).
  destruct (map_result _ inputs) as [cleared|]; simpl; [|reflexivity].
  rewrite dict_set_set. reflexivity.
Qed.

(** X6.  What [_remove_signatures] returns has the fulfillment of every
    input set to [None] and every other field of every input, and every
    other field of the transaction, as in the argument; removing the
    signatures once more changes nothing. *)
Theorem remove_signatures_clears tx_dict stripped :
  Transaction._remove_signatures tx_dict = Ok stripped ->
  Transaction._remove_signatures stripped = Ok stripped
  /\ (forall k, k <> "inputs" -> subscript stripped k = subscript tx_dict k)
  /\ (forall inputs,
         subscript tx_dict "inputs" = Ok (PList inputs) ->
         exists cleared,
           subscript stripped "inputs" = Ok (PList cleared)
           /\ Forall2
                (fun input_ c =>
                   subscript c "fulfillment" = Ok PNone
                   /\ forall k, k <> "fulfillment" ->
                                subscript c k = subscript input_ k)
                inputs cleared).
Proof.
  intros H. pose proof H as H0. unfold Transaction._remove_signatures in H.
  destruct tx_dict as [| | | |items|]; try discriminate.
  simpl in H. destruct (dict_get "inputs" items) as [inputs|] eqn:Ei;
    [|discriminate].
  simpl in H.
  destruct (iterate inputs) as [elements|] eqn:Eit; [|discriminate].
  simpl in H.
  destruct (map_result Transaction.clear_fulfillment elements)
    as [cleared|] eqn:Ec; [|discriminate].
  simpl in H.
  destruct inputs as [| | |l| |];
    try (injection H as <-; split; [exact H0|]; split; [reflexivity|];
         simpl; rewrite Ei; discriminate).
  injection H as <-. simpl in Eit. injection Eit as <-.
  apply map_result_Forall2 in Ec.
  split; [|split].
  - unfold Transaction._remove_signatures. simpl.
    rewrite dict_get_set_eq. simpl.
    assert (Hc : map_result Transaction.clear_fulfillment cleared
                 = Ok cleared).
    { apply map_result_Forall2. clear -Ec.
      induction Ec as [|x y xs ys Hxy _ IH]; constructor; [|exact IH].
      apply (clear_fulfillment_Ok _ _ Hxy). }
    rewrite Hc. simpl. rewrite dict_set_set. reflexivity.
  - intros k Hk. simpl. rewrite dict_get_set_ne by congruence. reflexivity.
  - intros inputs. simpl. rewrite Ei. intros [= <-]. exists cleared.
    rewrite dict_get_set_eq. split; [reflexivity|].
    clear -Ec. induction Ec as [|x y xs ys Hxy _ IH]; constructor;
      [|exact IH].
    apply (clear_fulfillment_Ok _ _ Hxy).
Qed.

(** X7.  The outcome of [validate_id] does not depend on the fulfillment
    of any input: with the fulfillment of one input replaced by any
    value, [validate_id] returns or raises as before. *)
Theorem validate_id_ignores_fulfillment items inputs n input_ v :
  dict_get "inputs" items = Some (PList inputs) ->
  inputs !! n = Some (PDict input_) ->
  Transaction.validate_id
    (PDict (dict_set "inputs"
              (PList (<[n := PDict (dict_set "fulfillment" v input_)]> inputs))
              items))
  = Transaction.validate_id (PDict items).
Proof.
  intros Hi Hn. unfold Transaction.validate_id, Transaction.pop_id.
  rewrite dict_get_set_ne by discriminate.
  destruct (dict_get "id" items) as [proposed|]; [|reflexivity].
  simpl. rewrite dict_remove_set_ne by discriminate.
  rewrite (remove_signatures_set_input _ inputs n input_ v); [reflexivity| |].
  - rewrite dict_get_remove_ne by discriminate. exact Hi.
  - exact Hn.
Qed.

(** X8.  [validate_id] raises [InvalidHash] for a dictionary without the
    field [id]; a dictionary it accepts holds a string as its id, and
    with any other value as the id the dictionary is rejected with
    [InvalidHash]. *)
Theorem validate_id_rejects :
  (forall items,
      dict_get "id" items = None ->
      Transaction.validate_id (PDict items) = Raise InvalidHash)
  /\ (forall items,
         Transaction.validate_id (PDict items) = Ok tt ->
         exists tx_id, dict_get "id" items = Some (PStr tx_id))
  /\ (forall items v,
         Transaction.validate_id (PDict items) = Ok tt ->
         dict_get "id" items <> Some v ->
         Transaction.validate_id (PDict (dict_set "id" v items))
         = Raise InvalidHash).
Proof.
  assert (Hok : forall items,
             Transaction.validate_id (PDict items) = Ok tt ->
             exists stripped,
               Transaction._remove_signatures (PDict (dict_remove "id" items))
               = Ok stripped
               /\ dict_get "id" items
                  = Some (PStr (Transaction._to_hash
                                  (Transaction._to_str stripped)))).
  { intros items. unfold Transaction.validate_id, Transaction.pop_id.
    destruct (dict_get "id" items) as [proposed|]; [|discriminate].
    simpl.
    destruct (Transaction._remove_signatures _) as [stripped|];
      [|discriminate].
    simpl. case_bool_decide as Hp; [discriminate|]. intros _.
    exists stripped. split; [reflexivity|].
    destruct (decide (proposed
                      = PStr (Transaction._to_hash
                                (Transaction._to_str stripped))))
      as [->|Hne]; [reflexivity|contradiction]. }
  split; [|split].
  - intros items H. unfold Transaction.validate_id, Transaction.pop_id.
    rewrite H. reflexivity.
  - intros items H. destruct (Hok items H) as (stripped & _ & Hid). eauto.
  - intros items v H Hv. destruct (Hok items H) as (stripped & Hs & Hid).
    unfold Transaction.validate_id, Transaction.pop_id.
    rewrite dict_get_set_eq. simpl. rewrite dict_remove_set, Hs. simpl.
    rewrite bool_decide_eq_true_2; [reflexivity|]. congruence.
Qed.
End stripping.

(** The dictionary of a [CREATE] transaction with the fulfillment of
    its input kept. *)
Lemma remove_signatures_clears_witness :
  exists stripped,
    Transaction._remove_signatures Toy.create_tx_dict = Ok stripped
    /\ Transaction._remove_signatures stripped = Ok stripped.
Proof.
  destruct (Transaction._remove_signatures Toy.create_tx_dict)
    as [stripped|e] eqn:E; [|vm_compute in E; discriminate E].
  exists stripped. split; [reflexivity|].
  apply (remove_signatures_clears _ _ E).
Defined.

(** The dictionary of a [CREATE] transaction stays valid with a
    signature put in place of its fulfillment. *)
Lemma validate_id_ignores_fulfillment_witness :
  exists items inputs input_,
    Toy.create_tx_dict = PDict items
    /\ dict_get "inputs" items = Some (PList inputs)
    /\ inputs !! 0%nat = Some (PDict input_)
    /\ Transaction.validate_id (X := Toy.externals)
         (PDict (dict_set "inputs"
                   (PList (<[0%nat := PDict (dict_set "fulfillment"
                                               (PStr "signed") input_)]>
                             inputs))
                   items))
       = Ok tt.
Proof.
  destruct Toy.create_tx_dict as [| | | |items|] eqn:Ed;
    try (vm_compute in Ed; discriminate Ed).
  destruct (dict_get "inputs" items) as [[| | |inputs| |]|] eqn:Ei;
    try (vm_compute in Ed; injection Ed as <-; vm_compute in Ei;
         discriminate Ei).
  destruct (inputs !! 0%nat) as [[| | | |input_|]|] eqn:En;
    try (vm_compute in Ed; injection Ed as <-; vm_compute in Ei;
         injection Ei as <-; vm_compute in En; discriminate En).
  exists items, inputs, input_.
  split; [reflexivity|]. split; [exact Ei|]. split; [exact En|].
  rewrite (validate_id_ignores_fulfillment (X := Toy.externals)
             items inputs 0 input_ (PStr "signed") Ei En).
  vm_compute in Ed. injection Ed as <-. vm_compute. reflexivity.
Defined.

(** The dictionary of a [CREATE] transaction with another id. *)
Lemma validate_id_rejects_witness :
  exists items,
    Toy.create_tx_dict = PDict items
    /\ Transaction.validate_id (X := Toy.externals)
         (PDict (dict_set "id" (PStr "other") items))
       = Raise InvalidHash.
Proof.
  destruct Toy.create_tx_dict as [| | | |items|] eqn:Ed;
    try (vm_compute in Ed; discriminate Ed).
  exists items. split; [reflexivity|].
  destruct (validate_id_rejects (X := Toy.externals)) as (_ & _ & H).
  apply H; vm_compute in Ed; injection Ed as <-; vm_compute;
    [reflexivity|discriminate].
Defined.

(** ** Which inputs [inputs_valid] checks *)

Lemma all_map3_true_iff {A B C : Type} (f : A -> B -> C -> result bool)
    xs ys zs :
  Transaction.all_map3 f xs ys zs = Ok true <->
  forall n x y z,
    xs !! n = Some x -> ys !! n = Some y -> zs !! n = Some z ->
    f x y z = Ok true.
Proof.
  revert ys zs. induction xs as [|x xs IH]; intros ys zs.
  - split; [intros _ n ? ? ? Hn; destruct n; discriminate Hn|reflexivity].
  - destruct ys as [|y ys];
      [split; [intros _ [|n] ? ? ? _ Hn; discriminate Hn|reflexivity]|].
    destruct zs as [|z zs];
      [split; [intros _ [|n] ? ? ? _ _ Hn; discriminate Hn|reflexivity]|].
    simpl. split.
    + intros H. destruct (f x y z) as [[|]|] eqn:E; try discriminate.
      simpl in H. intros [|n] x' y' z'; simpl.
      * intros [= <-] [= <-] [= <-]. exact E.
      * apply (proj1 (IH ys zs) H).
    + intros H. rewrite (H 0%nat x y z eq_refl eq_refl eq_refl). simpl.
      apply IH. intros n. apply (H (S n)).
Qed.

Lemma all_map3_never {A B C : Type} (f : A -> B -> C -> result bool) e
    xs ys zs :
  (forall x y z, f x y z <> Raise e) ->
  Transaction.all_map3 f xs ys zs <> Raise e.
Proof.
  intros Hf. revert ys zs. induction xs as [|x xs IH]; intros ys zs.
  - discriminate.
  - destruct ys as [|y ys]; [discriminate|].
    destruct zs as [|z zs]; [discriminate|]. simpl.
    destruct (f x y z) as [[|]|e'] eqn:E; simpl.
    + apply IH.
    + discriminate.
    + rewrite <- E. apply Hf.
Qed.

Section checked_inputs.
Context {X : Externals}.

Lemma init_no_ValueError operation asset inputs outputs metadata version :
  operation ∈ Transaction.ALLOWED_OPERATIONS ->
  Transaction.__init__ (PStr operation) asset inputs outputs metadata version
  <> Raise ValueError.
Proof.
  intros Hop. unfold Transaction.__init__.
  rewrite bool_decide_eq_true_2 by exact Hop.
  destruct (_ && _ && _); [discriminate|].
  destruct (_ && _); [discriminate|].
  destruct (_ && _); discriminate.
Qed.

Lemma input_valid_no_ValueError input_ operation tx_serialized uri :
  Transaction._input_valid input_ operation tx_serialized uri
  <> Raise ValueError.
Proof.
  unfold Transaction._input_valid.
  destruct (Input.fulfillment input_); try discriminate.
  destruct (serialize_uri f); [|discriminate].
  destruct (from_uri s) as [|[]]; discriminate.
Qed.

Lemma partial_message_no_ValueError self input_ :
  Transaction.operation self ∈ Transaction.ALLOWED_OPERATIONS ->
  Transaction.partial_message self input_ <> Raise ValueError.
Proof.
  intros Hop. unfold Transaction.partial_message.
  pose proof (init_no_ValueError _ (Transaction.asset self) (Some [input_])
                (Some (Transaction.outputs self)) (Transaction.metadata self)
                (Transaction.version self) Hop) as Hinit.
  destruct (Transaction.__init__ _ _ _ _ _ _) as [tx_partial|e] eqn:Ei;
    [|simpl; congruence].
  simpl. clear Hinit.
  assert (Hin : Transaction.inputs tx_partial = [input_]).
  { unfold Transaction.__init__ in Ei.
    destruct (bool_decide _); [|discriminate].
    destruct (_ && _ && _); [discriminate|].
    destruct (_ && _); [discriminate|].
    destruct (_ && _); [discriminate|].
    injection Ei as <-. reflexivity. }
  destruct (is_object (Input.fulfillment input_)) eqn:Eo.
  - destruct (message_spec tx_partial input_ Eo) as (items & Hd & _ & Hr).
    replace (partial_transaction tx_partial input_) with tx_partial in Hd
      by (destruct tx_partial; simpl in Hin; subst; reflexivity).
    rewrite Hd. simpl. rewrite Hr. discriminate.
  - unfold Transaction.to_dict. rewrite Hin. simpl.
    unfold Input.to_dict. destruct (Input.fulfillment input_);
      simpl in Eo |- *; discriminate.
Qed.

Lemma gen_tx_no_ValueError self input_ output uri :
  Transaction.operation self ∈ Transaction.ALLOWED_OPERATIONS ->
  Transaction.gen_tx self input_ output uri <> Raise ValueError.
Proof.
  intros Hop. unfold Transaction.gen_tx.
  pose proof (partial_message_no_ValueError self input_ Hop) as Hm.
  destruct (Transaction.partial_message self input_) as [m|e]; simpl;
    [apply input_valid_no_ValueError|congruence].
Qed.

Lemma gen_tx_passes self input_ output output_condition_uri :
  Transaction.gen_tx self input_ output output_condition_uri = Ok true
  <-> input_passes self input_ output_condition_uri.
Proof.
  unfold Transaction.gen_tx, input_passes. split.
  - destruct (Transaction.partial_message self input_) as [m|];
      [|discriminate].
    simpl. eauto.
  - intros (m & -> & H). exact H.
Qed.

Lemma inputs_valid_uris self output_condition_uris :
  Transaction._inputs_valid self output_condition_uris = Ok true <->
  length (Transaction.inputs self) = length output_condition_uris
  /\ forall n input_ uri,
      (n < length (Transaction.outputs self))%nat ->
      Transaction.inputs self !! n = Some input_ ->
      output_condition_uris !! n = Some uri ->
      input_passes self input_ uri.
Proof.
  unfold Transaction._inputs_valid. case_bool_decide as Hlen.
  - split; [discriminate|]. intros [? _]. contradiction.
  - rewrite all_map3_true_iff. split.
    + intros H. split; [destruct (decide (length (Transaction.inputs self)
                                          = length output_condition_uris));
                        [assumption|contradiction]|].
      intros n input_ uri Hn Hi Hu.
      destruct (lookup_lt_is_Some_2 _ _ Hn) as [output Ho].
      apply (gen_tx_passes self input_ output uri).
      apply (H n); assumption.
    + intros [_ H] n input_ output uri Hi Ho Hu.
      apply gen_tx_passes. apply (H n); [|assumption|assumption].
      apply lookup_lt_is_Some. eauto.
Qed.

(** X9.  [inputs_valid] returns [True] exactly when the operation is
    [CREATE] or [GENESIS], or it is [TRANSFER] and every referenced
    output has a fulfillment object and there are as many referenced
    outputs as inputs, and the check of the input at every position
    below the number of the outputs of the transaction itself passes
    against the condition URI at that position.  Inputs at later
    positions are not checked. *)
Theorem inputs_valid_true_iff self outputs :
  Transaction.inputs_valid self outputs = Ok true <->
  exists output_condition_uris,
    (Transaction.operation self ∈ [Transaction.CREATE; Transaction.GENESIS]
     /\ output_condition_uris
        = List.map (fun _ => PStr "dummyvalue") (Transaction.inputs self)
     \/ Transaction.operation self = Transaction.TRANSFER
        /\ exists referenced,
            outputs = Some referenced
            /\ map_result Transaction.output_condition_uri referenced
               = Ok output_condition_uris)
    /\ length (Transaction.inputs self) = length output_condition_uris
    /\ forall n input_ uri,
        (n < length (Transaction.outputs self))%nat ->
        Transaction.inputs self !! n = Some input_ ->
        output_condition_uris !! n = Some uri ->
        input_passes self input_ uri.
Proof.
  unfold Transaction.inputs_valid. case_bool_decide as Hop.
  - rewrite inputs_valid_uris. split.
    + intros H. eexists. split; [left; split; [exact Hop|reflexivity]|].
      exact H.
    + intros (uris & [[_ ->]|[Ht _]] & H); [exact H|].
      exfalso. rewrite Ht in Hop. revert Hop. clear.
      unfold Transaction.TRANSFER, Transaction.CREATE, Transaction.GENESIS.
      rewrite !elem_of_cons, elem_of_nil. intros [|[|[]]]; discriminate.
  - destruct (String.eqb (Transaction.operation self) Transaction.TRANSFER)
      eqn:Et.
    + apply String.eqb_eq in Et. destruct outputs as [referenced|].
      * destruct (map_result Transaction.output_condition_uri referenced)
          as [uris|] eqn:Eu; simpl.
        -- rewrite inputs_valid_uris. split.
           ++ intros H. exists uris. split; [|exact H].
              right. split; [exact Et|]. exists referenced. auto.
           ++ intros (uris' & [[Hin _]|(_ & r & Hr & Hu)] & Hall);
                [contradiction|].
              injection Hr as <-. rewrite Eu in Hu. injection Hu as <-.
              exact Hall.
        -- split; [discriminate|].
           intros (uris' & [[Hin _]|(_ & r & Hr & Hu)] & Hall);
             [contradiction|].
           injection Hr as <-. rewrite Eu in Hu. discriminate Hu.
      * split; [discriminate|].
        intros (uris' & [[Hin _]|(_ & r & Hr & _)] & H);
          [contradiction|discriminate Hr].
    + split; [discriminate|].
      intros (uris' & [[Hin _]|(Ht & _)] & H); [contradiction|].
      rewrite Ht, String.eqb_refl in Et. discriminate Et.
Qed.

(** X10.  [inputs_valid] raises [TypeError] for an operation that is
    none of [CREATE], [GENESIS], [TRANSFER], and for a [TRANSFER] called
    without outputs; it raises [ValueError] for a [TRANSFER] called with
    a number of outputs that is not the number of inputs, and
    [AttributeError] when a referenced output holds no fulfillment
    object.  For [CREATE] and [GENESIS] it never raises [ValueError] and
    does not look at the outputs it is called with. *)
Theorem inputs_valid_raises self :
  (Transaction.operation self ∉ Transaction.ALLOWED_OPERATIONS ->
   forall outputs, Transaction.inputs_valid self outputs = Raise TypeError)
  /\ (Transaction.operation self = Transaction.TRANSFER ->
      Transaction.inputs_valid self None = Raise TypeError
      /\ (forall referenced,
             Forall (fun o => is_object (Output.fulfillment o) = true)
               referenced ->
             length referenced <> length (Transaction.inputs self) ->
             Transaction.inputs_valid self (Some referenced)
             = Raise ValueError)
      /\ (forall referenced,
             ~ Forall (fun o => is_object (Output.fulfillment o) = true)
                 referenced ->
             Transaction.inputs_valid self (Some referenced)
             = Raise AttributeError))
  /\ (Transaction.operation self ∈ [Transaction.CREATE; Transaction.GENESIS] ->
      forall outputs,
        Transaction.inputs_valid self outputs
        = Transaction.inputs_valid self None
        /\ Transaction.inputs_valid self outputs <> Raise ValueError).
Proof.
  unfold Transaction.inputs_valid, Transaction.ALLOWED_OPERATIONS.
  split; [|split].
  - intros Hop outputs.
    rewrite bool_decide_eq_false_2
      by (intros Hin; apply Hop; revert Hin; rewrite !elem_of_cons;
          tauto).
    destruct (String.eqb _ _) eqn:Et; [|reflexivity].
    apply String.eqb_eq in Et. exfalso. apply Hop. rewrite Et.
    rewrite !elem_of_cons. auto.
  - intros Ht. rewrite Ht.
    rewrite bool_decide_eq_false_2
      by (unfold Transaction.TRANSFER, Transaction.CREATE,
            Transaction.GENESIS;
          rewrite !elem_of_cons, elem_of_nil; intros [|[|[]]]; discriminate).
    rewrite String.eqb_refl. split; [reflexivity|]. split.
    + intros referenced Hobj Hlen.
      assert (Hu : exists uris,
                 map_result Transaction.output_condition_uri referenced
                 = Ok uris /\ length uris = length referenced).
      { clear Hlen. induction Hobj as [|o os Ho _ (uris & Hu & Hl)]; simpl.
        - exists []. auto.
        - unfold Transaction.output_condition_uri at 1.
          destruct (Output.fulfillment o); try discriminate Ho. simpl.
          rewrite Hu. simpl. eexists. split; [reflexivity|].
          simpl. rewrite Hl. reflexivity. }
      destruct Hu as (uris & -> & Hl). simpl.
      unfold Transaction._inputs_valid.
      rewrite bool_decide_eq_true_2 by congruence. reflexivity.
    + intros referenced Hobj.
      assert (Hu : map_result Transaction.output_condition_uri referenced
                   = Raise AttributeError).
      { induction referenced as [|o os IH]; [exfalso; apply Hobj; constructor|].
        simpl. unfold Transaction.output_condition_uri at 1.
        destruct (Output.fulfillment o) eqn:Ef; try reflexivity. simpl.
        rewrite IH; [reflexivity|]. intros Hos. apply Hobj.
        constructor; [rewrite Ef; reflexivity|exact Hos]. }
      rewrite Hu. reflexivity.
  - intros Hop outputs. rewrite bool_decide_eq_true_2 by exact Hop.
    split; [reflexivity|]. unfold Transaction._inputs_valid.
    rewrite bool_decide_eq_false_2
      by (rewrite length_map; intros Hne; apply Hne; reflexivity).
    apply all_map3_never. intros input_ output uri.
    apply gen_tx_no_ValueError.
    revert Hop. unfold Transaction.ALLOWED_OPERATIONS.
    rewrite !elem_of_cons, elem_of_nil. tauto.
Qed.
End checked_inputs.

(** The signed [CREATE] transaction of one owner: its input passes. *)
Lemma inputs_valid_true_iff_witness :
  exists tx input_,
    Transaction.sign (X := Toy.externals) Toy.create_tx ["a"] = Ok tx
    /\ Transaction.inputs tx !! 0%nat = Some input_
    /\ input_passes (X := Toy.externals) tx input_ (PStr "dummyvalue").
Proof.
  destruct (Transaction.sign (X := Toy.externals) Toy.create_tx ["a"])
    as [tx|e] eqn:E; [|vm_compute in E; discriminate E].
  vm_compute in E. injection E as <-.
  eexists _, _. split; [reflexivity|]. split; [reflexivity|].
  match goal with
  | |- input_passes ?tx _ _ =>
      destruct (proj1 (inputs_valid_true_iff (X := Toy.externals) tx None))
        as (uris & [[_ ->]|[Ht _]] & _ & Hall);
        [vm_compute; reflexivity| |discriminate Ht]
  end.
  apply (Hall 0%nat); [simpl; lia|reflexivity|reflexivity].
Defined.

(** A transfer validated without the outputs it spends. *)
Lemma inputs_valid_raises_witness :
  Transaction.inputs_valid (X := Toy.externals) Toy.transfer_tx None
  = Raise TypeError
  /\ Transaction.inputs_valid (X := Toy.externals) Toy.transfer_tx
       (Some [Toy.output_a])
     = Raise ValueError.
Proof.
  destruct (inputs_valid_raises (X := Toy.externals) Toy.transfer_tx)
    as (_ & H & _).
  destruct (H eq_refl) as (Hnone & Hlen & _).
  split; [exact Hnone|]. apply Hlen.
  - repeat constructor.
  - simpl. lia.
Defined.

(** ** The asset id of a list of transactions *)

Lemma remove_dups_all_eq {A : Type} `{EqDecision A} (v : A) l :
  l <> [] -> Forall (fun x => x = v) l -> remove_dups l = [v].
Proof.
  intros Hne H. induction H as [|x l -> Hl IH]; [contradiction|].
  cbn [remove_dups]. destruct l as [|y l].
  - simpl. destruct (decide_rel elem_of v []) as [Hin|_]; [|reflexivity].
    apply elem_of_nil in Hin. contradiction.
  - destruct (decide_rel elem_of v (y :: l)) as [_|Hin];
      [apply IH; discriminate|].
    exfalso. apply Hin. inversion Hl; subst. apply list_elem_of_here.
Qed.

Lemma map_result_elements {A B : Type} (f : A -> result B) xs :
  Forall (fun x => is_ok (f x) = true) xs ->
  exists ys,
    map_result f xs = Ok ys
    /\ forall x y, x ∈ xs -> f x = Ok y -> y ∈ ys.
Proof.
  induction 1 as [|x xs Hx _ (ys & Hys & Hin)].
  - exists []. split; [reflexivity|]. intros ? ? Hin.
    apply elem_of_nil in Hin. contradiction.
  - simpl. destruct (f x) as [y|] eqn:Ey; [|discriminate Hx].
    simpl. rewrite Hys. simpl. eexists. split; [reflexivity|].
    intros x0 y0 Hx0 Hy0. apply elem_of_cons in Hx0 as [->|Hx0].
    + rewrite Ey in Hy0. injection Hy0 as <-. apply list_elem_of_here.
    + apply list_elem_of_further. eapply Hin; eassumption.
Qed.

Section asset_ids.
Context {X : Externals}.

(** The value one transaction contributes: its id for [CREATE],
    [asset['id']] otherwise. *)
Lemma asset_id_of_Ok tx value :
  Transaction.asset_id_of tx = Ok value <->
  (if String.eqb (Transaction.operation tx) Transaction.CREATE
   then Transaction.id tx
   else subscript (Transaction.asset tx) "id") = Ok value
  /\ Transaction.hashable value = true.
Proof.
  unfold Transaction.asset_id_of.
  destruct (if String.eqb _ _ then _ else _) as [v|e]; simpl.
  - destruct (Transaction.hashable v) eqn:Eh.
    + split; [intros [= <-]; auto|intros [[= <-] _]; reflexivity].
    + split; [discriminate|]. intros [[= <-] Hv]. congruence.
  - split; [discriminate|intros [? _]; discriminate].
Qed.

(** X11.  [get_asset_id] returns a value exactly when the list is not
    empty and every transaction gives that value: its own id for a
    [CREATE] transaction, [asset['id']] for any other.  It raises
    [KeyError] for the empty list and [AssetIdMismatch] when two
    transactions give different values. *)
Theorem get_asset_id_iff transactions :
  (forall value,
      Transaction.get_asset_id transactions = Ok value <->
      transactions <> []
      /\ Transaction.hashable value = true
      /\ Forall
           (fun tx =>
              (if String.eqb (Transaction.operation tx) Transaction.CREATE
               then Transaction.id tx
               else subscript (Transaction.asset tx) "id") = Ok value)
           transactions)
  /\ (transactions = [] ->
      Transaction.get_asset_id transactions = Raise KeyError)
  /\ (forall tx tx' value value',
         tx ∈ transactions -> tx' ∈ transactions ->
         Forall (fun tx => is_ok (Transaction.asset_id_of tx) = true)
           transactions ->
         Transaction.asset_id_of tx = Ok value ->
         Transaction.asset_id_of tx' = Ok value' ->
         value <> value' ->
         Transaction.get_asset_id transactions = Raise AssetIdMismatch).
Proof.
  split; [|split].
  - intros value. unfold Transaction.get_asset_id. split.
    + destruct (map_result Transaction.asset_id_of transactions)
        as [ids|] eqn:Eids; [|discriminate].
      simpl. case_bool_decide as Hlen; [discriminate|].
      destruct (remove_dups ids) as [|v rest] eqn:Erd; [discriminate|].
      intros [= ->]. destruct rest as [|? ?]; [|simpl in Hlen; lia].
      apply map_result_Forall2 in Eids.
      assert (Hall : Forall (fun x => x = value) ids).
      { apply Forall_forall. intros x Hx.
        apply elem_of_remove_dups in Hx. rewrite Erd in Hx.
        apply list_elem_of_singleton in Hx. exact Hx. }
      assert (Hne : ids <> []).
      { intros ->. simpl in Erd. discriminate Erd. }
      split; [intros ->; inversion Eids; subst; contradiction|].
      assert (Hv : Forall (fun tx => Transaction.asset_id_of tx = Ok value)
                     transactions).
      { clear -Eids Hall. induction Eids as [|tx y txs ys Hy _ IH];
          [constructor|].
        inversion Hall; subst. constructor; [exact Hy|apply IH; assumption]. }
      split.
      * destruct transactions as [|tx txs];
          [inversion Eids; subst; contradiction|].
        inversion Hv as [|? ? Htx _]; subst.
        apply (asset_id_of_Ok tx value). exact Htx.
      * eapply Forall_impl; [exact Hv|]. intros tx Htx.
        apply (asset_id_of_Ok tx value). exact Htx.
    + intros (Hne & Hh & Hall).
      assert (Hids : map_result Transaction.asset_id_of transactions
                     = Ok (List.map (fun _ => value) transactions)).
      { apply map_result_all_Ok. eapply Forall_impl; [exact Hall|].
        intros tx Htx. apply asset_id_of_Ok. auto. }
      rewrite Hids. simpl.
      rewrite (remove_dups_all_eq value).
      * reflexivity.
      * destruct transactions; [contradiction|discriminate].
      * apply Forall_forall. intros x Hx.
        apply list_elem_of_fmap in Hx as (? & -> & _). reflexivity.
  - intros ->. reflexivity.
  - intros tx tx' value value' Htx Htx' Hok Hv Hv' Hne.
    unfold Transaction.get_asset_id.
    destruct (map_result_elements Transaction.asset_id_of transactions Hok)
      as (ids & Hids & Hall).
    pose proof (Hall tx value Htx Hv) as Hin.
    pose proof (Hall tx' value' Htx' Hv') as Hin'.
    rewrite Hids. simpl.
    apply elem_of_remove_dups in Hin, Hin'.
    destruct (remove_dups ids) as [|a [|b rest]].
    + apply elem_of_nil in Hin. contradiction.
    + apply list_elem_of_singleton in Hin, Hin'. congruence.
    + rewrite bool_decide_eq_true_2 by (simpl; lia). reflexivity.
Qed.
End asset_ids.

(** A transfer of the asset ["t0"]. *)
Lemma get_asset_id_iff_witness :
  Transaction.get_asset_id (X := Toy.externals)
    [Toy.transfer_tx; Toy.transfer_tx] = Ok (PStr "t0").
Proof.
  destruct (get_asset_id_iff (X := Toy.externals)
              [Toy.transfer_tx; Toy.transfer_tx]) as (H & _).
  apply H. split; [discriminate|]. split; [reflexivity|].
  repeat constructor.
Defined.

(** ** What [sign] changes *)

Lemma insert_middle {A : Type} (done : list A) x y rest :
  <[length done := y]> (done ++ x :: rest) = done ++ y :: rest.
Proof. induction done as [|d done IH]; simpl; [|rewrite IH]; reflexivity. Qed.

Section sign_frame.
Context {X : Externals}.

Lemma sign_input_frame self input_ index tx_serialized key_pairs signed :
  Transaction._sign_input self input_ index tx_serialized key_pairs
  = Ok signed ->
  is_object (Input.fulfillment input_) = true
  /\ exists f,
      signed
      = Transaction.set_input self index
          (Input.mk (PFulfillment f) (Input.owners_before input_)
             (Input.fulfills input_)).
Proof.
  unfold Transaction._sign_input.
  destruct (Input.fulfillment input_) as [| | | | |[pk sig|k subs]];
    try discriminate.
  - unfold Transaction._sign_simple_signature_fulfillment.
    destruct (Input.owners_before input_) as [|public_key owners];
      [discriminate|].
    destruct (Transaction.key_pairs_get key_pairs public_key) as [sk|[]];
      try discriminate.
    intros [= <-]. split; [reflexivity|]. eauto.
  - unfold Transaction._sign_threshold_signature_fulfillment.
    destruct (Transaction.py_set _) as [owners|]; [|discriminate]. simpl.
    destruct (Output.reduce _ _ _) as [f|]; [|discriminate]. simpl.
    intros [= <-]. split; [reflexivity|]. eauto.
Qed.

Lemma sign_from_frame key_pairs remaining :
  forall self done signed,
    Transaction.inputs self = done ++ remaining ->
    Transaction.sign_from self (length done) remaining key_pairs
    = Ok signed ->
    same_frame self signed
    /\ Forall2 same_but_fulfillment (Transaction.inputs self)
         (Transaction.inputs signed)
    /\ Forall (fun i => is_object (Input.fulfillment i) = true) remaining
    /\ exists signed_inputs,
        Transaction.inputs signed = done ++ signed_inputs
        /\ Forall (fun i => is_object (Input.fulfillment i) = true)
             signed_inputs.
Proof.
  induction remaining as [|input_ rest IH]; intros self done signed Hin.
  - simpl. intros [= <-]. split; [repeat split|].
    split; [|split; [constructor|]].
    + clear. induction (Transaction.inputs self); constructor;
        [split; reflexivity|assumption].
    + exists []. split; [exact Hin|constructor].
  - cbn [Transaction.sign_from].
    destruct (Transaction.partial_message self input_) as [m|];
      [|discriminate].
    simpl.
    destruct (Transaction._sign_input self input_ (length done) m key_pairs)
      as [self1|] eqn:E1; [|discriminate].
    simpl. destruct (sign_input_frame _ _ _ _ _ _ E1) as (Hobj & f & ->).
    set (input' := Input.mk (PFulfillment f) (Input.owners_before input_)
                     (Input.fulfills input_)).
    set (self1 := Transaction.set_input self (length done) input').
    assert (Hin1 : Transaction.inputs self1 = (done ++ [input']) ++ rest).
    { unfold self1. simpl. rewrite Hin, insert_middle, <- app_assoc.
      reflexivity. }
    replace (S (length done)) with (length (done ++ [input']))
      by (rewrite length_app; simpl; lia).
    intros Hs.
    destruct (IH self1 (done ++ [input']) signed Hin1 Hs)
      as (Hframe & Hsame & Hrest & signed_inputs & Hsigned & Hobjs).
    split; [exact Hframe|]. split; [|split].
    + rewrite Hin. rewrite Hin1, <- app_assoc in Hsame. simpl in Hsame.
      apply Forall2_app_inv_l in Hsame as (k1 & k2 & H1 & H2 & ->).
      apply Forall2_app; [exact H1|].
      inversion H2 as [|? y ? ys [Ho Hf] Hys]; subst.
      constructor; [|exact Hys].
      split; [rewrite <- Ho|rewrite <- Hf]; reflexivity.
    + constructor; assumption.
    + exists (input' :: signed_inputs). rewrite Hsigned, <- app_assoc.
      split; [reflexivity|]. constructor; [reflexivity|exact Hobjs].
Qed.

Lemma inputs_to_dict_objects_Ok inputs :
  Forall (fun i => is_object (Input.fulfillment i) = true) inputs ->
  exists ds, map_result Input.to_dict inputs = Ok ds.
Proof.
  induction 1 as [|i inputs Hi _ [ds Hds]]; simpl.
  - eauto.
  - destruct (Input_to_dict_object i Hi) as [d ->]. simpl. rewrite Hds.
    simpl. eauto.
Qed.

Lemma id_of_objects self :
  Forall (fun i => is_object (Input.fulfillment i) = true)
    (Transaction.inputs self) ->
  Transaction.id self = Ok (PStr (id_of self)).
Proof.
  intros H. destruct (inputs_to_dict_objects_Ok _ H) as [ds Hds].
  apply (id_Ok self (PDict (body self ds ++ [("id", PStr (id_of self))]))).
  apply to_dict_Ok. eauto.
Qed.

(** X12.  A transaction that [sign] returns has the operation, asset,
    outputs, metadata and version it had before, and each input has the
    owners and the link it had before; the transaction has an id before
    and after, and the id is the same: signing changes fulfillments
    only. *)
Theorem sign_keeps_id self private_keys signed :
  Transaction.sign self private_keys = Ok signed ->
  Transaction.operation signed = Transaction.operation self
  /\ Transaction.asset signed = Transaction.asset self
  /\ Transaction.outputs signed = Transaction.outputs self
  /\ Transaction.metadata signed = Transaction.metadata self
  /\ Transaction.version signed = Transaction.version self
  /\ Forall2
       (fun i i' =>
          Input.owners_before i' = Input.owners_before i
          /\ Input.fulfills i' = Input.fulfills i)
       (Transaction.inputs self) (Transaction.inputs signed)
  /\ (exists tx_id,
         Transaction.id self = Ok (PStr tx_id)
         /\ Transaction.id signed = Ok (PStr tx_id)).
Proof.
  unfold Transaction.sign. intros H.
  destruct (sign_from_frame _ _ self [] signed eq_refl H)
    as ((Hop & Has & Hout & Hme & Hve) & Hsame & Hobj & l & Hl & Hobj').
  simpl in Hl. subst l.
  repeat (split; [assumption|]). split.
  - eapply Forall2_impl; [exact Hsame|]. intros i i' [Ho Hf]. auto.
  - exists (id_of self). split; [apply id_of_objects; exact Hobj|].
    rewrite (id_of_objects signed Hobj'). do 2 f_equal.
    unfold id_of, body. rewrite Hop, Has, Hout, Hme, Hve.
    rewrite (stripped_inputs_eq _ _ Hsame). reflexivity.
Qed.
End sign_frame.

(** The [CREATE] transaction of one owner, signed by the owner. *)
Lemma sign_keeps_id_witness :
  exists signed tx_id,
    Transaction.sign (X := Toy.externals) Toy.create_tx ["a"] = Ok signed
    /\ Transaction.id (X := Toy.externals) Toy.create_tx = Ok (PStr tx_id)
    /\ Transaction.id (X := Toy.externals) signed = Ok (PStr tx_id).
Proof.
  destruct (Transaction.sign (X := Toy.externals) Toy.create_tx ["a"])
    as [signed|e] eqn:E; [|vm_compute in E; discriminate E].
  destruct (sign_keeps_id (X := Toy.externals) _ _ _ E)
    as (_ & _ & _ & _ & _ & _ & tx_id & H1 & H2).
  exists signed, tx_id. auto.
Defined.

(** ** Signing twice *)

Lemma forallb_map_compose {A B : Type} (f : B -> bool) (g : A -> B) l :
  forallb f (List.map g l) = forallb (fun x => f (g x)) l.
Proof.
  induction l as [|x l IH]; simpl; [reflexivity|]. rewrite IH. reflexivity.
Qed.

Section signing_twice.
Context {X : Externals}.
Variable key_pairs : gmap string string.

Lemma signed_by_idempotent owners message f :
  signed_by key_pairs owners message (signed_by key_pairs owners message f)
  = signed_by key_pairs owners message f.
Proof.
  induction f as [pk sig|k subs IH] using Fulfillment_ind'; simpl.
  - destruct (key_pairs !! pk) as [sk|] eqn:E; simpl; [|rewrite E; reflexivity].
    case_bool_decide as Hin; simpl; rewrite E.
    + rewrite bool_decide_eq_true_2 by exact Hin. reflexivity.
    + rewrite bool_decide_eq_false_2 by exact Hin. reflexivity.
  - f_equal. rewrite map_map.
    induction IH as [|s subs Hs _ IHsubs]; simpl.
    + reflexivity.
    + rewrite Hs, IHsubs. reflexivity.
Qed.

Lemma length_get_subcondition_signed_by owners message f vk :
  length (get_subcondition_from_vk (signed_by key_pairs owners message f) vk)
  = length (get_subcondition_from_vk f vk).
Proof.
  induction f as [pk sig|k subs IH] using Fulfillment_ind'; simpl.
  - destruct (key_pairs !! pk); [|reflexivity].
    case_bool_decide; simpl; destruct (String.eqb pk vk); reflexivity.
  - induction IH as [|s subs Hs _ IHsubs]; simpl.
    + reflexivity.
    + rewrite !length_app, Hs, IHsubs. reflexivity.
Qed.

Lemma owner_has_key_signed_by owners message f owner :
  owner_has_key key_pairs (signed_by key_pairs owners message f) owner
  = owner_has_key key_pairs f owner.
Proof.
  destruct owner as [|vk| | | |]; try reflexivity. unfold owner_has_key.
  pose proof (length_get_subcondition_signed_by owners message f vk) as Hlen.
  destruct (get_subcondition_from_vk (signed_by _ _ _ _) vk);
    destruct (get_subcondition_from_vk f vk); simpl in Hlen;
    try discriminate; reflexivity.
Qed.

Lemma signed_copy_facts message input_ :
  well_typed_input (signed_copy key_pairs message input_)
  = well_typed_input input_
  /\ has_keys key_pairs (signed_copy key_pairs message input_)
     = has_keys key_pairs input_
  /\ signed_copy key_pairs message (signed_copy key_pairs message input_)
     = signed_copy key_pairs message input_.
Proof.
  unfold well_typed_input, has_keys, signed_copy, signed_fulfillment.
  destruct input_ as [fulfillment owners fulfills]. simpl.
  destruct fulfillment as [| | | | |[pk sig|k subs]]; simpl; auto.
  - destruct owners as [|[|owner| | | |] owners]; simpl; auto.
    destruct (key_pairs !! owner) as [sk|] eqn:E; simpl; rewrite ?E; auto.
  - split; [reflexivity|]. split.
    + apply forallb_pointwise. intros owner.
      apply (owner_has_key_signed_by owners message
               (ThresholdSha256Fulfillment k subs)).
    + f_equal. f_equal.
      pose proof (signed_by_idempotent owners message
                    (ThresholdSha256Fulfillment k subs)) as H.
      simpl in H. injection H as H. f_equal. exact H.
Qed.

Lemma message_signed_copy self inputs tx_serialized input_ :
  message (with_inputs self inputs)
    (signed_copy key_pairs tx_serialized input_)
  = message self input_.
Proof. reflexivity. Qed.
End signing_twice.

Section sign_again.
Context {X : Externals}.

(** X13.  For a constructed transaction whose inputs are Ed25519 leaves
    or threshold roots with owners that are strings: signing the
    transaction that [sign] returned, with the same private keys,
    returns that transaction again. *)
Theorem sign_idempotent self private_keys signed :
  constructed self ->
  forallb well_typed_input (Transaction.inputs self) = true ->
  Transaction.sign self private_keys = Ok signed ->
  Transaction.sign signed private_keys = Ok signed.
Proof.
  intros Hself Hwt. rewrite (sign_spec self private_keys Hself Hwt).
  set (key_pairs := Transaction.gen_key_pairs private_keys).
  destruct (forallb (has_keys key_pairs) (Transaction.inputs self)) eqn:Hk;
    [|discriminate].
  intros [= <-].
  set (signed_inputs := List.map _ (Transaction.inputs self)).
  assert (Hwt' : forallb well_typed_input signed_inputs = true).
  { unfold signed_inputs. rewrite forallb_map_compose. rewrite <- Hwt.
    apply forallb_pointwise. intros i.
    apply (signed_copy_facts key_pairs (message self i) i). }
  rewrite (sign_spec (with_inputs self signed_inputs) private_keys
             (constructed_with_inputs self signed_inputs Hself) Hwt').
  fold key_pairs. simpl.
  assert (Hk' : forallb (has_keys key_pairs) signed_inputs = true).
  { unfold signed_inputs. rewrite forallb_map_compose. rewrite <- Hk.
    apply forallb_pointwise. intros i.
    apply (signed_copy_facts key_pairs (message self i) i). }
  rewrite Hk'. unfold with_inputs. simpl. do 2 f_equal.
  unfold signed_inputs. rewrite map_map. apply map_ext. intros i.
  rewrite (message_signed_copy key_pairs self signed_inputs (message self i) i).
  apply (signed_copy_facts key_pairs (message self i) i).
Qed.

(** X14.  The dictionary [key_pairs] that [sign] builds: every entry
    maps the public key of a private key of the list to that private
    key; the public key of every private key of the list has an entry;
    and of two private keys with the same public key the later one is
    kept. *)
Theorem gen_key_pairs_entries private_keys :
  (forall public_key private_key,
      Transaction.gen_key_pairs private_keys !! public_key = Some private_key ->
      private_key ∈ private_keys
      /\ gen_public_key private_key = public_key)
  /\ (forall private_key,
         private_key ∈ private_keys ->
         is_Some (Transaction.gen_key_pairs private_keys
                    !! gen_public_key private_key))
  /\ (forall earlier private_key later,
         private_keys = earlier ++ private_key :: later ->
         (forall other, other ∈ later ->
                        gen_public_key other <> gen_public_key private_key) ->
         Transaction.gen_key_pairs private_keys
           !! gen_public_key private_key = Some private_key).
Proof.
  split; [|split].
  - intros pk sk. apply gen_key_pairs_Some.
  - intros sk Hsk.
    destruct (Transaction.gen_key_pairs private_keys !! gen_public_key sk)
      eqn:E; [eauto|].
    exfalso. apply (proj1 (gen_key_pairs_None _ _) E sk Hsk). reflexivity.
  - intros earlier sk later -> Hlater. unfold Transaction.gen_key_pairs.
    rewrite foldl_app. simpl.
    rewrite foldl_key_pairs.
    destruct (list_find _ (reverse later)) as [[i sk']|] eqn:E.
    + apply list_find_Some in E as (Hi & Hpk & _). exfalso.
      apply (Hlater sk'); [|exact Hpk].
      apply elem_of_reverse. eapply list_elem_of_lookup_2. exact Hi.
    + apply lookup_insert_eq.
Qed.
End sign_again.

(** Signing the [CREATE] transaction of one owner twice. *)
Lemma sign_idempotent_witness :
  exists signed,
    Transaction.sign (X := Toy.externals) Toy.create_tx ["a"] = Ok signed
    /\ Transaction.sign (X := Toy.externals) signed ["a"] = Ok signed.
Proof.
  destruct (Transaction.sign (X := Toy.externals) Toy.create_tx ["a"])
    as [signed|e] eqn:E; [|vm_compute in E; discriminate E].
  exists signed. split; [reflexivity|].
  apply (sign_idempotent (X := Toy.externals) Toy.create_tx ["a"] signed);
    [reflexivity|reflexivity|exact E].
Defined.

(** Two private keys with the same public key. *)
Lemma gen_key_pairs_entries_witness :
  Transaction.gen_key_pairs (X := Toy.externals) ["a"; "b"; "a"] !! "Pa"
  = Some "a".
Proof.
  destruct (gen_key_pairs_entries (X := Toy.externals) ["a"; "b"; "a"])
    as (_ & _ & H).
  apply (H ["a"; "b"] "a" []); [reflexivity|].
  intros other Hother. apply elem_of_nil in Hother. contradiction.
Defined.

(** ** [Transaction.create] and [Transaction.transfer] *)

Section class_methods.
Context {X : Externals}.

Lemma init_Ok_constructed operation asset inputs outputs metadata version
    self :
  Transaction.__init__ operation asset inputs outputs metadata version
  = Ok self ->
  constructed self
  /\ operation = PStr (Transaction.operation self)
  /\ Transaction.asset self = asset
  /\ Transaction.inputs self = Transaction.from_option inputs
  /\ Transaction.outputs self = Transaction.from_option outputs
  /\ Transaction.metadata self = metadata
  /\ Transaction.version self
     = (if Transaction.is_None version then PStr VERSION else version).
Proof.
  unfold constructed, Transaction.__init__.
  destruct operation as [|op| | | |]; try discriminate.
  destruct (bool_decide (op ∈ Transaction.ALLOWED_OPERATIONS)) eqn:Eop;
    [|discriminate].
  destruct (_ && _ && _) eqn:Ecreate; [discriminate|].
  destruct (String.eqb op Transaction.TRANSFER && _) eqn:Etransfer;
    [discriminate|].
  destruct (negb (Transaction.is_None metadata) && _) eqn:Emeta;
    [discriminate|].
  intros [= <-]. simpl. rewrite Eop, Ecreate, Etransfer, Emeta.
  assert (Hv' : Transaction.is_None
                  (if Transaction.is_None version then PStr VERSION
                   else version) = false)
    by (destruct version; reflexivity).
  rewrite Hv'. repeat split; reflexivity.
Qed.

Lemma generate_output_Ok recipient_ output :
  Classmethods.generate_output recipient_ = Ok output ->
  exists pub_keys amount,
    recipient_ = Pair pub_keys amount
    /\ Output.generate pub_keys amount = Ok output.
Proof. destruct recipient_; [eauto|discriminate]. Qed.

Lemma generate_outputs_Ok recipients outputs :
  map_result Classmethods.generate_output recipients = Ok outputs ->
  Forall2
    (fun recipient_ output =>
       exists pub_keys amount,
         recipient_ = Pair pub_keys amount
         /\ Output.generate pub_keys amount = Ok output)
    recipients outputs.
Proof.
  intros H. apply map_result_Forall2 in H.
  eapply Forall2_impl; [exact H|]. apply generate_output_Ok.
Qed.

Lemma create_Ok tx_signers recipients metadata asset tx :
  Classmethods.create tx_signers recipients metadata asset = Ok tx ->
  exists signers recipients_list outputs signers_output,
    tx_signers = PList signers
    /\ signers <> []
    /\ recipients = Some recipients_list
    /\ recipients_list <> []
    /\ map_result Classmethods.generate_output recipients_list = Ok outputs
    /\ Output.generate tx_signers 1 = Ok signers_output
    /\ Transaction.__init__ (PStr Transaction.CREATE)
         (PDict [("data", asset)])
         (Some [Input.mk (Output.fulfillment signers_output) signers None])
         (Some outputs) metadata PNone = Ok tx.
Proof.
  unfold Classmethods.create.
  destruct tx_signers as [| | |signers| |]; try discriminate.
  destruct recipients as [rs|]; [|discriminate].
  case_bool_decide as Hs; [discriminate|].
  case_bool_decide as Hr; [discriminate|].
  destruct (negb _); [discriminate|].
  destruct (map_result Classmethods.generate_output rs) as [outputs|] eqn:Eo;
    [|discriminate].
  cbn [bind]. unfold Input.generate.
  destruct (Output.generate (PList signers) 1) as [signers_output|] eqn:Es;
    [|discriminate].
  cbn [bind Input.__init__]. intros H.
  exists signers, rs, outputs, signers_output.
  split; [reflexivity|]. split; [intros ->; apply Hs; reflexivity|].
  split; [reflexivity|]. split; [intros ->; apply Hr; reflexivity|].
  auto.
Qed.

(** X15.  A transaction that [Transaction.create] returns is a [CREATE]
    transaction with the asset [{'data': asset}], the metadata given and
    the version [VERSION]; it has one input, owned by the signers,
    without a link, whose fulfillment is the one [Output.generate] builds
    for the signers; and one output per recipient, in the order of the
    recipients, each the output that [Output.generate] builds for the
    keys and the amount of its recipient.  The constructor returns the
    transaction again on its own fields. *)
Theorem create_returns tx_signers recipients metadata asset tx :
  Classmethods.create tx_signers recipients metadata asset = Ok tx ->
  constructed tx
  /\ Transaction.operation tx = "CREATE"
  /\ Transaction.asset tx = PDict [("data", asset)]
  /\ Transaction.metadata tx = metadata
  /\ Transaction.version tx = PStr VERSION
  /\ (exists signers signers_output,
         tx_signers = PList signers
         /\ Output.generate tx_signers 1 = Ok signers_output
         /\ Transaction.inputs tx
            = [Input.mk (Output.fulfillment signers_output) signers None])
  /\ (exists recipients_list,
         recipients = Some recipients_list
         /\ recipients_list <> []
         /\ Forall2
              (fun recipient_ output =>
                 exists pub_keys amount,
                   recipient_ = Pair pub_keys amount
                   /\ Output.generate pub_keys amount = Ok output)
              recipients_list (Transaction.outputs tx)).
Proof.
  intros Hcreate.
  destruct (create_Ok _ _ _ _ _ Hcreate)
    as (signers & rs & outputs & signers_output & -> & Hs & -> & Hr & Eo
        & Es & H).
  destruct (init_Ok_constructed _ _ _ _ _ _ _ H)
    as (Hc & Hop & Has & Hin & Hout & Hme & Hve).
  injection Hop as Hop. simpl in Hin, Hout, Hve.
  split; [exact Hc|].
  split; [symmetry; exact Hop|]. split; [exact Has|]. split; [exact Hme|].
  split; [exact Hve|]. split.
  - exists signers, signers_output. auto.
  - exists rs. split; [reflexivity|]. split; [exact Hr|].
    rewrite Hout. apply generate_outputs_Ok. exact Eo.
Qed.

(** X16.  [Transaction.create] raises [TypeError] when the signers or
    the recipients are not a list, and when the asset is neither [None]
    nor a dictionary; [ValueError] when one of the two lists is empty,
    and when a recipient is not a tuple of two items while the
    recipients before it give outputs. *)
Theorem create_rejects tx_signers recipients metadata asset :
  ((forall signers, tx_signers <> PList signers) \/ recipients = None ->
   Classmethods.create tx_signers recipients metadata asset
   = Raise TypeError)
  /\ (forall signers recipients_list,
         tx_signers = PList signers -> recipients = Some recipients_list ->
         signers = [] \/ recipients_list = [] ->
         Classmethods.create tx_signers recipients metadata asset
         = Raise ValueError)
  /\ (forall signers recipients_list,
         tx_signers = PList signers -> recipients = Some recipients_list ->
         signers <> [] -> recipients_list <> [] ->
         asset <> PNone -> Transaction.is_dict asset = false ->
         Classmethods.create tx_signers recipients metadata asset
         = Raise TypeError)
  /\ (forall signers before value after,
         tx_signers = PList signers ->
         recipients = Some (before ++ Other value :: after) ->
         signers <> [] ->
         asset = PNone \/ Transaction.is_dict asset = true ->
         Forall (fun recipient_ =>
                   is_ok (Classmethods.generate_output recipient_) = true)
           before ->
         Classmethods.create tx_signers recipients metadata asset
         = Raise ValueError).
Proof.
  unfold Classmethods.create. split; [|split; [|split]].
  - intros [Hs| ->].
    + destruct tx_signers as [| | |signers| |]; try reflexivity.
      exfalso. apply (Hs signers). reflexivity.
    + destruct tx_signers; reflexivity.
  - intros signers rs -> -> [-> | ->]; simpl; [reflexivity|].
    case_bool_decide; reflexivity.
  - intros signers rs -> -> Hs Hr Hnone Hdict.
    rewrite bool_decide_eq_false_2 by (destruct signers; [congruence|discriminate]).
    rewrite bool_decide_eq_false_2 by (destruct rs; [congruence|discriminate]).
    rewrite Hdict. destruct asset; try congruence; reflexivity.
  - intros signers before value after -> -> Hs Hasset Hbefore.
    rewrite bool_decide_eq_false_2 by (destruct signers; [congruence|discriminate]).
    rewrite bool_decide_eq_false_2
      by (rewrite length_app; simpl; lia).
    replace (negb _) with false
      by (destruct Hasset as [-> | Hd]; [reflexivity|];
          rewrite Hd, orb_true_r; reflexivity).
    assert (Ho : map_result Classmethods.generate_output
                   (before ++ Other value :: after) = Raise ValueError).
    { clear -Hbefore. induction Hbefore as [|r rs Hr _ IH]; simpl.
      - reflexivity.
      - destruct (Classmethods.generate_output r); [|discriminate Hr].
        simpl. rewrite IH. reflexivity. }
    rewrite Ho. reflexivity.
Qed.
End class_methods.

(** ** Creating, signing and validating *)

Lemma generate_owners public_keys amount :
  public_keys <> [] ->
  1 <= amount <= Output.MAX_AMOUNT ->
  Output.generate (PList (List.map PStr public_keys)) amount
  = Ok (Output.mk (PFulfillment (owners_fulfillment public_keys))
          (Some (List.map PStr public_keys)) amount).
Proof.
  intros Hne Ham. destruct public_keys as [|pk [|pk' pks]]; [contradiction| |].
  - unfold Output.generate, Output.__init__. simpl.
    destruct (Z.ltb_spec amount 1) as [|_]; [lia|].
    destruct (Z.ltb_spec Output.MAX_AMOUNT amount) as [|_]; [lia|].
    reflexivity.
  - assert (Hlen : (1 < length (List.map PStr (pk :: pk' :: pks)))%nat)
      by (simpl; lia).
    rewrite (generate_nodes _ _ amount Ham (or_introl Hlen)
               (mapM_node_of_keys (pk :: pk' :: pks))).
    rewrite length_map. reflexivity.
Qed.

Section owners_input.
Context {X : Externals}.
Variable key_pairs : gmap string string.

Lemma leaf_keys_leaves public_keys :
  List.flat_map leaf_keys
    (List.map (fun pk => Ed25519Fulfillment pk None) public_keys)
  = public_keys.
Proof.
  induction public_keys as [|pk pks IH]; simpl; [reflexivity|].
  rewrite IH. reflexivity.
Qed.

Lemma get_subcondition_leaves public_keys pk :
  pk ∈ public_keys ->
  List.flat_map (fun s => get_subcondition_from_vk s pk)
    (List.map (fun pk => Ed25519Fulfillment pk None) public_keys) <> [].
Proof.
  induction public_keys as [|pk' pks IH]; intros Hin.
  - apply elem_of_nil in Hin. contradiction.
  - simpl. destruct (String.eqb pk' pk) eqn:E; [discriminate|]. simpl.
    apply elem_of_cons in Hin as [->|Hin]; [|apply IH, Hin].
    rewrite String.eqb_refl in E. discriminate.
Qed.

Lemma owners_input_covered public_keys fulfills :
  public_keys <> [] ->
  owners_cover
    (Input.mk (PFulfillment (owners_fulfillment public_keys))
       (List.map PStr public_keys) fulfills) = true.
Proof.
  intros Hne. destruct public_keys as [|pk [|pk' pks]]; [contradiction| |].
  - unfold owners_cover. simpl. rewrite String.eqb_refl. reflexivity.
  - set (pks' := pk :: pk' :: pks). unfold owners_cover.
    change (owners_fulfillment pks')
      with (ThresholdSha256Fulfillment (length pks')
              (List.map (fun pk => Ed25519Fulfillment pk None) pks')).
    cbn [Input.fulfillment Input.owners_before leaf_keys satisfiable].
    rewrite leaf_keys_leaves, length_map, Nat.leb_refl.
    rewrite !andb_true_iff. repeat split.
    + apply forallb_elem_of. intros x Hx.
      apply list_elem_of_fmap in Hx as (? & -> & _). reflexivity.
    + apply forallb_elem_of. intros x Hx. apply bool_decide_eq_true.
      apply list_elem_of_fmap. eauto.
    + apply forallb_elem_of. intros x Hx.
      apply list_elem_of_fmap in Hx as (? & -> & _). reflexivity.
Qed.

Lemma owners_input_has_keys public_keys fulfills :
  public_keys <> [] ->
  (forall pk, pk ∈ public_keys -> is_Some (key_pairs !! pk)) ->
  has_keys key_pairs
    (Input.mk (PFulfillment (owners_fulfillment public_keys))
       (List.map PStr public_keys) fulfills) = true.
Proof.
  intros Hne Hkeys. destruct public_keys as [|pk [|pk' pks]]; [contradiction| |].
  - unfold has_keys. simpl. apply bool_decide_eq_true. apply Hkeys.
    apply list_elem_of_here.
  - set (pks' := pk :: pk' :: pks) in *. unfold has_keys.
    change (owners_fulfillment pks')
      with (ThresholdSha256Fulfillment (length pks')
              (List.map (fun pk => Ed25519Fulfillment pk None) pks')).
    cbn [Input.fulfillment Input.owners_before].
    apply forallb_elem_of. intros x Hx.
    apply list_elem_of_fmap in Hx as (vk & -> & Hvk).
    unfold owner_has_key. cbn [get_subcondition_from_vk].
    pose proof (get_subcondition_leaves pks' vk Hvk) as Hsub.
    destruct (List.flat_map _ _); [contradiction|].
    apply bool_decide_eq_true. apply Hkeys. exact Hvk.
Qed.
End owners_input.

Section create_and_sign.
Context {X : Externals} {L : SignatureLaws}.

(** X17.  A transaction created for signers that are public keys, once
    signed with private keys among which every signer has one, is
    valid: [sign] returns, and [inputs_valid] on the signed transaction
    returns [True] whatever the outputs passed. *)
Theorem create_sign_valid public_keys private_keys recipients metadata
    asset tx :
  Classmethods.create (PList (List.map PStr public_keys)) recipients
    metadata asset = Ok tx ->
  (forall public_key,
      public_key ∈ public_keys ->
      exists private_key,
        private_key ∈ private_keys
        /\ gen_public_key private_key = public_key) ->
  exists signed,
    Transaction.sign tx private_keys = Ok signed
    /\ forall outputs, Transaction.inputs_valid signed outputs = Ok true.
Proof.
  intros Hcreate Hkeys.
  destruct (create_Ok _ _ _ _ _ Hcreate)
    as (signers & rs & outputs & signers_output & [= <-] & Hs & _ & _ & _
        & Es & H).
  assert (Hne : public_keys <> []) by (intros ->; apply Hs; reflexivity).
  rewrite generate_owners in Es
    by (assumption || unfold Output.MAX_AMOUNT; lia).
  injection Es as <-. cbn [Output.fulfillment] in H.
  destruct (init_Ok_constructed _ _ _ _ _ _ _ H)
    as (Hc & Hop & _ & Hin & _).
  injection Hop as Hop. simpl in Hin.
  set (key_pairs := Transaction.gen_key_pairs private_keys).
  assert (Hsome : forall pk, pk ∈ public_keys -> is_Some (key_pairs !! pk)).
  { intros pk Hpk. destruct (Hkeys pk Hpk) as (sk & Hsk & Hpub).
    destruct (key_pairs !! pk) eqn:E; [eauto|]. exfalso.
    apply (proj1 (gen_key_pairs_None private_keys pk) E sk Hsk Hpub). }
  assert (Hcover : forall i, i ∈ Transaction.inputs tx ->
                             owners_cover i = true).
  { intros i. rewrite Hin. intros Hi. apply list_elem_of_singleton in Hi.
    subst i. apply owners_input_covered. exact Hne. }
  assert (Hhas : forall i, i ∈ Transaction.inputs tx ->
                           has_keys key_pairs i = true).
  { intros i. rewrite Hin. intros Hi. apply list_elem_of_singleton in Hi.
    subst i. apply owners_input_has_keys; assumption. }
  assert (Hwt : forallb well_typed_input (Transaction.inputs tx) = true).
  { apply forallb_elem_of. intros i Hi.
    apply owners_cover_well_typed, Hcover, Hi. }
  rewrite (sign_spec tx private_keys Hc Hwt). fold key_pairs.
  rewrite (proj2 (forallb_elem_of _ _) Hhas).
  eexists. split; [reflexivity|].
  intros outs. unfold Transaction.inputs_valid. simpl.
  assert (Hop' : Transaction.operation tx
                 ∈ [Transaction.CREATE; Transaction.GENESIS])
    by (rewrite <- Hop; apply list_elem_of_here).
  rewrite bool_decide_eq_true_2 by exact Hop'.
  unfold Transaction._inputs_valid. simpl.
  rewrite bool_decide_eq_false_2 by (rewrite !length_map; auto).
  apply all_map3_true.
  apply (gen_tx_all_signed private_keys tx _ (Transaction.inputs tx));
    auto.
  clear -Hop'. induction (Transaction.inputs tx) as [|i inputs IH]; simpl;
    constructor; [left; exact Hop'|exact IH].
Qed.
End create_and_sign.

Section transfers.
Context {X : Externals}.

Lemma transfer_Ok inputs recipients asset_id metadata tx :
  Classmethods.transfer inputs recipients asset_id metadata = Ok tx ->
  exists inputs_list recipients_list outputs asset_id_string,
    inputs = Some inputs_list
    /\ inputs_list <> []
    /\ recipients = Some recipients_list
    /\ recipients_list <> []
    /\ map_result Classmethods.generate_output recipients_list = Ok outputs
    /\ asset_id = PStr asset_id_string
    /\ Transaction.__init__ (PStr Transaction.TRANSFER)
         (PDict [("id", asset_id)]) (Some inputs_list) (Some outputs)
         metadata PNone = Ok tx.
Proof.
  unfold Classmethods.transfer.
  destruct inputs as [inputs|]; [|discriminate].
  case_bool_decide as Hi; [discriminate|].
  destruct recipients as [rs|]; [|discriminate].
  case_bool_decide as Hr; [discriminate|].
  destruct (map_result Classmethods.generate_output rs) as [outputs|] eqn:Eo;
    [|discriminate].
  cbn [bind]. destruct asset_id as [|s| | | |]; try discriminate.
  intros H. exists inputs, rs, outputs, s.
  split; [reflexivity|]. split; [intros ->; apply Hi; reflexivity|].
  split; [reflexivity|]. split; [intros ->; apply Hr; reflexivity|].
  auto.
Qed.

(** X18.  A transaction that [Transaction.transfer] returns is a
    [TRANSFER] transaction whose asset is [{'id': asset_id}] with a
    string [asset_id]; its inputs are the inputs given, at least one;
    it has one output per recipient, in the order of the recipients,
    each the output that [Output.generate] builds for its recipient; its
    asset id, by [get_asset_id], is [asset_id].  The constructor returns
    the transaction again on its own fields. *)
Theorem transfer_returns inputs recipients asset_id metadata tx :
  Classmethods.transfer inputs recipients asset_id metadata = Ok tx ->
  constructed tx
  /\ Transaction.operation tx = "TRANSFER"
  /\ Transaction.asset tx = PDict [("id", asset_id)]
  /\ is_str asset_id = true
  /\ Transaction.metadata tx = metadata
  /\ Transaction.version tx = PStr VERSION
  /\ inputs = Some (Transaction.inputs tx)
  /\ Transaction.inputs tx <> []
  /\ (exists recipients_list,
         recipients = Some recipients_list
         /\ recipients_list <> []
         /\ Forall2
              (fun recipient_ output =>
                 exists pub_keys amount,
                   recipient_ = Pair pub_keys amount
                   /\ Output.generate pub_keys amount = Ok output)
              recipients_list (Transaction.outputs tx))
  /\ Transaction.get_asset_id [tx] = Ok asset_id.
Proof.
  intros Htransfer.
  destruct (transfer_Ok _ _ _ _ _ Htransfer)
    as (inputs_list & rs & outputs & s & -> & Hi & -> & Hr & Eo & -> & H).
  destruct (init_Ok_constructed _ _ _ _ _ _ _ H)
    as (Hc & Hop & Has & Hin & Hout & Hme & Hve).
  injection Hop as Hop. simpl in Hin, Hout, Hve.
  split; [exact Hc|]. split; [symmetry; exact Hop|]. split; [exact Has|].
  split; [reflexivity|]. split; [exact Hme|]. split; [exact Hve|].
  split; [rewrite Hin; reflexivity|]. split; [rewrite Hin; exact Hi|].
  split.
  - exists rs. split; [reflexivity|]. split; [exact Hr|].
    rewrite Hout. apply generate_outputs_Ok. exact Eo.
  - unfold Transaction.get_asset_id, Transaction.asset_id_of. simpl.
    rewrite <- Hop, Has. reflexivity.
Qed.

(** X19.  [Transaction.transfer] raises [TypeError] when the inputs or
    the recipients are not a list, [ValueError] when one of the two
    lists is empty, and, when every recipient gives an output,
    [TypeError] for an [asset_id] that is not a string. *)
Theorem transfer_rejects inputs recipients asset_id metadata :
  (inputs = None ->
   Classmethods.transfer inputs recipients asset_id metadata
   = Raise TypeError)
  /\ (inputs = Some [] ->
      Classmethods.transfer inputs recipients asset_id metadata
      = Raise ValueError)
  /\ (forall inputs_list,
         inputs = Some inputs_list -> inputs_list <> [] ->
         (recipients = None ->
          Classmethods.transfer inputs recipients asset_id metadata
          = Raise TypeError)
         /\ (recipients = Some [] ->
             Classmethods.transfer inputs recipients asset_id metadata
             = Raise ValueError)
         /\ (forall recipients_list,
                recipients = Some recipients_list ->
                recipients_list <> [] ->
                Forall (fun recipient_ =>
                          is_ok (Classmethods.generate_output recipient_)
                          = true) recipients_list ->
                is_str asset_id = false ->
                Classmethods.transfer inputs recipients asset_id metadata
                = Raise TypeError)).
Proof.
  unfold Classmethods.transfer. split; [|split].
  - intros ->. reflexivity.
  - intros ->. reflexivity.
  - intros inputs_list -> Hi.
    rewrite bool_decide_eq_false_2
      by (destruct inputs_list; [congruence|discriminate]).
    split; [|split].
    + intros ->. reflexivity.
    + intros ->. reflexivity.
    + intros rs -> Hr Hall Hstr.
      rewrite bool_decide_eq_false_2
        by (destruct rs; [congruence|discriminate]).
      assert (Ho : exists outputs,
                 map_result Classmethods.generate_output rs = Ok outputs).
      { clear -Hall. induction Hall as [|r rs Hrs _ [outputs IH]]; simpl.
        - eauto.
        - destruct (Classmethods.generate_output r); [|discriminate Hrs].
          simpl. rewrite IH. simpl. eauto. }
      destruct Ho as [outputs ->]. cbn [bind].
      destruct asset_id; try reflexivity. discriminate Hstr.
Qed.

(** X20.  A created transaction and a transfer made with the id of the
    created transaction as its [asset_id] have one asset id, the id of
    the created transaction. *)
Theorem create_transfer_asset_id tx_signers recipients metadata asset
    created created_id inputs recipients' metadata' transferred :
  Classmethods.create tx_signers recipients metadata asset = Ok created ->
  Transaction.id created = Ok created_id ->
  Classmethods.transfer inputs recipients' created_id metadata'
  = Ok transferred ->
  Transaction.get_asset_id [created; transferred] = Ok created_id
  /\ Transaction.get_asset_id [created] = Ok created_id
  /\ Transaction.get_asset_id [transferred] = Ok created_id.
Proof.
  intros Hcreate Hid Htransfer.
  destruct (create_Ok _ _ _ _ _ Hcreate)
    as (? & ? & ? & ? & _ & _ & _ & _ & _ & _ & Hc).
  destruct (init_Ok_constructed _ _ _ _ _ _ _ Hc) as (_ & Hop & _).
  injection Hop as Hop.
  destruct (transfer_Ok _ _ _ _ _ Htransfer)
    as (? & ? & ? & s & _ & _ & _ & _ & _ & -> & Ht).
  destruct (init_Ok_constructed _ _ _ _ _ _ _ Ht) as (_ & Hop' & Has & _).
  injection Hop' as Hop'.
  unfold Transaction.get_asset_id, Transaction.asset_id_of. simpl.
  rewrite <- Hop, <- Hop', Has, Hid. simpl.
  destruct (decide_rel elem_of (PStr s) [PStr s]) as [_|Hn];
    [auto|].
  exfalso. apply Hn. apply list_elem_of_here.
Qed.
End transfers.

(** A [CREATE] transaction of one signer for one recipient. *)
Lemma create_returns_witness :
  exists tx,
    Classmethods.create (X := Toy.externals) (PList [PStr "Pa"])
      (Some [Pair (PList [PStr "Pb"]) 5]) PNone PNone = Ok tx
    /\ constructed (X := Toy.externals) tx
    /\ Transaction.operation tx = "CREATE".
Proof.
  destruct (Classmethods.create (X := Toy.externals) (PList [PStr "Pa"])
              (Some [Pair (PList [PStr "Pb"]) 5]) PNone PNone)
    as [tx|e] eqn:E; [|vm_compute in E; discriminate E].
  exists tx. split; [reflexivity|].
  destruct (create_returns (X := Toy.externals) _ _ _ _ _ E)
    as (Hc & Hop & _).
  auto.
Defined.

(** A recipient that is not a tuple, after one that is. *)
Lemma create_rejects_witness :
  Classmethods.create (X := Toy.externals) (PList [PStr "Pa"])
    (Some [Pair (PList [PStr "Pb"]) 5; Other (PStr "Pc")]) PNone PNone
  = Raise ValueError.
Proof.
  destruct (create_rejects (X := Toy.externals) (PList [PStr "Pa"])
              (Some [Pair (PList [PStr "Pb"]) 5; Other (PStr "Pc")])
              PNone PNone) as (_ & _ & _ & H).
  apply (H [PStr "Pa"] [Pair (PList [PStr "Pb"]) 5] (PStr "Pc") []);
    [reflexivity|reflexivity|discriminate|left; reflexivity|].
  repeat constructor.
Defined.

(** A [CREATE] transaction of two signers, signed by both. *)
Lemma create_sign_valid_witness :
  exists tx signed,
    Classmethods.create (X := Toy.externals) (PList [PStr "Pa"; PStr "Pb"])
      (Some [Pair (PList [PStr "Pb"]) 5]) PNone PNone = Ok tx
    /\ Transaction.sign (X := Toy.externals) tx ["a"; "b"] = Ok signed
    /\ Transaction.inputs_valid (X := Toy.externals) signed None = Ok true.
Proof.
  destruct (Classmethods.create (X := Toy.externals)
              (PList [PStr "Pa"; PStr "Pb"])
              (Some [Pair (PList [PStr "Pb"]) 5]) PNone PNone)
    as [tx|e] eqn:E; [|vm_compute in E; discriminate E].
  destruct (create_sign_valid (X := Toy.externals) (L := Toy_signature_laws)
              ["Pa"; "Pb"] ["a"; "b"] _ _ _ _ E) as (signed & Hs & Hv).
  - intros pk Hpk. apply elem_of_cons in Hpk as [->|Hpk].
    + exists "a". split; [apply list_elem_of_here|reflexivity].
    + apply list_elem_of_singleton in Hpk. subst pk.
      exists "b". split; [|reflexivity].
      apply list_elem_of_further, list_elem_of_here.
  - exists tx, signed. auto.
Defined.

(** A transfer of the asset ["t0"] from one input to one recipient. *)
Lemma transfer_returns_witness :
  exists tx,
    Classmethods.transfer (X := Toy.externals) (Some [Toy.input_a])
      (Some [Pair (PList [PStr "Pb"]) 5]) (PStr "t0") PNone = Ok tx
    /\ Transaction.get_asset_id (X := Toy.externals) [tx] = Ok (PStr "t0").
Proof.
  destruct (Classmethods.transfer (X := Toy.externals) (Some [Toy.input_a])
              (Some [Pair (PList [PStr "Pb"]) 5]) (PStr "t0") PNone)
    as [tx|e] eqn:E; [|vm_compute in E; discriminate E].
  exists tx. split; [reflexivity|].
  apply (transfer_returns (X := Toy.externals) _ _ _ _ _ E).
Defined.

(** A transfer whose asset id is a number. *)
Lemma transfer_rejects_witness :
  Classmethods.transfer (X := Toy.externals) (Some [Toy.input_a])
    (Some [Pair (PList [PStr "Pb"]) 5]) (PInt 0) PNone = Raise TypeError.
Proof.
  destruct (transfer_rejects (X := Toy.externals) (Some [Toy.input_a])
              (Some [Pair (PList [PStr "Pb"]) 5]) (PInt 0) PNone)
    as (_ & _ & H).
  destruct (H [Toy.input_a] eq_refl) as (_ & _ & H'); [discriminate|].
  apply (H' [Pair (PList [PStr "Pb"]) 5]);
    [reflexivity|discriminate|repeat constructor|reflexivity].
Defined.

(** A created transaction and a transfer of its asset. *)
Lemma create_transfer_asset_id_witness :
  exists created created_id transferred,
    Classmethods.create (X := Toy.externals) (PList [PStr "Pa"])
      (Some [Pair (PList [PStr "Pb"]) 5]) PNone PNone = Ok created
    /\ Classmethods.transfer (X := Toy.externals) (Some [Toy.input_a])
         (Some [Pair (PList [PStr "Pb"]) 5]) created_id PNone
       = Ok transferred
    /\ Transaction.get_asset_id (X := Toy.externals) [created; transferred]
       = Ok created_id.
Proof.
  destruct (Classmethods.create (X := Toy.externals) (PList [PStr "Pa"])
              (Some [Pair (PList [PStr "Pb"]) 5]) PNone PNone)
    as [created|e] eqn:E; [|vm_compute in E; discriminate E].
  destruct (Transaction.id (X := Toy.externals) created)
    as [created_id|e] eqn:Eid;
    [|vm_compute in E; injection E as <-; vm_compute in Eid;
      discriminate Eid].
  destruct (Classmethods.transfer (X := Toy.externals) (Some [Toy.input_a])
              (Some [Pair (PList [PStr "Pb"]) 5]) created_id PNone)
    as [transferred|e] eqn:Et;
    [|vm_compute in E; injection E as <-; vm_compute in Eid;
      injection Eid as <-; vm_compute in Et; discriminate Et].
  exists created, created_id, transferred.
  split; [reflexivity|]. split; [exact Et|].
  apply (create_transfer_asset_id (X := Toy.externals) _ _ _ _ _ _ _ _ _ _
           E Eid Et).
Defined.

(** ** [to_inputs] with a list of indices *)

Section to_inputs_indices.
Import Heap.
Context {X : Externals}.

Lemma py_index_in_range {A : Type} (xs : list A) idx :
  - Z.of_nat (length xs) <= idx < Z.of_nat (length xs) ->
  exists x,
    xs !! Z.to_nat (idx mod Z.of_nat (length xs)) = Some x
    /\ py_index xs idx = Ok x.
Proof.
  intros Hr. unfold py_index. set (n := Z.of_nat (length xs)) in *.
  set (i := if (idx <? 0)%Z then (n + idx)%Z else idx).
  assert (Hi : 0 <= i < n)
    by (subst i; destruct (Z.ltb_spec idx 0); lia).
  assert (Hmod : idx mod n = i).
  { symmetry. subst i. destruct (Z.ltb_spec idx 0).
    - apply (Z.mod_unique idx n (-1)); lia.
    - apply (Z.mod_unique idx n 0); lia. }
  rewrite Hmod.
  destruct (Z.leb_spec 0 i) as [_|]; [|lia].
  destruct (Z.ltb_spec i n) as [_|]; [|lia]. simpl.
  destruct (lookup_lt_is_Some_2 xs (Z.to_nat i)) as [x Hx];
    [subst n; lia|].
  exists x. rewrite Hx. auto.
Qed.

Lemma py_index_out_of_range {A : Type} (xs : list A) idx :
  ~ (- Z.of_nat (length xs) <= idx < Z.of_nat (length xs)) ->
  py_index xs idx = Raise IndexError.
Proof.
  intros Hr. unfold py_index. set (n := Z.of_nat (length xs)) in *.
  destruct (Z.ltb_spec idx 0).
  - destruct (Z.leb_spec 0 (n + idx)); destruct (Z.ltb_spec (n + idx) n);
      simpl; try reflexivity; lia.
  - destruct (Z.leb_spec 0 idx); destruct (Z.ltb_spec idx n);
      simpl; try reflexivity; lia.
Qed.

(** X21.  [to_inputs] with a list of indices that is not empty, on a
    transaction that has an id and whose outputs hold lists of public
    keys: when every index is within the outputs, counted from the end
    if negative, the result has one input per index, in the order of the
    indices, which holds the fulfillment and the public keys of the
    output at that index and links to the id of the transaction and to
    the index as it was given; the first index that is not within the
    outputs raises [IndexError]. *)
Theorem to_inputs_indices fuel h self self_id indices :
  indices <> [] ->
  id fuel h self = Some (Ok self_id) ->
  Forall (fun output => is_list h (public_keys output)) (outputs self) ->
  let n := Z.of_nat (length (outputs self)) in
  (Forall (fun idx => - n <= idx < n) indices ->
   exists inputs,
     to_inputs fuel h self (Some indices) = Some (Ok inputs)
     /\ Forall2
          (fun idx input_ =>
             exists output,
               outputs self !! Z.to_nat (idx mod n) = Some output
               /\ input_
                  = mkInput (fulfillment output) (public_keys output)
                      (Some (TransactionLink.mk self_id (PInt idx))))
          indices inputs)
  /\ (forall before idx after,
         indices = before ++ idx :: after ->
         Forall (fun idx => - n <= idx < n) before ->
         ~ (- n <= idx < n) ->
         to_inputs fuel h self (Some indices) = Some (Raise IndexError)).
Proof.
  intros Hne Hid Hlists n.
  set (f := fun idx : Z =>
              bind2 (Some (py_index (outputs self) idx)) (fun output =>
              bind2 (id fuel h self) (fun self_id =>
              Some (Input__init__ h (fulfillment output) (public_keys output)
                      (Some (TransactionLink.mk self_id (PInt idx))))))).
  assert (Hto : to_inputs fuel h self (Some indices)
                = map_result2 f indices).
  { unfold to_inputs. destruct indices; [contradiction|reflexivity]. }
  assert (Hin : forall idx,
             - n <= idx < n ->
             exists output,
               outputs self !! Z.to_nat (idx mod n) = Some output
               /\ f idx
                  = Some (Ok (mkInput (fulfillment output)
                                (public_keys output)
                                (Some (TransactionLink.mk self_id
                                         (PInt idx)))))).
  { intros idx Hr.
    destruct (py_index_in_range (outputs self) idx Hr)
      as (output & Hlookup & Hidx).
    exists output. split; [exact Hlookup|].
    unfold f. rewrite Hidx. cbn [bind2]. rewrite Hid. cbn [bind2].
    rewrite Forall_forall in Hlists.
    destruct (Hlists output) as (a & items & Hv & Ha);
      [eapply list_elem_of_lookup_2; exact Hlookup|].
    unfold Input__init__. rewrite Hv, Ha. reflexivity. }
  assert (Hout : forall idx, ~ (- n <= idx < n) ->
                             f idx = Some (Raise IndexError)).
  { intros idx Hr. unfold f.
    rewrite (py_index_out_of_range (outputs self) idx Hr). reflexivity. }
  rewrite Hto. clear Hto Hne. split.
  - induction 1 as [|idx rest Hr _ (inputs & Hmap & Hall)].
    + exists []. split; [reflexivity|constructor].
    + destruct (Hin idx Hr) as (output & Hlookup & Hf).
      eexists. cbn [map_result2]. rewrite Hf. cbn [bind2]. rewrite Hmap.
      cbn [bind2]. split; [reflexivity|].
      constructor; [|exact Hall]. exists output. auto.
  - intros before idx after -> Hbefore Hr.
    induction Hbefore as [|idx0 rest Hr0 _ IH]; cbn [app map_result2].
    + rewrite (Hout idx Hr). reflexivity.
    + destruct (Hin idx0 Hr0) as (output & _ & Hf). rewrite Hf.
      cbn [bind2]. rewrite IH. reflexivity.
Qed.
End to_inputs_indices.

(** The last output of the sample transaction, by the index [-1]. *)
Lemma to_inputs_indices_witness :
  exists self_id,
    Heap.to_inputs (X := Toy.externals) 4 Toy.objects Toy.create_tx_object
      (Some [-1])
    = Some (Ok [Heap.mkInput (Heap.VRef 2) (Heap.VRef 3)
                  (Some (TransactionLink.mk self_id (PInt (-1))))])
    /\ Heap.to_inputs (X := Toy.externals) 4 Toy.objects
         Toy.create_tx_object (Some [1])
       = Some (Raise IndexError).
Proof.
  destruct (Heap.id (X := Toy.externals) 4 Toy.objects Toy.create_tx_object)
    as [[self_id|e]|] eqn:E; try (vm_compute in E; discriminate E).
  exists self_id. split.
  - destruct (to_inputs_indices (X := Toy.externals) 4 Toy.objects
                Toy.create_tx_object self_id [-1]) as [Hall _].
    + discriminate.
    + exact E.
    + repeat constructor. exists 3%nat, [Heap.VStr "Pb"]. split; reflexivity.
    + destruct Hall as (inputs & Hinputs & Hshape).
      * repeat constructor; simpl; lia.
      * rewrite Hinputs. do 2 f_equal.
        inversion Hshape as [|? input_ ? rest (output & Ho & ->) Hrest];
          subst.
        inversion Hrest; subst. simpl in Ho. injection Ho as <-.
        reflexivity.
  - destruct (to_inputs_indices (X := Toy.externals) 4 Toy.objects
                Toy.create_tx_object self_id [1]) as [_ Hraise].
    + discriminate.
    + exact E.
    + repeat constructor. exists 3%nat, [Heap.VStr "Pb"]. split; reflexivity.
    + apply (Hraise [] 1 []); [reflexivity|constructor|simpl; lia].
Defined.

(** ** The string of a transaction *)

Section transaction_string.
Context {X : Externals}.

Lemma str_objects self :
  Forall (fun i => is_object (Input.fulfillment i) = true)
    (Transaction.inputs self) ->
  Transaction.__str__ self
  = Ok (serialize
          (PDict (body self
                    (List.map stripped_input (Transaction.inputs self))
                  ++ [("id", PStr (id_of self))]))).
Proof.
  intros H. destruct (inputs_to_dict_objects_Ok _ H) as [ds Hds].
  destruct (inputs_to_dict_Ok _ _ Hds) as (_ & _ & Hc).
  assert (Hd : Transaction.to_dict self
               = Ok (PDict (body self ds ++ [("id", PStr (id_of self))])))
    by (apply to_dict_Ok; eauto).
  unfold Transaction.__str__. rewrite Hd. cbn [bind].
  unfold Transaction._remove_signatures. simpl. rewrite Hc. reflexivity.
Qed.

(** X22.  The string of a transaction, [str(tx)], is the same before
    and after [sign]: it holds no signature.  It is the serialization of
    the dictionary of the transaction, its id included, with the
    fulfillment of every input [None]. *)
Theorem str_unchanged_by_sign self private_keys signed :
  Transaction.sign self private_keys = Ok signed ->
  Transaction.__str__ signed = Transaction.__str__ self
  /\ exists tx_dict stripped,
      Transaction.to_dict self = Ok tx_dict
      /\ Transaction._remove_signatures tx_dict = Ok stripped
      /\ Transaction.__str__ self = Ok (serialize stripped)
      /\ subscript stripped "id" = Transaction.id self.
Proof.
  unfold Transaction.sign. intros H.
  destruct (sign_from_frame _ _ self [] signed eq_refl H)
    as ((Hop & Has & Hout & Hme & Hve) & Hsame & Hobj & l & Hl & Hobj').
  simpl in Hl. subst l. split.
  - rewrite (str_objects self Hobj), (str_objects signed Hobj').
    unfold id_of, body. rewrite Hop, Has, Hout, Hme, Hve.
    rewrite (stripped_inputs_eq _ _ Hsame). reflexivity.
  - destruct (inputs_to_dict_objects_Ok _ Hobj) as [ds Hds].
    destruct (inputs_to_dict_Ok _ _ Hds) as (_ & _ & Hc).
    assert (Hd : Transaction.to_dict self
                 = Ok (PDict (body self ds ++ [("id", PStr (id_of self))])))
      by (apply to_dict_Ok; eauto).
    eexists _, _. split; [exact Hd|]. split; [|split].
    + unfold Transaction._remove_signatures. simpl. rewrite Hc. reflexivity.
    + apply (str_objects self Hobj).
    + rewrite (id_of_objects self Hobj). reflexivity.
Qed.

(** X23.  [Input.from_dict] raises [InvalidSignature] for a fulfillment
    URI that [from_uri] refuses with [ValueError], [KeyError] for a
    dictionary without the field [fulfillment], and [TypeError] for a
    value that is not a dictionary.  An input it returns holds a
    fulfillment object, the list at [owners_before] and a link, the
    empty link when the field [fulfills] is not a dictionary. *)
Theorem Input_from_dict_cases data :
  (forall items uri,
      data = PDict items ->
      dict_get "fulfillment" items = Some (PStr uri) ->
      from_uri uri = Raise ValueError ->
      Input.from_dict data = Raise InvalidSignature)
  /\ (forall items,
         data = PDict items -> dict_get "fulfillment" items = None ->
         Input.from_dict data = Raise KeyError)
  /\ (Transaction.is_dict data = false ->
      Input.from_dict data = Raise TypeError)
  /\ (forall input_,
         Input.from_dict data = Ok input_ ->
         exists items f value link,
           data = PDict items
           /\ Input.fulfillment input_ = PFulfillment f
           /\ dict_get "owners_before" items
              = Some (PList (Input.owners_before input_))
           /\ dict_get "fulfills" items = Some value
           /\ TransactionLink.from_dict value = Ok link
           /\ Input.fulfills input_ = Some link
           /\ (Transaction.is_dict value = false ->
               link = TransactionLink.empty)).
Proof.
  unfold Input.from_dict. split; [|split; [|split]].
  - intros items uri -> Hf Hu. simpl. rewrite Hf. simpl. rewrite Hu.
    reflexivity.
  - intros items -> Hf. simpl. rewrite Hf. reflexivity.
  - intros Hd. destruct data; try reflexivity. discriminate Hd.
  - intros input_. destruct data as [| | | |items|]; try discriminate.
    simpl. destruct (dict_get "fulfillment" items) as [value|];
      [|discriminate].
    cbn [bind].
    destruct (match value with
              | PStr uri =>
                  match from_uri uri with
                  | Raise ValueError => Raise InvalidSignature
                  | Raise TypeError => Fulfillment_from_dict value
                  | r => r
                  end
              | _ => Fulfillment_from_dict value
              end) as [f|]; [|discriminate].
    cbn [bind].
    destruct (dict_get "fulfills" items) as [link_value|] eqn:Ef;
      [|discriminate].
    cbn [bind].
    destruct (TransactionLink.from_dict link_value) as [link|] eqn:El;
      [|discriminate].
    cbn [bind].
    destruct (dict_get "owners_before" items) as [owners|] eqn:Eo;
      [|discriminate].
    cbn [bind]. unfold Input.__init__.
    destruct owners as [| | |owners| |]; try discriminate.
    intros [= <-]. exists items, f, link_value, link. simpl.
    repeat (split; [reflexivity || assumption|]).
    intros Hd. destruct link_value; try discriminate Hd;
      simpl in El; congruence.
Qed.
End transaction_string.

(** The string of the sample [CREATE] transaction, before and after it
    is signed. *)
Lemma str_unchanged_by_sign_witness :
  exists signed,
    Transaction.sign (X := Toy.externals) Toy.create_tx ["a"] = Ok signed
    /\ Transaction.__str__ (X := Toy.externals) signed
       = Transaction.__str__ (X := Toy.externals) Toy.create_tx.
Proof.
  destruct (Transaction.sign (X := Toy.externals) Toy.create_tx ["a"])
    as [signed|e] eqn:E; [|vm_compute in E; discriminate E].
  exists signed. split; [reflexivity|].
  apply (str_unchanged_by_sign (X := Toy.externals) _ _ _ E).
Defined.

(** An input dictionary without a fulfillment. *)
Lemma Input_from_dict_cases_witness :
  Input.from_dict (X := Toy.externals) (PDict [("owners_before", PList [])])
  = Raise KeyError.
Proof.
  destruct (Input_from_dict_cases (X := Toy.externals)
              (PDict [("owners_before", PList [])])) as (_ & H & _).
  apply (H [("owners_before", PList [])]); reflexivity.
Defined.

(** ** Reading a transaction from a dictionary *)

Section reading.
Context {X : Externals}.

Lemma Output_from_dict_bounds data output :
  Output.from_dict data = Ok output ->
  1 <= Output.amount output <= Output.MAX_AMOUNT.
Proof.
  unfold Output.from_dict.
  destruct (Output.condition_from_dict data) as [f|]; [|discriminate].
  cbn [bind]. destruct (subscript data "amount") as [av|]; [|discriminate].
  cbn [bind]. destruct (Output.amount_from_value av) as [a|]; [|discriminate].
  cbn [bind]. destruct (subscript data "public_keys") as [pk|];
    [|discriminate].
  cbn [bind]. intros H.
  destruct (Output_init_Ok f pk a output H) as (Hb & pks & _ & ->).
  exact Hb.
Qed.

Lemma validate_id_Ok items :
  Transaction.validate_id (PDict items) = Ok tt ->
  exists stripped,
    Transaction._remove_signatures (PDict (dict_remove "id" items))
    = Ok stripped
    /\ dict_get "id" items
       = Some (PStr (Transaction._to_hash (Transaction._to_str stripped))).
Proof.
  unfold Transaction.validate_id, Transaction.pop_id.
  destruct (dict_get "id" items) as [proposed|]; [|discriminate].
  simpl.
  destruct (Transaction._remove_signatures _) as [stripped|];
    [|discriminate].
  simpl. case_bool_decide as Hp; [discriminate|]. intros _.
  exists stripped. split; [reflexivity|].
  destruct (decide (proposed
                    = PStr (Transaction._to_hash
                              (Transaction._to_str stripped))))
    as [->|Hne]; [reflexivity|contradiction].
Qed.

(** X24.  [Transaction.from_dict] returns a transaction only for a
    dictionary whose id [validate_id] accepts, and raises what
    [validate_id] raises otherwise; the dictionary with any other value
    as its id is refused with [InvalidHash].  The transaction returned
    has the operation, asset and metadata of the dictionary, one input
    per item of [inputs] and one output per item of [outputs], as
    [Input.from_dict] and [Output.from_dict] read them, every amount
    within the bounds; the constructor returns the transaction again on
    its own fields. *)
Theorem from_dict_checks tx_dict :
  (forall e,
      Transaction.validate_id tx_dict = Raise e ->
      Transaction.from_dict tx_dict = Raise e)
  /\ (forall tx,
         Transaction.from_dict tx_dict = Ok tx ->
         Transaction.validate_id tx_dict = Ok tt
         /\ constructed tx
         /\ subscript tx_dict "operation" = Ok (PStr (Transaction.operation tx))
         /\ subscript tx_dict "asset" = Ok (Transaction.asset tx)
         /\ subscript tx_dict "metadata" = Ok (Transaction.metadata tx)
         /\ (exists inputs_value items,
                subscript tx_dict "inputs" = Ok inputs_value
                /\ iterate inputs_value = Ok items
                /\ Forall2 (fun item input_ => Input.from_dict item = Ok input_)
                     items (Transaction.inputs tx))
         /\ (exists outputs_value items,
                subscript tx_dict "outputs" = Ok outputs_value
                /\ iterate outputs_value = Ok items
                /\ Forall2
                     (fun item output => Output.from_dict item = Ok output)
                     items (Transaction.outputs tx))
         /\ Forall (fun output => 1 <= Output.amount output <= 9 * 10 ^ 18)
              (Transaction.outputs tx)
         /\ forall items value,
             tx_dict = PDict items ->
             dict_get "id" items <> Some value ->
             Transaction.from_dict (PDict (dict_set "id" value items))
             = Raise InvalidHash).
Proof.
  unfold Transaction.from_dict. split.
  - intros e ->. reflexivity.
  - intros tx.
    destruct (Transaction.validate_id tx_dict) as [[]|] eqn:Ev;
      [|discriminate].
    cbn [bind].
    destruct (subscript tx_dict "inputs") as [iv|] eqn:Ei; [|discriminate].
    cbn [bind]. destruct (iterate iv) as [ivs|] eqn:Eit; [|discriminate].
    cbn [bind].
    destruct (map_result Input.from_dict ivs) as [inputs|] eqn:Eis;
      [|discriminate].
    cbn [bind].
    destruct (subscript tx_dict "outputs") as [ov|] eqn:Eo; [|discriminate].
    cbn [bind]. destruct (iterate ov) as [ovs|] eqn:Eot; [|discriminate].
    cbn [bind].
    destruct (map_result Output.from_dict ovs) as [outputs|] eqn:Eos;
      [|discriminate].
    cbn [bind].
    destruct (subscript tx_dict "operation") as [op|] eqn:Eop;
      [|discriminate].
    cbn [bind].
    destruct (subscript tx_dict "asset") as [asset|] eqn:Ea; [|discriminate].
    cbn [bind].
    destruct (subscript tx_dict "metadata") as [metadata|] eqn:Em;
      [|discriminate].
    cbn [bind].
    destruct (subscript tx_dict "version") as [version|] eqn:Eve;
      [|discriminate].
    cbn [bind]. intros H.
    destruct (init_Ok_constructed _ _ _ _ _ _ _ H)
      as (Hc & Hop & Has & Hin & Hout & Hme & _).
    simpl in Hin, Hout. apply map_result_Forall2 in Eis, Eos.
    split; [reflexivity|]. split; [exact Hc|].
    split; [rewrite Hop; reflexivity|]. split; [rewrite Has; reflexivity|].
    split; [rewrite Hme; reflexivity|].
    split; [exists iv, ivs; rewrite Hin; auto|].
    split; [exists ov, ovs; rewrite Hout; auto|].
    split.
    + rewrite Hout. clear -Eos.
      induction Eos as [|item output items outputs Ho _ IH];
        constructor; [|exact IH].
      apply (Output_from_dict_bounds item output Ho).
    + intros items value -> Hvalue.
      destruct (validate_id_Ok items Ev) as (stripped & Hs & Hid).
      unfold Transaction.validate_id, Transaction.pop_id.
      rewrite dict_get_set_eq. cbn [bind].
      rewrite dict_remove_set, Hs. cbn [bind].
      rewrite bool_decide_eq_true_2 by congruence. reflexivity.
Qed.
End reading.

(** The dictionary of the sample [CREATE] transaction, and the same
    dictionary with another id. *)
Lemma from_dict_checks_witness :
  exists tx items,
    Transaction.from_dict (X := Toy.externals) Toy.create_tx_dict = Ok tx
    /\ Toy.create_tx_dict = PDict items
    /\ Transaction.from_dict (X := Toy.externals)
         (PDict (dict_set "id" (PStr "other") items))
       = Raise InvalidHash.
Proof.
  destruct (Transaction.from_dict (X := Toy.externals) Toy.create_tx_dict)
    as [tx|e] eqn:E; [|vm_compute in E; discriminate E].
  destruct Toy.create_tx_dict as [| | | |items|] eqn:Ed;
    try (vm_compute in Ed; discriminate Ed).
  exists tx, items. split; [reflexivity|]. split; [reflexivity|].
  destruct (from_dict_checks (X := Toy.externals) (PDict items)) as [_ H].
  destruct (H tx E) as (_ & _ & _ & _ & _ & _ & _ & _ & Hother).
  apply Hother; [reflexivity|].
  vm_compute in Ed. injection Ed as <-. vm_compute. discriminate.
Defined.
